(** * stratinho: AHRS Kalman filter, flight simulator and MPU9250 driver

    A shallow embedding of
      - [ahrs/ahrs.go]       (package ahrs: State, Measurement, normalize,
                              Initialize, Predict, Update, PredictMeasurement,
                              the two Jacobians),
      - [sim/ahrs_sim.go]    (ToQuaternion, FromQuaternion, Situation and its
                              interpolate / derivative / control /
                              measurement queries),
      - [mpu9250/mpu9250.go] (MPU9250.Read, readMPURaw, CalibrateGyro,
                              ReadMagCalibration and the bus accessors
                              i2cWrite, i2cRead, i2cRead2),
    and properties of them: those the specification states, and further
    ones read off the code.

    Numbers.  Go's [float64] is idealised as the real numbers [R]: rounding,
    infinities, NaN and signed zeros are not represented.  Wherever the
    source divides, the model agrees with the source only when the divisor
    is non-zero (Go yields NaN or an infinity there, [Rdiv] yields a real).
    In package ahrs every theorem that depends on a quotient carries the
    hypothesis that makes its divisor non-zero; in the simulator the one
    quotient whose divisor can be zero has an outcome of its own
    ([Sim.NotFinite]); [MPU9250.Read] guards its quotients itself.  [int32]
    accumulators are integers [Z]; where the driver computes with
    fixed-width integers the wrap-around is written out. *)

From Stdlib Require Import Reals Lra Lia ZArith List String Bool.
From Stdlib Require Import ClassicalEpsilon.
Import ListNotations.
Open Scope R_scope.

(** ** The dense matrices of [github.com/skelterjohn/go.matrix]

    The matrix package is not part of the repository.  A matrix is modelled
    by its shape and its entries; the operations below are the usual ones, at
    the shapes the source builds (32x32, 15x32, 15x15, 15x1) and at indices
    inside those shapes, which is all the source uses.  [Inverse] is not
    modelled here: the filter takes it as a parameter. *)
Module Matrix.

Record DenseMatrix : Type := mkDense {
  rows : nat;
  cols : nat;
  elem : nat -> nat -> R
}.

Definition Zeros (r c : nat) : DenseMatrix := mkDense r c (fun _ _ => 0).

Definition Eye (n : nat) : DenseMatrix :=
  mkDense n n (fun i j => if Nat.eqb i j then 1 else 0).

Definition Diagonal (d : list R) : DenseMatrix :=
  mkDense (List.length d) (List.length d)
          (fun i j => if Nat.eqb i j then nth i d 0 else 0).

Definition Get (A : DenseMatrix) (i j : nat) : R := elem A i j.

(** [A.Set(i, j, v)]; [Set] is a reserved word here, hence [Set_]. *)
Definition Set_ (A : DenseMatrix) (i j : nat) (v : R) : DenseMatrix :=
  mkDense (rows A) (cols A)
          (fun i' j' => if andb (Nat.eqb i' i) (Nat.eqb j' j) then v
                        else elem A i' j').

(** [dot n f] is f 0 + f 1 + ... + f (n-1). *)
Fixpoint dot (n : nat) (f : nat -> R) : R :=
  match n with
  | O => 0
  | S k => dot k f + f k
  end.

Definition Product (A B : DenseMatrix) : DenseMatrix :=
  mkDense (rows A) (cols B)
          (fun i j => dot (cols A) (fun k => elem A i k * elem B k j)).

Definition Sum (A B : DenseMatrix) : DenseMatrix :=
  mkDense (rows A) (cols A) (fun i j => elem A i j + elem B i j).

Definition Difference (A B : DenseMatrix) : DenseMatrix :=
  mkDense (rows A) (cols A) (fun i j => elem A i j - elem B i j).

Definition Scaled (A : DenseMatrix) (f : R) : DenseMatrix :=
  mkDense (rows A) (cols A) (fun i j => elem A i j * f).

Definition Transpose (A : DenseMatrix) : DenseMatrix :=
  mkDense (cols A) (rows A) (fun i j => elem A j i).

(** Two matrices are the same when shape and entries inside the shape
    agree. *)
Definition same (A B : DenseMatrix) : Prop :=
  rows A = rows B /\ cols A = cols B /\
  forall i j, (i < rows A)%nat -> (j < cols A)%nat -> elem A i j = elem B i j.

(** [B] is a two-sided inverse of the square matrix [A]. *)
Definition inverse_of (A B : DenseMatrix) : Prop :=
  rows A = cols A /\
  same (Product A B) (Eye (rows A)) /\ same (Product B A) (Eye (rows A)).

(** The exact inverse over the reals: [Some] inverse when one exists,
    [None] (the library's error) when the matrix is singular. *)
Definition exactInverse (A : DenseMatrix) : option DenseMatrix :=
  match excluded_middle_informative (exists B, inverse_of A B) with
  | left ex => Some (proj1_sig (constructive_indefinite_description _ ex))
  | right _ => None
  end.

End Matrix.
Import Matrix.

(** ** Package ahrs ([ahrs/ahrs.go]) *)
Module Ahrs.

(** G is the acceleration due to gravity, kt/s. *)
Definition G : R := 32.1740 / 1.687810.
Definition Big : R := 1e9.
Definition Deg : R := PI / 180.

(** [math.Hypot(p, q)], for finite arguments. *)
Definition Hypot (p q : R) : R := sqrt (p * p + q * q).

(** The Go comparison [x > y] on floats, as a boolean. *)
Definition gtb (x y : R) : bool := if Rlt_dec y x then true else false.

(** The struct [State].  [M] and [N] are pointers to matrices of the
    matrix package; the filter replaces them and never shares them, so
    they are held by value.  A nil pointer is the empty matrix. *)
Module State.
Record t : Type := mk {
  U1 : R; U2 : R; U3 : R;          (* airspeed, aircraft frame, kt *)
  Z1 : R; Z2 : R; Z3 : R;          (* rate of change of airspeed, G *)
  E0 : R; E1 : R; E2 : R; E3 : R;  (* quaternion earth -> aircraft *)
  H1 : R; H2 : R; H3 : R;          (* gyro rates, aircraft frame, deg/s *)
  N1 : R; N2 : R; N3 : R;          (* earth's magnetic field, earth frame *)
  V1 : R; V2 : R; V3 : R;          (* windspeed, earth frame, kt *)
  C1 : R; C2 : R; C3 : R;          (* accelerometer bias, sensor frame *)
  F0 : R; F1 : R; F2 : R; F3 : R;  (* quaternion sensor -> aircraft *)
  D1 : R; D2 : R; D3 : R;          (* gyro bias, sensor frame *)
  L1 : R; L2 : R; L3 : R;          (* magnetometer bias, sensor frame *)
  T : R;                           (* time when state last updated *)
  M : DenseMatrix;                 (* covariance of state uncertainty *)
  N : DenseMatrix;                 (* covariance of state noise per s *)
  e11 : R; e12 : R; e13 : R;       (* cached quaternion fragments *)
  e21 : R; e22 : R; e23 : R;
  e31 : R; e32 : R; e33 : R;
  f11 : R; f12 : R; f13 : R;
  f21 : R; f22 : R; f23 : R;
  f31 : R; f32 : R; f33 : R
}.

(** [new(State)]: every field at its zero value. *)
Definition zero : t :=
  mk 0 0 0  0 0 0  0 0 0 0  0 0 0  0 0 0
     0 0 0  0 0 0  0 0 0 0  0 0 0  0 0 0
     0 (Zeros 0 0) (Zeros 0 0)
     0 0 0  0 0 0  0 0 0
     0 0 0  0 0 0  0 0 0.

(** Assign [s.U1, s.U2, s.U3]. *)
Definition withU (s : t) (u1 u2 u3 : R) : t :=
  {| U1 := u1; U2 := u2; U3 := u3; Z1 := Z1 s; Z2 := Z2 s; Z3 := Z3 s;
     E0 := E0 s; E1 := E1 s; E2 := E2 s; E3 := E3 s; H1 := H1 s;
     H2 := H2 s; H3 := H3 s; N1 := N1 s; N2 := N2 s; N3 := N3 s;
     V1 := V1 s; V2 := V2 s; V3 := V3 s; C1 := C1 s; C2 := C2 s;
     C3 := C3 s; F0 := F0 s; F1 := F1 s; F2 := F2 s; F3 := F3 s;
     D1 := D1 s; D2 := D2 s; D3 := D3 s; L1 := L1 s; L2 := L2 s;
     L3 := L3 s; T := T s; M := M s; N := N s; e11 := e11 s; e12 := e12 s;
     e13 := e13 s; e21 := e21 s; e22 := e22 s; e23 := e23 s; e31 := e31 s;
     e32 := e32 s; e33 := e33 s; f11 := f11 s; f12 := f12 s; f13 := f13 s;
     f21 := f21 s; f22 := f22 s; f23 := f23 s; f31 := f31 s; f32 := f32 s;
     f33 := f33 s |}.

(** Assign [s.E0 .. s.E3]. *)
Definition withE (s : t) (q0 q1 q2 q3 : R) : t :=
  {| U1 := U1 s; U2 := U2 s; U3 := U3 s; Z1 := Z1 s; Z2 := Z2 s;
     Z3 := Z3 s; E0 := q0; E1 := q1; E2 := q2; E3 := q3; H1 := H1 s;
     H2 := H2 s; H3 := H3 s; N1 := N1 s; N2 := N2 s; N3 := N3 s;
     V1 := V1 s; V2 := V2 s; V3 := V3 s; C1 := C1 s; C2 := C2 s;
     C3 := C3 s; F0 := F0 s; F1 := F1 s; F2 := F2 s; F3 := F3 s;
     D1 := D1 s; D2 := D2 s; D3 := D3 s; L1 := L1 s; L2 := L2 s;
     L3 := L3 s; T := T s; M := M s; N := N s; e11 := e11 s; e12 := e12 s;
     e13 := e13 s; e21 := e21 s; e22 := e22 s; e23 := e23 s; e31 := e31 s;
     e32 := e32 s; e33 := e33 s; f11 := f11 s; f12 := f12 s; f13 := f13 s;
     f21 := f21 s; f22 := f22 s; f23 := f23 s; f31 := f31 s; f32 := f32 s;
     f33 := f33 s |}.

(** Assign [s.F0 .. s.F3]. *)
Definition withF (s : t) (q0 q1 q2 q3 : R) : t :=
  {| U1 := U1 s; U2 := U2 s; U3 := U3 s; Z1 := Z1 s; Z2 := Z2 s;
     Z3 := Z3 s; E0 := E0 s; E1 := E1 s; E2 := E2 s; E3 := E3 s;
     H1 := H1 s; H2 := H2 s; H3 := H3 s; N1 := N1 s; N2 := N2 s;
     N3 := N3 s; V1 := V1 s; V2 := V2 s; V3 := V3 s; C1 := C1 s;
     C2 := C2 s; C3 := C3 s; F0 := q0; F1 := q1; F2 := q2; F3 := q3;
     D1 := D1 s; D2 := D2 s; D3 := D3 s; L1 := L1 s; L2 := L2 s;
     L3 := L3 s; T := T s; M := M s; N := N s; e11 := e11 s; e12 := e12 s;
     e13 := e13 s; e21 := e21 s; e22 := e22 s; e23 := e23 s; e31 := e31 s;
     e32 := e32 s; e33 := e33 s; f11 := f11 s; f12 := f12 s; f13 := f13 s;
     f21 := f21 s; f22 := f22 s; f23 := f23 s; f31 := f31 s; f32 := f32 s;
     f33 := f33 s |}.

(** Assign [s.N1, s.N2, s.N3]. *)
Definition withN123 (s : t) (n1 n2 n3 : R) : t :=
  {| U1 := U1 s; U2 := U2 s; U3 := U3 s; Z1 := Z1 s; Z2 := Z2 s;
     Z3 := Z3 s; E0 := E0 s; E1 := E1 s; E2 := E2 s; E3 := E3 s;
     H1 := H1 s; H2 := H2 s; H3 := H3 s; N1 := n1; N2 := n2; N3 := n3;
     V1 := V1 s; V2 := V2 s; V3 := V3 s; C1 := C1 s; C2 := C2 s;
     C3 := C3 s; F0 := F0 s; F1 := F1 s; F2 := F2 s; F3 := F3 s;
     D1 := D1 s; D2 := D2 s; D3 := D3 s; L1 := L1 s; L2 := L2 s;
     L3 := L3 s; T := T s; M := M s; N := N s; e11 := e11 s; e12 := e12 s;
     e13 := e13 s; e21 := e21 s; e22 := e22 s; e23 := e23 s; e31 := e31 s;
     e32 := e32 s; e33 := e33 s; f11 := f11 s; f12 := f12 s; f13 := f13 s;
     f21 := f21 s; f22 := f22 s; f23 := f23 s; f31 := f31 s; f32 := f32 s;
     f33 := f33 s |}.

(** Assign [s.T]. *)
Definition withT (s : t) (t' : R) : t :=
  {| U1 := U1 s; U2 := U2 s; U3 := U3 s; Z1 := Z1 s; Z2 := Z2 s;
     Z3 := Z3 s; E0 := E0 s; E1 := E1 s; E2 := E2 s; E3 := E3 s;
     H1 := H1 s; H2 := H2 s; H3 := H3 s; N1 := N1 s; N2 := N2 s;
     N3 := N3 s; V1 := V1 s; V2 := V2 s; V3 := V3 s; C1 := C1 s;
     C2 := C2 s; C3 := C3 s; F0 := F0 s; F1 := F1 s; F2 := F2 s;
     F3 := F3 s; D1 := D1 s; D2 := D2 s; D3 := D3 s; L1 := L1 s;
     L2 := L2 s; L3 := L3 s; T := t'; M := M s; N := N s; e11 := e11 s;
     e12 := e12 s; e13 := e13 s; e21 := e21 s; e22 := e22 s; e23 := e23 s;
     e31 := e31 s; e32 := e32 s; e33 := e33 s; f11 := f11 s; f12 := f12 s;
     f13 := f13 s; f21 := f21 s; f22 := f22 s; f23 := f23 s; f31 := f31 s;
     f32 := f32 s; f33 := f33 s |}.

(** Assign [s.M]. *)
Definition withM (s : t) (m' : DenseMatrix) : t :=
  {| U1 := U1 s; U2 := U2 s; U3 := U3 s; Z1 := Z1 s; Z2 := Z2 s;
     Z3 := Z3 s; E0 := E0 s; E1 := E1 s; E2 := E2 s; E3 := E3 s;
     H1 := H1 s; H2 := H2 s; H3 := H3 s; N1 := N1 s; N2 := N2 s;
     N3 := N3 s; V1 := V1 s; V2 := V2 s; V3 := V3 s; C1 := C1 s;
     C2 := C2 s; C3 := C3 s; F0 := F0 s; F1 := F1 s; F2 := F2 s;
     F3 := F3 s; D1 := D1 s; D2 := D2 s; D3 := D3 s; L1 := L1 s;
     L2 := L2 s; L3 := L3 s; T := T s; M := m'; N := N s; e11 := e11 s;
     e12 := e12 s; e13 := e13 s; e21 := e21 s; e22 := e22 s; e23 := e23 s;
     e31 := e31 s; e32 := e32 s; e33 := e33 s; f11 := f11 s; f12 := f12 s;
     f13 := f13 s; f21 := f21 s; f22 := f22 s; f23 := f23 s; f31 := f31 s;
     f32 := f32 s; f33 := f33 s |}.

(** Assign [s.N]. *)
Definition withN (s : t) (n' : DenseMatrix) : t :=
  {| U1 := U1 s; U2 := U2 s; U3 := U3 s; Z1 := Z1 s; Z2 := Z2 s;
     Z3 := Z3 s; E0 := E0 s; E1 := E1 s; E2 := E2 s; E3 := E3 s;
     H1 := H1 s; H2 := H2 s; H3 := H3 s; N1 := N1 s; N2 := N2 s;
     N3 := N3 s; V1 := V1 s; V2 := V2 s; V3 := V3 s; C1 := C1 s;
     C2 := C2 s; C3 := C3 s; F0 := F0 s; F1 := F1 s; F2 := F2 s;
     F3 := F3 s; D1 := D1 s; D2 := D2 s; D3 := D3 s; L1 := L1 s;
     L2 := L2 s; L3 := L3 s; T := T s; M := M s; N := n'; e11 := e11 s;
     e12 := e12 s; e13 := e13 s; e21 := e21 s; e22 := e22 s; e23 := e23 s;
     e31 := e31 s; e32 := e32 s; e33 := e33 s; f11 := f11 s; f12 := f12 s;
     f13 := f13 s; f21 := f21 s; f22 := f22 s; f23 := f23 s; f31 := f31 s;
     f32 := f32 s; f33 := f33 s |}.

End State.

(** The struct [Measurement].  [M] is the measurement noise covariance,
    a pointer the caller shares with [Update], which writes through it:
    [Update] returns the measurement it leaves behind. *)
Module Measurement.
Record t : Type := mk {
  UValid : bool; WValid : bool; SValid : bool; MValid : bool;
  U1 : R; U2 : R; U3 : R;   (* measured airspeed, kt *)
  W1 : R; W2 : R; W3 : R;   (* GPS speed, kt, earth frame *)
  A1 : R; A2 : R; A3 : R;   (* accelerometer readings, G *)
  B1 : R; B2 : R; B3 : R;   (* gyro rates, deg/s *)
  M1 : R; M2 : R; M3 : R;   (* magnetometer readings, uT *)
  T : R;                    (* timestamp *)
  M : DenseMatrix           (* measurement noise covariance *)
}.

(** Write [m.M] (the matrix behind the pointer). *)
Definition withM (m : t) (m' : DenseMatrix) : t :=
  {| UValid := UValid m; WValid := WValid m; SValid := SValid m;
     MValid := MValid m;
     U1 := U1 m; U2 := U2 m; U3 := U3 m;
     W1 := W1 m; W2 := W2 m; W3 := W3 m;
     A1 := A1 m; A2 := A2 m; A3 := A3 m;
     B1 := B1 m; B2 := B2 m; B3 := B3 m;
     M1 := M1 m; M2 := M2 m; M3 := M3 m;
     T := T m; M := m' |}.
End Measurement.


(** [normalize] normalizes the E and F quaternions of [s] and rewrites the
    cached fragments.  The source assigns [e21] twice (lines 81 and 83)
    and never assigns [e12]: the second assignment to [e21] overwrites the
    first, and [e12] keeps the value it had. *)
Definition normalize (s : State.t) : State.t :=
  let ee := sqrt (State.E0 s * State.E0 s + State.E1 s * State.E1 s
                  + State.E2 s * State.E2 s + State.E3 s * State.E3 s) in
  let s := State.withE s (State.E0 s / ee) (State.E1 s / ee)
                         (State.E2 s / ee) (State.E3 s / ee) in
  let ff := sqrt (State.F0 s * State.F0 s + State.F1 s * State.F1 s
                  + State.F2 s * State.F2 s + State.F3 s * State.F3 s) in
  let s := State.withF s (State.F0 s / ff) (State.F1 s / ff)
                         (State.F2 s / ff) (State.F3 s / ff) in
  let c_e11 := 2 * (State.E0 s * State.E0 s + State.E1 s * State.E1 s - 0.5) in
  let c_e21 := 2 * (State.E0 s * State.E3 s + State.E1 s * State.E2 s) in
  let c_e13 := 2 * (- State.E0 s * State.E2 s + State.E1 s * State.E3 s) in
  let c_e21' := 2 * (- State.E0 s * State.E3 s + State.E2 s * State.E1 s) in
  let c_e22 := 2 * (State.E0 s * State.E0 s + State.E2 s * State.E2 s - 0.5) in
  let c_e23 := 2 * (State.E0 s * State.E1 s + State.E2 s * State.E3 s) in
  let c_e31 := 2 * (State.E0 s * State.E2 s + State.E3 s * State.E1 s) in
  let c_e32 := 2 * (- State.E0 s * State.E1 s + State.E3 s * State.E2 s) in
  let c_e33 := 2 * (State.E0 s * State.E0 s + State.E3 s * State.E3 s - 0.5) in
  let c_f11 := 2 * (State.F0 s * State.F0 s + State.F1 s * State.F1 s - 0.5) in
  let c_f12 := 2 * (State.F0 s * State.F3 s + State.F1 s * State.F2 s) in
  let c_f13 := 2 * (- State.F0 s * State.F2 s + State.F1 s * State.F3 s) in
  let c_f21 := 2 * (- State.F0 s * State.F3 s + State.F2 s * State.F1 s) in
  let c_f22 := 2 * (State.F0 s * State.F0 s + State.F2 s * State.F2 s - 0.5) in
  let c_f23 := 2 * (State.F0 s * State.F1 s + State.F2 s * State.F3 s) in
  let c_f31 := 2 * (State.F0 s * State.F2 s + State.F3 s * State.F1 s) in
  let c_f32 := 2 * (- State.F0 s * State.F1 s + State.F3 s * State.F2 s) in
  let c_f33 := 2 * (State.F0 s * State.F0 s + State.F3 s * State.F3 s - 0.5) in
  {| State.U1 := State.U1 s; State.U2 := State.U2 s; State.U3 := State.U3 s;
     State.Z1 := State.Z1 s; State.Z2 := State.Z2 s; State.Z3 := State.Z3 s;
     State.E0 := State.E0 s; State.E1 := State.E1 s; State.E2 := State.E2 s;
     State.E3 := State.E3 s; State.H1 := State.H1 s; State.H2 := State.H2 s;
     State.H3 := State.H3 s; State.N1 := State.N1 s; State.N2 := State.N2 s;
     State.N3 := State.N3 s; State.V1 := State.V1 s; State.V2 := State.V2 s;
     State.V3 := State.V3 s; State.C1 := State.C1 s; State.C2 := State.C2 s;
     State.C3 := State.C3 s; State.F0 := State.F0 s; State.F1 := State.F1 s;
     State.F2 := State.F2 s; State.F3 := State.F3 s; State.D1 := State.D1 s;
     State.D2 := State.D2 s; State.D3 := State.D3 s; State.L1 := State.L1 s;
     State.L2 := State.L2 s; State.L3 := State.L3 s; State.T := State.T s;
     State.M := State.M s; State.N := State.N s; State.e11 := c_e11;
     State.e12 := State.e12 s; State.e13 := c_e13; State.e21 := c_e21';
     State.e22 := c_e22; State.e23 := c_e23; State.e31 := c_e31;
     State.e32 := c_e32; State.e33 := c_e33; State.f11 := c_f11;
     State.f12 := c_f12; State.f13 := c_f13; State.f21 := c_f21;
     State.f22 := c_f22; State.f23 := c_f23; State.f31 := c_f31;
     State.f32 := c_f32; State.f33 := c_f33 |}.

(** [Initialize], first block (lines 107-135): the initial covariance and
    the process noise, each a squared diagonal matrix. *)
Definition initCovariances (s : State.t) : State.t :=
  let s := State.withM s (Diagonal [
    50; 5; 5;
    5; 2; 2;
    0.5; 0.5; 0.5; 0.5;
    5; 5; 5;
    65; 65; 65;
    20; 20; 2;
    0.05; 0.05; 0.05;
    0.5; 0.5; 0.5; 0.5;
    0.1; 0.1; 0.1;
    10; 10; 10 ]) in
  let s := State.withM s (Product (State.M s) (State.M s)) in
  let s := State.withN s (Diagonal [
    1; 0.1; 0.1;
    0.2; 0.2; 0.2;
    0.05; 0.05; 0.05; 0.05;
    1; 1; 1;
    0.01; 0.01; 0.01;
    0.1; 0.1; 0.05;
    0.01 / 60; 0.01 / 60; 0.01 / 60;
    0.001 / 60; 0.001 / 60; 0.001 / 60; 0.001 / 60;
    0.1 / 60; 0.1 / 60; 0.1 / 60;
    0.01 / 60; 0.01 / 60; 0.01 / 60 ]) in
  State.withN s (Product (State.N s) (State.N s)).

(** [Initialize], second block (lines 139-145): best guess at initial
    airspeed is initial groundspeed. *)
Definition initAirspeed (m : Measurement.t) (s : State.t) : State.t :=
  if Measurement.WValid m then
    let s := State.withU s (Hypot (Measurement.W1 m) (Measurement.W2 m))
                           (State.U2 s) (State.U3 s) in
    let s := State.withM s (Set_ (State.M s) 0 0 (10 * 10)) in
    let s := State.withM s (Set_ (State.M s) 16 16 50) in
    State.withM s (Set_ (State.M s) 17 17 50)
  else s.

(** [Initialize], third block (lines 147-160): best guess at initial
    heading is initial track. *)
Definition initHeading (m : Measurement.t) (s : State.t) : State.t :=
  if andb (Measurement.WValid m) (gtb (State.U1 s) 5) then
    let s := State.withE s
      (sqrt ((State.U1 s + Measurement.W1 m) / (2 * State.U1 s)))
      (State.E1 s) (State.E2 s)
      (sqrt ((State.U1 s - Measurement.W1 m) / (2 * State.U1 s))) in
    let s :=
      if gtb (Measurement.W2 m) 0
      then State.withE s (State.E0 s) (State.E1 s) (State.E2 s)
                         (State.E3 s * -1)
      else s in
    let s := State.withM s (Set_ (State.M s) 6 6 (0.1 * 0.1)) in
    let s := State.withM s (Set_ (State.M s) 7 7 (0.1 * 0.1)) in
    let s := State.withM s (Set_ (State.M s) 8 8 (0.1 * 0.1)) in
    State.withM s (Set_ (State.M s) 9 9 (0.1 * 0.1))
  else
    State.withE s 1 (State.E1 s) (State.E2 s) (State.E3 s).

(** [Initialize], last block (lines 166-170): the earth's field from the
    first magnetometer reading. *)
Definition initField (m : Measurement.t) (s : State.t) : State.t :=
  if Measurement.MValid m then
    State.withN123 s
      (Measurement.M1 m * State.e11 s + Measurement.M2 m * State.e12 s
       + Measurement.M3 m * State.e13 s)
      (Measurement.M1 m * State.e21 s + Measurement.M2 m * State.e22 s
       + Measurement.M3 m * State.e23 s)
      (Measurement.M1 m * State.e31 s + Measurement.M2 m * State.e32 s
       + Measurement.M3 m * State.e33 s)
  else s.

(** [Initialize] the state at the start of the Kalman filter, based on the
    current measurements: the blocks above in the order of the source,
    with [s.F0 = 1] and [s.normalize()] before the last. *)
Definition Initialize (m : Measurement.t) : State.t :=
  let s := State.zero in
  let s := initCovariances s in
  let s := initAirspeed m s in
  let s := initHeading m s in
  let s := State.withF s 1 (State.F1 s) (State.F2 s) (State.F3 s) in
  let s := normalize s in
  initField m s.

(** The four assignments [s.E0 += ...] .. [s.E3 += ...] that the source
    writes out twice, word for word: in [Predict] (lines 184-187) and in
    [calcJacobianState] (lines 376-379).  They run one after the other:
    each reads the fields as the assignments before it left them. *)
Definition advanceE (s : State.t) (dt : R) : State.t :=
  let s := State.withE s
    (State.E0 s + 0.5 * dt * (- State.H1 s * State.E1 s - State.H2 s * State.E2 s - State.H3 s * State.E3 s) * Deg)
    (State.E1 s)
    (State.E2 s)
    (State.E3 s) in
  let s := State.withE s
    (State.E0 s)
    (State.E1 s + 0.5 * dt * (State.H1 s * State.E0 s + State.H2 s * State.E3 s - State.H3 s * State.E2 s) * Deg)
    (State.E2 s)
    (State.E3 s) in
  let s := State.withE s
    (State.E0 s)
    (State.E1 s)
    (State.E2 s + 0.5 * dt * (- State.H1 s * State.E3 s + State.H2 s * State.E0 s + State.H3 s * State.E1 s) * Deg)
    (State.E3 s) in
  State.withE s
    (State.E0 s)
    (State.E1 s)
    (State.E2 s)
    (State.E3 s + 0.5 * dt * (State.H1 s * State.E2 s - State.H2 s * State.E1 s + State.H3 s * State.E0 s) * Deg).

(** [calcJacobianState]: the 32x32 Jacobian of the propagation map.  The
    source also advances [s.E0 .. s.E3] here, one assignment after the
    other, each reading the fields as the previous assignments left them;
    the receiver is a pointer, so the caller sees the change. *)
Definition calcJacobianState (s : State.t) (t : R) : State.t * DenseMatrix :=
  let dt := t - State.T s in
  let jac := Eye 32 in
  let jac := Set_ jac 0 3 dt in
  let jac := Set_ jac 1 4 dt in
  let jac := Set_ jac 2 5 dt in
  let s := advanceE s dt in
  let jac := Set_ jac 6 7 (- 0.5 * dt * State.H1 s * Deg) in
  let jac := Set_ jac 6 8 (- 0.5 * dt * State.H2 s * Deg) in
  let jac := Set_ jac 6 9 (- 0.5 * dt * State.H3 s * Deg) in
  let jac := Set_ jac 7 6 (0.5 * dt * State.H1 s * Deg) in
  let jac := Set_ jac 7 8 (- 0.5 * dt * State.H3 s * Deg) in
  let jac := Set_ jac 7 9 (0.5 * dt * State.H2 s * Deg) in
  let jac := Set_ jac 8 6 (0.5 * dt * State.H2 s * Deg) in
  let jac := Set_ jac 8 7 (0.5 * dt * State.H3 s * Deg) in
  let jac := Set_ jac 8 9 (- 0.5 * dt * State.H1 s * Deg) in
  let jac := Set_ jac 9 6 (0.5 * dt * State.H3 s * Deg) in
  let jac := Set_ jac 9 7 (- 0.5 * dt * State.H2 s * Deg) in
  let jac := Set_ jac 9 8 (0.5 * dt * State.H1 s * Deg) in
  (s, jac).

(** [Predict] performs the prediction phase of the Kalman filter. *)
Definition Predict (s : State.t) (t : R) : State.t :=
  let '(s, f) := calcJacobianState s t in
  let dt := t - State.T s in
  let s := State.withU s (State.U1 s + dt * State.Z1 s / G)
                         (State.U2 s) (State.U3 s) in
  let s := State.withU s (State.U1 s) (State.U2 s + dt * State.Z2 s / G)
                         (State.U3 s) in
  let s := State.withU s (State.U1 s) (State.U2 s)
                         (State.U3 s + dt * State.Z3 s / G) in
  let s := advanceE s dt in
  let s := normalize s in
  let s := State.withT s t in
  State.withM s (Sum (Product f (Product (State.M s) (Transpose f)))
                     (Scaled (State.N s) dt)).

(** [PredictMeasurement]: the measurement the state predicts.  It
    normalizes the receiver first, so it returns the state as well. *)
Definition PredictMeasurement (s : State.t) : State.t * Measurement.t :=
  let s := normalize s in
  let m_W1 := State.e11 s * State.U1 s + State.e12 s * State.U2 s + State.e13 s * State.U3 s + State.V1 s in
  let m_W2 := State.e21 s * State.U1 s + State.e22 s * State.U2 s + State.e23 s * State.U3 s + State.V2 s in
  let m_W3 := State.e31 s * State.U1 s + State.e32 s * State.U2 s + State.e33 s * State.U3 s + State.V3 s in
  let m_U1 := State.U1 s in
  let m_U2 := State.U2 s in
  let m_U3 := State.U3 s in
  let a1 := - State.Z1 s + (State.H2 s * State.U3 s - State.H3 s * State.U2 s) * Deg / G - State.e31 s in
  let a2 := - State.Z2 s + (State.H3 s * State.U1 s - State.H1 s * State.U3 s) * Deg / G - State.e32 s in
  let a3 := - State.Z3 s + (State.H1 s * State.U2 s - State.H2 s * State.U1 s) * Deg / G - State.e33 s in
  let m_A1 := a1 * State.f11 s + a2 * State.f21 s + a3 * State.f31 s + State.C1 s in
  let m_A2 := a1 * State.f12 s + a2 * State.f22 s + a3 * State.f32 s + State.C2 s in
  let m_A3 := a1 * State.f13 s + a2 * State.f23 s + a3 * State.f33 s + State.C3 s in
  let m_B1 := State.H1 s * State.f11 s + State.H2 s * State.f21 s + State.H3 s * State.f31 s + State.D1 s in
  let m_B2 := State.H1 s * State.f12 s + State.H2 s * State.f22 s + State.H3 s * State.f32 s + State.D2 s in
  let m_B3 := State.H1 s * State.f13 s + State.H2 s * State.f23 s + State.H3 s * State.f33 s + State.D3 s in
  let m1 := State.N1 s * State.e11 s + State.N2 s * State.e21 s + State.N3 s * State.e31 s + State.L1 s in
  let m2 := State.N1 s * State.e12 s + State.N2 s * State.e22 s + State.N3 s * State.e32 s + State.L2 s in
  let m3 := State.N1 s * State.e13 s + State.N2 s * State.e23 s + State.N3 s * State.e33 s + State.L3 s in
  let m_M1 := State.f11 s * m1 + State.f21 s * m2 + State.f31 s * m3 + State.L1 s in
  let m_M2 := State.f12 s * m1 + State.f22 s * m2 + State.f32 s * m3 + State.L2 s in
  let m_M3 := State.f13 s * m1 + State.f23 s * m2 + State.f33 s * m3 + State.L3 s in
  (s, {| Measurement.UValid := true; Measurement.WValid := true;
         Measurement.SValid := true; Measurement.MValid := true;
         Measurement.U1 := m_U1; Measurement.U2 := m_U2;
         Measurement.U3 := m_U3;
         Measurement.W1 := m_W1; Measurement.W2 := m_W2;
         Measurement.W3 := m_W3;
         Measurement.A1 := m_A1; Measurement.A2 := m_A2;
         Measurement.A3 := m_A3;
         Measurement.B1 := m_B1; Measurement.B2 := m_B2;
         Measurement.B3 := m_B3;
         Measurement.M1 := m_M1; Measurement.M2 := m_M2;
         Measurement.M3 := m_M3;
         Measurement.T := State.T s; Measurement.M := Zeros 0 0 |}).


(** [calcJacobianMeasurement]: the 15x32 Jacobian of the measurement map.
    Rows 12-14 (magnetometer) are commented out in the source and stay
    zero. *)
Definition calcJacobianMeasurement (s : State.t) : DenseMatrix :=
  let jac := Zeros 15 32 in
  let jac := Set_ jac 0 0 (1) in
  let jac := Set_ jac 1 1 (1) in
  let jac := Set_ jac 2 2 (1) in
  let jac := Set_ jac 3 0 (State.e11 s) in
  let jac := Set_ jac 3 1 (State.e12 s) in
  let jac := Set_ jac 3 2 (State.e13 s) in
  let jac := Set_ jac 3 6 (2 * (State.E0 s * State.U1 s - State.E3 s * State.U2 s + State.E2 s * State.U3 s)) in
  let jac := Set_ jac 3 7 (2 * (State.E1 s * State.U1 s + State.E2 s * State.U2 s + State.E3 s * State.U3 s)) in
  let jac := Set_ jac 3 8 (2 * (- State.E2 s * State.U1 s + State.E1 s * State.U2 s + State.E0 s * State.U3 s)) in
  let jac := Set_ jac 3 9 (2 * (- State.E3 s * State.U1 s - State.E0 s * State.U2 s + State.E1 s * State.U3 s)) in
  let jac := Set_ jac 3 16 (1) in
  let jac := Set_ jac 4 0 (State.e21 s) in
  let jac := Set_ jac 4 1 (State.e22 s) in
  let jac := Set_ jac 4 2 (State.e23 s) in
  let jac := Set_ jac 4 6 (2 * (State.E3 s * State.U1 s + State.E0 s * State.U2 s - State.E1 s * State.U3 s)) in
  let jac := Set_ jac 4 7 (2 * (State.E2 s * State.U1 s - State.E1 s * State.U2 s - State.E0 s * State.U3 s)) in
  let jac := Set_ jac 4 8 (2 * (State.E1 s * State.U1 s + State.E2 s * State.U2 s + State.E3 s * State.U3 s)) in
  let jac := Set_ jac 4 9 (2 * (State.E0 s * State.U1 s - State.E3 s * State.U2 s + State.E2 s * State.U3 s)) in
  let jac := Set_ jac 4 17 (1) in
  let jac := Set_ jac 5 0 (State.e31 s) in
  let jac := Set_ jac 5 1 (State.e32 s) in
  let jac := Set_ jac 5 2 (State.e33 s) in
  let jac := Set_ jac 5 6 (2 * (- State.E2 s * State.U1 s + State.E1 s * State.U2 s + State.E0 s * State.U3 s)) in
  let jac := Set_ jac 5 7 (2 * (State.E3 s * State.U1 s + State.E0 s * State.U2 s - State.E1 s * State.U3 s)) in
  let jac := Set_ jac 5 8 (2 * (- State.E0 s * State.U1 s + State.E3 s * State.U2 s - State.E2 s * State.U3 s)) in
  let jac := Set_ jac 5 9 (2 * (State.E1 s * State.U1 s + State.E2 s * State.U2 s + State.E3 s * State.U3 s)) in
  let jac := Set_ jac 5 18 (1) in
  let a1 := - State.Z1 s + (State.H2 s * State.U3 s - State.H3 s * State.U2 s) * Deg / G - State.e31 s in
  let a2 := - State.Z2 s + (State.H3 s * State.U1 s - State.H1 s * State.U3 s) * Deg / G - State.e32 s in
  let a3 := - State.Z3 s + (State.H1 s * State.U2 s - State.H2 s * State.U1 s) * Deg / G - State.e33 s in
  let jac := Set_ jac 6 0 ((State.H3 s * State.f21 s - State.H2 s * State.f31 s) * Deg / G) in
  let jac := Set_ jac 6 1 ((State.H1 s * State.f31 s - State.H3 s * State.f11 s) * Deg / G) in
  let jac := Set_ jac 6 2 ((State.H2 s * State.f11 s - State.H1 s * State.f21 s) * Deg / G) in
  let jac := Set_ jac 6 3 (- State.f11 s) in
  let jac := Set_ jac 6 4 (- State.f21 s) in
  let jac := Set_ jac 6 5 (- State.f31 s) in
  let jac := Set_ jac 6 6 (- 2 * (- State.E2 s * State.f11 s + State.E1 s * State.f21 s + State.E0 s * State.f31 s)) in
  let jac := Set_ jac 6 7 (- 2 * (State.E3 s * State.f11 s + State.E0 s * State.f21 s - State.E1 s * State.f31 s)) in
  let jac := Set_ jac 6 8 (- 2 * (- State.E0 s * State.f11 s + State.E3 s * State.f21 s - State.E2 s * State.f31 s)) in
  let jac := Set_ jac 6 9 (- 2 * (State.E1 s * State.f11 s + State.E2 s * State.f21 s + State.E3 s * State.f31 s)) in
  let jac := Set_ jac 6 10 ((State.U2 s * State.f31 s - State.U3 s * State.f21 s) * Deg / G) in
  let jac := Set_ jac 6 11 ((State.U3 s * State.f11 s - State.U1 s * State.f31 s) * Deg / G) in
  let jac := Set_ jac 6 12 ((State.U1 s * State.f21 s - State.U2 s * State.f11 s) * Deg / G) in
  let jac := Set_ jac 6 19 (1) in
  let jac := Set_ jac 6 22 (2 * (State.F0 s * a1 + State.F3 s * a2 - State.F2 s * a3)) in
  let jac := Set_ jac 6 23 (2 * (State.F1 s * a1 + State.F2 s * a2 + State.F3 s * a3)) in
  let jac := Set_ jac 6 24 (2 * (- State.F2 s * a1 + State.F1 s * a2 - State.F0 s * a3)) in
  let jac := Set_ jac 6 25 (2 * (- State.F3 s * a1 + State.F0 s * a2 + State.F1 s * a3)) in
  let jac := Set_ jac 7 0 ((State.H3 s * State.f22 s - State.H2 s * State.f32 s) * Deg / G) in
  let jac := Set_ jac 7 1 ((State.H1 s * State.f32 s - State.H3 s * State.f12 s) * Deg / G) in
  let jac := Set_ jac 7 2 ((State.H2 s * State.f12 s - State.H1 s * State.f22 s) * Deg / G) in
  let jac := Set_ jac 7 3 (- State.f12 s) in
  let jac := Set_ jac 7 4 (- State.f22 s) in
  let jac := Set_ jac 7 5 (- State.f32 s) in
  let jac := Set_ jac 7 6 (- 2 * (- State.E2 s * State.f12 s + State.E1 s * State.f22 s + State.E0 s * State.f32 s)) in
  let jac := Set_ jac 7 7 (- 2 * (State.E3 s * State.f12 s + State.E0 s * State.f22 s - State.E1 s * State.f32 s)) in
  let jac := Set_ jac 7 8 (- 2 * (- State.E0 s * State.f12 s + State.E3 s * State.f22 s - State.E2 s * State.f32 s)) in
  let jac := Set_ jac 7 9 (- 2 * (State.E1 s * State.f12 s + State.E2 s * State.f22 s + State.E3 s * State.f32 s)) in
  let jac := Set_ jac 7 10 ((State.U2 s * State.f32 s - State.U3 s * State.f22 s) * Deg / G) in
  let jac := Set_ jac 7 11 ((State.U3 s * State.f12 s - State.U1 s * State.f32 s) * Deg / G) in
  let jac := Set_ jac 7 12 ((State.U1 s * State.f22 s - State.U2 s * State.f12 s) * Deg / G) in
  let jac := Set_ jac 7 20 (1) in
  let jac := Set_ jac 7 22 (2 * (- State.F3 s * a1 + State.F0 s * a2 + State.F1 s * a3)) in
  let jac := Set_ jac 7 23 (2 * (State.F2 s * a1 - State.F1 s * a2 + State.F0 s * a3)) in
  let jac := Set_ jac 7 24 (2 * (State.F1 s * a1 + State.F2 s * a2 + State.F3 s * a3)) in
  let jac := Set_ jac 7 25 (2 * (- State.F0 s * a1 - State.F3 s * a2 + State.F2 s * a3)) in
  let jac := Set_ jac 8 0 ((State.H3 s * State.f23 s - State.H2 s * State.f33 s) * Deg / G) in
  let jac := Set_ jac 8 1 ((State.H1 s * State.f33 s - State.H3 s * State.f13 s) * Deg / G) in
  let jac := Set_ jac 8 2 ((State.H2 s * State.f13 s - State.H1 s * State.f23 s) * Deg / G) in
  let jac := Set_ jac 8 3 (- State.f13 s) in
  let jac := Set_ jac 8 4 (- State.f23 s) in
  let jac := Set_ jac 8 5 (- State.f33 s) in
  let jac := Set_ jac 8 6 (- 2 * (- State.E2 s * State.f13 s + State.E1 s * State.f23 s + State.E0 s * State.f33 s)) in
  let jac := Set_ jac 8 7 (- 2 * (State.E3 s * State.f13 s + State.E0 s * State.f23 s - State.E1 s * State.f33 s)) in
  let jac := Set_ jac 8 8 (- 2 * (- State.E0 s * State.f13 s + State.E3 s * State.f23 s - State.E2 s * State.f33 s)) in
  let jac := Set_ jac 8 9 (- 2 * (State.E1 s * State.f13 s + State.E2 s * State.f23 s + State.E3 s * State.f33 s)) in
  let jac := Set_ jac 8 10 ((State.U2 s * State.f33 s - State.U3 s * State.f23 s) * Deg / G) in
  let jac := Set_ jac 8 11 ((State.U3 s * State.f13 s - State.U1 s * State.f33 s) * Deg / G) in
  let jac := Set_ jac 8 12 ((State.U1 s * State.f23 s - State.U2 s * State.f13 s) * Deg / G) in
  let jac := Set_ jac 8 21 (1) in
  let jac := Set_ jac 8 22 (2 * (State.F2 s * a1 - State.F1 s * a2 + State.F0 s * a3)) in
  let jac := Set_ jac 8 23 (2 * (State.F3 s * a1 - State.F0 s * a2 - State.F1 s * a3)) in
  let jac := Set_ jac 8 24 (2 * (State.F0 s * a1 + State.F3 s * a2 - State.F2 s * a3)) in
  let jac := Set_ jac 8 25 (2 * (State.F1 s * a1 + State.F2 s * a2 + State.F3 s * a3)) in
  let jac := Set_ jac 9 10 (State.f11 s) in
  let jac := Set_ jac 9 11 (State.f21 s) in
  let jac := Set_ jac 9 12 (State.f31 s) in
  let jac := Set_ jac 9 26 (1) in
  let jac := Set_ jac 10 10 (State.f12 s) in
  let jac := Set_ jac 10 11 (State.f22 s) in
  let jac := Set_ jac 10 12 (State.f32 s) in
  let jac := Set_ jac 10 27 (1) in
  let jac := Set_ jac 11 10 (State.f13 s) in
  let jac := Set_ jac 11 11 (State.f23 s) in
  let jac := Set_ jac 11 12 (State.f33 s) in
  let jac := Set_ jac 11 28 (1) in
  jac.

(** The innovation [y] of [Update] (source lines 201-216). *)
Definition innovation (m z : Measurement.t) : DenseMatrix :=
  let y := Zeros 15 1 in
  let y := Set_ y 0 0 (Measurement.U1 m - Measurement.U1 z) in
  let y := Set_ y 1 0 (Measurement.U2 m - Measurement.U2 z) in
  let y := Set_ y 2 0 (Measurement.U3 m - Measurement.U3 z) in
  let y := Set_ y 3 0 (Measurement.W1 m - Measurement.W1 z) in
  let y := Set_ y 4 0 (Measurement.W2 m - Measurement.W2 z) in
  let y := Set_ y 5 0 (Measurement.W3 m - Measurement.W3 z) in
  let y := Set_ y 6 0 (Measurement.A1 m - Measurement.A1 z) in
  let y := Set_ y 7 0 (Measurement.A2 m - Measurement.A2 z) in
  let y := Set_ y 8 0 (Measurement.A3 m - Measurement.A3 z) in
  let y := Set_ y 9 0 (Measurement.B1 m - Measurement.B1 z) in
  let y := Set_ y 10 0 (Measurement.B2 m - Measurement.B2 z) in
  let y := Set_ y 11 0 (Measurement.B3 m - Measurement.B3 z) in
  let y := Set_ y 12 0 (Measurement.M1 m - Measurement.M1 z) in
  let y := Set_ y 13 0 (Measurement.M2 m - Measurement.M2 z) in
  let y := Set_ y 14 0 (Measurement.M3 m - Measurement.M3 z) in
  y.

(** The validity gates of [Update] (source lines 220-278): from the
    innovation [y] and the measurement, the gated innovation and the
    contents of [m.M] afterwards. *)
Definition gate (m : Measurement.t) (y : DenseMatrix)
  : DenseMatrix * DenseMatrix :=
  let mM := Measurement.M m in
  let '(y, mM) :=
    if Measurement.UValid m then
      let mM := Set_ mM 0 0 2 in
      (y, mM)
    else
      let y := Set_ y 0 0 0 in
      let mM := Set_ mM 0 0 Big in
      (y, mM) in
  let mM := Set_ mM 1 1 25 in
  let mM := Set_ mM 2 2 25 in
  let '(y, mM) :=
    if Measurement.WValid m then
      let mM := Set_ mM 3 3 0.2 in
      let mM := Set_ mM 4 4 0.2 in
      let mM := Set_ mM 5 5 0.2 in
      (y, mM)
    else
      let y := Set_ y 3 0 0 in
      let y := Set_ y 4 0 0 in
      let y := Set_ y 5 0 0 in
      let mM := Set_ mM 3 3 Big in
      let mM := Set_ mM 4 4 Big in
      let mM := Set_ mM 5 5 Big in
      (y, mM) in
  let '(y, mM) :=
    if Measurement.SValid m then
      let mM := Set_ mM 6 6 0.2 in
      let mM := Set_ mM 7 7 0.2 in
      let mM := Set_ mM 8 8 0.2 in
      let mM := Set_ mM 9 9 1 in
      let mM := Set_ mM 10 10 1 in
      let mM := Set_ mM 11 11 1 in
      (y, mM)
    else
      let y := Set_ y 6 0 0 in
      let y := Set_ y 7 0 0 in
      let y := Set_ y 8 0 0 in
      let y := Set_ y 9 0 0 in
      let y := Set_ y 10 0 0 in
      let y := Set_ y 11 0 0 in
      let mM := Set_ mM 6 6 Big in
      let mM := Set_ mM 7 7 Big in
      let mM := Set_ mM 8 8 Big in
      let mM := Set_ mM 9 9 Big in
      let mM := Set_ mM 10 10 Big in
      let mM := Set_ mM 11 11 Big in
      (y, mM) in
  let '(y, mM) :=
    if Measurement.MValid m then
      let mM := Set_ mM 12 12 5 in
      let mM := Set_ mM 13 13 5 in
      let mM := Set_ mM 14 14 5 in
      (y, mM)
    else
      let y := Set_ y 12 0 0 in
      let y := Set_ y 13 0 0 in
      let y := Set_ y 14 0 0 in
      let mM := Set_ mM 12 12 Big in
      let mM := Set_ mM 13 13 Big in
      let mM := Set_ mM 14 14 Big in
      (y, mM) in
  (y, mM).

(** The state correction of [Update] (source lines 288-321): add the
    entries of [su] to the 32 state scalars in order, take the
    measurement's timestamp and contract the covariance. *)
Definition correct (s : State.t) (m : Measurement.t)
           (kk h su : DenseMatrix) : State.t :=
      {| State.U1 := State.U1 s + Get su 0 0;
         State.U2 := State.U2 s + Get su 1 0;
         State.U3 := State.U3 s + Get su 2 0;
         State.Z1 := State.Z1 s + Get su 3 0;
         State.Z2 := State.Z2 s + Get su 4 0;
         State.Z3 := State.Z3 s + Get su 5 0;
         State.E0 := State.E0 s + Get su 6 0;
         State.E1 := State.E1 s + Get su 7 0;
         State.E2 := State.E2 s + Get su 8 0;
         State.E3 := State.E3 s + Get su 9 0;
         State.H1 := State.H1 s + Get su 10 0;
         State.H2 := State.H2 s + Get su 11 0;
         State.H3 := State.H3 s + Get su 12 0;
         State.N1 := State.N1 s + Get su 13 0;
         State.N2 := State.N2 s + Get su 14 0;
         State.N3 := State.N3 s + Get su 15 0;
         State.V1 := State.V1 s + Get su 16 0;
         State.V2 := State.V2 s + Get su 17 0;
         State.V3 := State.V3 s + Get su 18 0;
         State.C1 := State.C1 s + Get su 19 0;
         State.C2 := State.C2 s + Get su 20 0;
         State.C3 := State.C3 s + Get su 21 0;
         State.F0 := State.F0 s + Get su 22 0;
         State.F1 := State.F1 s + Get su 23 0;
         State.F2 := State.F2 s + Get su 24 0;
         State.F3 := State.F3 s + Get su 25 0;
         State.D1 := State.D1 s + Get su 26 0;
         State.D2 := State.D2 s + Get su 27 0;
         State.D3 := State.D3 s + Get su 28 0;
         State.L1 := State.L1 s + Get su 29 0;
         State.L2 := State.L2 s + Get su 30 0;
         State.L3 := State.L3 s + Get su 31 0; State.T := Measurement.T m;
         State.M := Product (Difference (Eye 32) (Product kk h)) (State.M s);
         State.N := State.N s; State.e11 := State.e11 s;
         State.e12 := State.e12 s; State.e13 := State.e13 s;
         State.e21 := State.e21 s; State.e22 := State.e22 s;
         State.e23 := State.e23 s; State.e31 := State.e31 s;
         State.e32 := State.e32 s; State.e33 := State.e33 s;
         State.f11 := State.f11 s; State.f12 := State.f12 s;
         State.f13 := State.f13 s; State.f21 := State.f21 s;
         State.f22 := State.f22 s; State.f23 := State.f23 s;
         State.f31 := State.f31 s; State.f32 := State.f32 s;
         State.f33 := State.f33 s |}.

(** What one call of [Update] leaves behind: the state, the measurement
    (its noise matrix is written through the pointer) and the lines
    written to the log. *)
Record updated : Type := mkUpdated {
  state : State.t;
  meas : Measurement.t;
  logged : list string
}.

Section Filter.

(** [ss.Inverse()] of the matrix package: [None] is a non-nil error. *)
Variable Inverse : DenseMatrix -> option DenseMatrix.

(** The state as [Update] has it just before the closing
    [s.normalize()] (source line 322), when the inversion succeeds;
    [None] when [Update] returns early. *)
Definition beforeNormalize (s : State.t) (m : Measurement.t)
  : option State.t :=
  let '(s, z) := PredictMeasurement s in
  let y := innovation m z in
  let h := calcJacobianMeasurement s in
  let '(y, mM) := gate m y in
  let m := Measurement.withM m mM in
  let ss := Sum (Product h (Product (State.M s) (Transpose h)))
                (Measurement.M m) in
  match Inverse ss with
  | None => None
  | Some m2 =>
      let kk := Product (State.M s) (Product (Transpose h) m2) in
      let su := Product kk y in
      Some (correct s m kk h su)
  end.

(** [Update] applies the Kalman filter corrections given the
    measurements. *)
Definition Update (s : State.t) (m : Measurement.t) : updated :=
  let '(s, z) := PredictMeasurement s in
  let y := innovation m z in
  let h := calcJacobianMeasurement s in
  let '(y, mM) := gate m y in
  let m := Measurement.withM m mM in
  let ss := Sum (Product h (Product (State.M s) (Transpose h)))
                (Measurement.M m) in
  match Inverse ss with
  | None =>
      mkUpdated s m ["AHRS: Can't invert Kalman gain matrix"%string]
  | Some m2 =>
      let kk := Product (State.M s) (Product (Transpose h) m2) in
      let su := Product kk y in
      let s := correct s m kk h su in
      let s := normalize s in
      mkUpdated s m []
  end.

End Filter.

End Ahrs.

(** ** The functions of Go's [math] and [sort] that the simulator calls

    Modelled from the Go standard library's documentation, over the reals. *)
Module GoMath.

(** [math.Atan2(y, x)]: the arc tangent of y/x, using the signs of the two
    to determine the quadrant of the return value.  With a signed zero
    [y = -0] and [x < 0] Go returns [-Pi]; the reals have one zero, which
    stands for [+0]. *)
Definition Atan2 (y x : R) : R :=
  if Req_dec_T y 0 then
    if Rle_dec 0 x then 0 else PI
  else if Req_dec_T x 0 then
    if Rlt_dec 0 y then PI / 2 else - (PI / 2)
  else
    let q := atan (y / x) in
    if Rlt_dec x 0 then
      if Rle_dec q 0 then q + PI else q - PI
    else q.

(** [math.Asin(x)], for [-1 <= x <= 1] (Go returns NaN outside). *)
Definition Asin (x : R) : R := asin x.

(** [sort.Search(n, f)]: binary search for the smallest index [i] in
    [0, n) at which [f i] is true, or [n] if there is none, assuming that
    [f i] implies [f (i+1)].  The loop [for i < j] halves [j - i] at every
    turn; [fuel] bounds the number of turns, and [n] turns are enough
    ([Search_least] below). *)
Fixpoint searchLoop (fuel i j : nat) (f : nat -> bool) : nat :=
  match fuel with
  | O => i
  | S fuel' =>
      if Nat.ltb i j then
        let h := Nat.div (i + j) 2 in
        if negb (f h) then searchLoop fuel' (h + 1) j f
        else searchLoop fuel' i h f
      else i
  end.

Definition Search (n : nat) (f : nat -> bool) : nat := searchLoop n 0 n f.

(** [sort.SearchFloat64s(a, x)]: [Search(len(a), a[i] >= x)]. *)
Definition SearchFloat64s (a : list R) (x : R) : nat :=
  Search (List.length a)
         (fun i => if Rle_dec x (nth i a 0) then true else false).

End GoMath.

(** ** The simulator ([sim/ahrs_sim.go]) *)
Module Sim.
Import GoMath.

Definition pi : R := PI.

(** A Go [error]: [None] is nil. *)
Definition error : Type := option string.

(** What a call of the simulator does: it returns a value, or it panics
    (index out of range), or it returns floats that are NaN or infinite,
    which the reals do not represent ([NotFinite]). *)
Inductive run (A : Type) : Type :=
| Returns (a : A)
| Panics
| NotFinite.
Arguments Returns {A} a.
Arguments Panics {A}.
Arguments NotFinite {A}.

Definition bind {A B : Type} (c : run A) (k : A -> run B) : run B :=
  match c with
  | Returns a => k a
  | Panics => Panics
  | NotFinite => NotFinite
  end.

(** A float quotient whose divisor may be zero: Go yields NaN or an
    infinity there, and every value computed from it is NaN or infinite. *)
Definition quotient (x y : R) : run R :=
  if Req_dec_T y 0 then NotFinite else Returns (x / y).

Notation "x <- c ;; k" := (bind c (fun x => k))
  (at level 61, c at next level, right associativity).

(** [a[i]] on a slice. *)
Definition index (a : list R) (i : Z) : run R :=
  if (i <? 0)%Z then Panics
  else match nth_error a (Z.to_nat i) with
       | Some v => Returns v
       | None => Panics
       end.

Definition len (a : list R) : Z := Z.of_nat (List.length a).

(** [uint32(x)] of a float: the fraction is discarded.  Go leaves the
    result open when the value does not fit; it is reduced modulo 2^32
    here, and nothing below depends on that. *)
Definition toUint32 (x : R) : Z :=
  ((if Rle_dec 0 x then Zfloor x else - Zfloor (- x)) mod 2 ^ 32)%Z.

(** Situation defines a scenario by piecewise-linear interpolation. *)
Record Situation : Type := mkSituation {
  t : list R;
  u1 : list R; u2 : list R; u3 : list R;
  phi : list R; theta : list R; psi : list R;
  phi0 : list R; theta0 : list R; psi0 : list R;
  v1 : list R; v2 : list R; v3 : list R;
  m1 : list R; m2 : list R; m3 : list R
}.

(** The [ahrs.State] the simulator is written against.  It is the struct
    of an earlier version of package ahrs, which is not under src/; its
    fields are the ones the simulator's composite literals name. *)
Module State.
Record t : Type := mk {
  U1 : R; U2 : R; U3 : R;
  E0 : R; E1 : R; E2 : R; E3 : R;
  F0 : R; F1 : R; F2 : R; F3 : R;
  V1 : R; V2 : R; V3 : R;
  M1 : R; M2 : R; M3 : R;
  T : Z;              (* uint32, milliseconds *)
  M : DenseMatrix
}.
(** [ahrs.State{}] *)
Definition zero : t :=
  mk 0 0 0  0 0 0 0  0 0 0 0  0 0 0  0 0 0  0%Z (Zeros 0 0).
End State.

(** The [ahrs.Measurement] the simulator is written against, likewise. *)
Module Measurement.
Record t : Type := mk {
  W1 : R; W2 : R; W3 : R;
  M1 : R; M2 : R; M3 : R;
  U1 : R; U2 : R; U3 : R;
  T : Z
}.
(** [ahrs.Measurement{}] *)
Definition zero : t := mk 0 0 0  0 0 0  0 0 0  0%Z.
End Measurement.

(** The [ahrs.Control] the simulator is written against, likewise: gyro
    rates H and accelerations A in the sensor frame, and a time stamp. *)
Module Control.
Record t : Type := mk {
  H1 : R; H2 : R; H3 : R;
  A1 : R; A2 : R; A3 : R;
  T : Z
}.
(** [ahrs.Control{}] *)
Definition zero : t := mk 0 0 0  0 0 0  0%Z.
End Control.

(** [ToQuaternion] calculates the 0,1,2,3 components of the rotation
    quaternion corresponding to the Tait-Bryan angles phi, theta, psi. *)
Definition ToQuaternion (phi theta psi : R) : R * R * R * R :=
  let phi := - phi in
  let psi := psi - pi / 2 in
  let cphi := cos (phi / 2) in
  let sphi := sin (phi / 2) in
  let ctheta := cos (theta / 2) in
  let stheta := sin (theta / 2) in
  let cpsi := cos (psi / 2) in
  let spsi := sin (psi / 2) in
  let q0 := cphi * ctheta * cpsi - sphi * stheta * spsi in
  let q1 := sphi * ctheta * cpsi + cphi * stheta * spsi in
  let q2 := cphi * stheta * cpsi - sphi * ctheta * spsi in
  let q3 := cphi * ctheta * spsi + sphi * stheta * cpsi in
  (q0, q1, q2, q3).

(** [FromQuaternion] calculates the Tait-Bryan angles phi, theta, psi
    corresponding to the quaternion. *)
Definition FromQuaternion (q0 q1 q2 q3 : R) : R * R * R :=
  let phi := Atan2 (-2 * (q0 * q1 - q2 * q3))
                   (q0 * q0 - q1 * q1 - q2 * q2 + q3 * q3) in
  let theta := Asin (2 * (q0 * q2 + q3 * q1)
                     / sqrt (q0 * q0 + q1 * q1 + q2 * q2 + q3 * q3)) in
  let psi := pi / 2 + Atan2 (2 * (q0 * q3 - q1 * q2))
                            (q0 * q0 + q1 * q1 - q2 * q2 - q3 * q3) in
  let psi := if Rlt_dec psi (-1e-4) then psi + 2 * pi else psi in
  (phi, theta, psi).

Definition outside : string := "requested time is outside of scenario".

(** The guard [t < s.t[0] || t > s.t[len(s.t)-1]]. *)
Definition outOfRange (s : Situation) (t' : R) : run bool :=
  first <- index (t s) 0 ;;
  if Rlt_dec t' first then Returns true
  else
    last <- index (t s) (len (t s) - 1) ;;
    Returns (if Rlt_dec last t' then true else false).

(** [f*a[ix] + (1-f)*a[ix+1]], the expression the source writes out for
    every interpolated quantity. *)
Definition lerp (f : R) (a : list R) (ix : Z) : run R :=
  lo <- index a ix ;;
  hi <- index a (ix + 1) ;;
  Returns (f * lo + (1 - f) * hi).

(** [interpolate] an [ahrs.State] from a Situation definition at a given
    time.  The fraction [f] is the one quotient here whose divisor can be
    zero (two keyframes at the same time); [ee] and [ff] are lengths of
    quaternions of [ToQuaternion], which are 1. *)
Definition interpolate (s : Situation) (t' : R) : run (State.t * error) :=
  out <- outOfRange s t' ;;
  if out : bool then Returns (State.zero, Some outside)
  else
    first <- index (t s) 0 ;;
    let ix := 0%Z in
    let ix := if Rlt_dec first t'
              then (Z.of_nat (SearchFloat64s (t s) t') - 1)%Z
              else ix in
    thi <- index (t s) (ix + 1) ;;
    tlo <- index (t s) ix ;;
    f <- quotient (thi - t') (thi - tlo) ;;
    aphi <- lerp f (phi s) ix ;;
    atheta <- lerp f (theta s) ix ;;
    apsi <- lerp f (psi s) ix ;;
    let '(e0, e1, e2, e3) := ToQuaternion aphi atheta apsi in
    let ee := sqrt (e0 * e0 + e1 * e1 + e2 * e2 + e3 * e3) in
    aphi0 <- lerp f (phi0 s) ix ;;
    atheta0 <- lerp f (theta0 s) ix ;;
    apsi0 <- lerp f (psi0 s) ix ;;
    let '(f0, f1, f2, f3) := ToQuaternion aphi0 atheta0 apsi0 in
    let ff := sqrt (f0 * f0 + f1 * f1 + f2 * f2 + f3 * f3) in
    xU1 <- lerp f (u1 s) ix ;;
    xU2 <- lerp f (u2 s) ix ;;
    xU3 <- lerp f (u3 s) ix ;;
    xV1 <- lerp f (v1 s) ix ;;
    xV2 <- lerp f (v2 s) ix ;;
    xV3 <- lerp f (v3 s) ix ;;
    xM1 <- lerp f (m1 s) ix ;;
    xM2 <- lerp f (m2 s) ix ;;
    xM3 <- lerp f (m3 s) ix ;;
    Returns
      ({| State.U1 := xU1; State.U2 := xU2; State.U3 := xU3;
          State.E0 := e0 / ee; State.E1 := e1 / ee;
          State.E2 := e2 / ee; State.E3 := e3 / ee;
          State.F0 := f0 / ff; State.F1 := f1 / ff;
          State.F2 := f2 / ff; State.F3 := f3 / ff;
          State.V1 := xV1; State.V2 := xV2; State.V3 := xV3;
          State.M1 := xM1; State.M2 := xM2; State.M3 := xM3;
          State.T := toUint32 (t' * 1000 + 0.5);
          State.M := Zeros 0 0 |}, None).

(** [derivative]: the time derivative of an [ahrs.State] from a Situation
    definition at a given time.  The errors of the two inner calls are
    discarded ([s0, _ := ...]). *)
Definition derivative (s : Situation) (t' : R) : run (State.t * error) :=
  out <- outOfRange s t' ;;
  if out : bool then Returns (State.zero, Some outside)
  else
    let ddt := 0.001 in
    let t0 := t' in
    let t1 := t' + ddt in
    last <- index (t s) (len (t s) - 1) ;;
    tt <- (if Rlt_dec last t1
           then last' <- index (t s) (len (t s) - 1) ;;
                Returns (last' - ddt, last')
           else Returns (t0, t1)) ;;
    let '(t0, t1) := tt in
    r0 <- interpolate s t0 ;;
    r1 <- interpolate s t1 ;;
    let s0 := fst r0 in
    let s1 := fst r1 in
    Returns
      ({| State.U1 := (State.U1 s1 - State.U1 s0) / ddt;
          State.U2 := (State.U2 s1 - State.U2 s0) / ddt;
          State.U3 := (State.U3 s1 - State.U3 s0) / ddt;
          State.E0 := (State.E0 s1 - State.E0 s0) / ddt;
          State.E1 := (State.E1 s1 - State.E1 s0) / ddt;
          State.E2 := (State.E2 s1 - State.E2 s0) / ddt;
          State.E3 := (State.E3 s1 - State.E3 s0) / ddt;
          State.F0 := (State.F0 s1 - State.F0 s0) / ddt;
          State.F1 := (State.F1 s1 - State.F1 s0) / ddt;
          State.F2 := (State.F2 s1 - State.F2 s0) / ddt;
          State.F3 := (State.F3 s1 - State.F3 s0) / ddt;
          State.V1 := (State.V1 s1 - State.V1 s0) / ddt;
          State.V2 := (State.V2 s1 - State.V2 s0) / ddt;
          State.V3 := (State.V3 s1 - State.V3 s0) / ddt;
          State.M1 := (State.M1 s1 - State.M1 s0) / ddt;
          State.M2 := (State.M2 s1 - State.M2 s0) / ddt;
          State.M3 := (State.M3 s1 - State.M3 s0) / ddt;
          State.T := toUint32 (t' * 1000 + 0.5);
          State.M := Zeros 0 0 |}, None).


(** [measurement]: the [ahrs.Measurement] variables from a Situation
    definition at a given time. *)
Definition measurement (s : Situation) (t' : R)
  : run (Measurement.t * error) :=
  out <- outOfRange s t' ;;
  if out : bool then Returns (Measurement.zero, Some outside)
  else
    r <- interpolate s t' ;;
    let x := fst r in
    let E0 := State.E0 x in let E1 := State.E1 x in
    let E2 := State.E2 x in let E3 := State.E3 x in
    Returns
      ({| Measurement.W1 := State.V1 x
            + State.U1 x * 2 * (E0 * E0 + E1 * E1 - 0.5)
            + State.U2 x * 2 * (E0 * E3 + E1 * E2)
            + State.U3 x * 2 * (- E0 * E2 + E1 * E3);
          Measurement.W2 := State.V2 x
            + State.U1 x * 2 * (- E0 * E3 + E2 * E1)
            + State.U2 x * 2 * (E0 * E0 + E2 * E2 - 0.5)
            + State.U3 x * 2 * (E0 * E1 + E2 * E3);
          Measurement.W3 := State.V3 x
            + State.U1 x * 2 * (E0 * E2 + E3 * E1)
            + State.U2 x * 2 * (- E0 * E1 + E3 * E2)
            + State.U3 x * 2 * (E0 * E0 + E3 * E3 - 0.5);
          Measurement.M1 :=
              State.M1 x * 2 * (E0 * E0 + E1 * E1 - 0.5)
            + State.M2 x * 2 * (- E0 * E3 + E1 * E2)
            + State.M3 x * 2 * (E0 * E2 + E1 * E3);
          Measurement.M2 :=
              State.M1 x * 2 * (E0 * E3 + E2 * E1)
            + State.M2 x * 2 * (E0 * E0 + E2 * E2 - 0.5)
            + State.M3 x * 2 * (- E0 * E1 + E2 * E3);
          Measurement.M3 :=
              State.M1 x * 2 * (- E0 * E2 + E3 * E1)
            + State.M2 x * 2 * (E0 * E1 + E3 * E2)
            + State.M3 x * 2 * (E0 * E0 + E3 * E3 - 0.5);
          Measurement.U1 := State.U1 x;
          Measurement.U2 := State.U2 x;
          Measurement.U3 := State.U3 x;
          Measurement.T := toUint32 (t' * 1000 + 0.5) |}, None).

(** Data to define a piecewise-linear turn, with entry and exit. *)
Definition airspeed : R := 120.0.
Definition bank : R := atan ((2 * pi * airspeed) / (Ahrs.G * 120)).
Definition mush : R := - airspeed * sin (pi / 90) / cos bank.
Definition sitTurnDef : Situation :=
  {| t := [0; 10; 15; 255; 260; 270];
     u1 := [airspeed; airspeed; airspeed; airspeed; airspeed; airspeed];
     u2 := [0; 0; 0; 0; 0; 0];
     u3 := [0; 0; mush; mush; 0; 0];
     phi := [0; 0; bank; bank; 0; 0];
     theta := [0; 0; pi / 90; pi / 90; 0; 0];
     psi := [0; 0; 0; 4 * pi; 4 * pi; 4 * pi];
     phi0 := [0; 0; 0; 0; 0; 0];
     theta0 := [0; 0; 0; 0; 0; 0];
     psi0 := [pi / 2; pi / 2; pi / 2; pi / 2; pi / 2; pi / 2];
     v1 := [3; 3; 3; 3; 3; 3];
     v2 := [4; 4; 4; 4; 4; 4];
     v3 := [0; 0; 0; 0; 0; 0];
     m1 := [0; 0; 0; 0; 0; 0];
     m2 := [0; 0; 0; 0; 0; 0];
     m3 := [0; 0; 0; 0; 0; 0] |}.

End Sim.

(** ** The sensor driver ([mpu9250/mpu9250.go]): [Read] *)
Module Mpu.

(** A Go [error]: [None] is nil. *)
Definition error : Type := option string.

(** The struct [MPU9250], without the bus handle and the mutex.  [Read]
    holds the mutex from its first statement to its last, so it is one
    atomic step on the fields below.  [n] and [nm] are [float64] counters;
    the accumulators are [int32]. *)
Record MPU9250 : Type := mkMPU {
  scaleGyro : R; scaleAccel : R;
  sampleRate : Z;
  n : R; nm : R;
  g1 : Z; g2 : Z; g3 : Z;
  a1 : Z; a2 : Z; a3 : Z;
  m1 : Z; m2 : Z; m3 : Z;
  a01 : Z; a02 : Z; a03 : Z;
  g01 : Z; g02 : Z; g03 : Z;
  mcal1 : Z; mcal2 : Z; mcal3 : Z
}.

(** The named results of [Read]. *)
Record reading : Type := mkReading {
  r_t : Z;
  r_g1 : R; r_g2 : R; r_g3 : R;
  r_a1 : R; r_a2 : R; r_a3 : R;
  r_m1 : R; r_m2 : R; r_m3 : R;
  gaError : error;
  magError : error
}.

(** A line of the log: [log.Printf("MPU error: %2.f values accumulated\n",
    m.n)] with its argument. *)
Inductive logline : Type :=
| MPUErrorAccumulated (count : R).

Definition gtb (x y : R) : bool := if Rlt_dec y x then true else false.

Section Read.

(** The package constant [USEMAG]; its declaration is not under src/. *)
Variable USEMAG : bool.

(** [time.Now().UnixNano()] at the call. *)
Variable now : Z.

(** [Read]: the device after the call, the results and the log. *)
Definition Read (m : MPU9250) : MPU9250 * reading * list logline :=
  let '(rg1, rg2, rg3, ra1, ra2, ra3, gaErr, lg) :=
    if gtb (n m) 0 then
      (IZR (g1 m) / n m * scaleGyro m,
       IZR (g2 m) / n m * scaleGyro m,
       IZR (g3 m) / n m * scaleGyro m,
       IZR (a1 m) / n m * scaleAccel m,
       IZR (a2 m) / n m * scaleAccel m,
       IZR (a3 m) / n m * scaleAccel m,
       @None string, @nil logline)
    else
      (0, 0, 0, 0, 0, 0,
       Some "MPU9250 Read: error reading gyro/accel"%string,
       [MPUErrorAccumulated (n m)]) in
  let '(rm1, rm2, rm3, magErr) :=
    if gtb (nm m) 0 then
      (IZR (m1 m) / nm m, IZR (m2 m) / nm m, IZR (m3 m) / nm m,
       @None string)
    else if USEMAG then
      (0, 0, 0, Some "MPU9250 Read: error reading magnetometer"%string)
    else
      (0, 0, 0, @None string) in
  let t := now in
  let m' :=
    {| scaleGyro := scaleGyro m; scaleAccel := scaleAccel m;
       sampleRate := sampleRate m;
       n := 0; nm := 0;
       g1 := 0; g2 := 0; g3 := 0;
       a1 := 0; a2 := 0; a3 := 0;
       m1 := 0; m2 := 0; m3 := 0;
       a01 := a01 m; a02 := a02 m; a03 := a03 m;
       g01 := g01 m; g02 := g02 m; g03 := g03 m;
       mcal1 := mcal1 m; mcal2 := mcal2 m; mcal3 := mcal3 m |} in
  (m',
   {| r_t := t;
      r_g1 := rg1; r_g2 := rg2; r_g3 := rg3;
      r_a1 := ra1; r_a2 := ra2; r_a3 := ra3;
      r_m1 := rm1; r_m2 := rm2; r_m3 := rm3;
      gaError := gaErr; magError := magErr |},
   lg).

End Read.

(** *** The sampling loop and the gyro calibration

    The bus ([embd.I2CBus]) is the environment of the driver: the replies
    it gives are arguments of the functions below, and what is asked of it
    (device address, register, value written) does not enter the model, so
    a theorem holds for whatever the chip answers.  [time.Sleep], the
    pacing of the tickers and the text of log lines are not modelled.  The
    mutex [m.m] is a flag of the handle; a function is one atomic step, so
    a [Lock] on a held mutex finds it held by a call that returned without
    unlocking, and waits for ever ([Blocks]). *)

(** Go's fixed-width integers: conversion and arithmetic wrap around. *)
Definition int16 (z : Z) : Z := ((z + 32768) mod 65536 - 32768)%Z.
Definition int32 (z : Z) : Z :=
  ((z + 2147483648) mod 4294967296 - 2147483648)%Z.
Definition int64 (z : Z) : Z :=
  ((z + 9223372036854775808) mod 18446744073709551616
   - 9223372036854775808)%Z.
Definition uint8 (z : Z) : Z := (z mod 256)%Z.

(** Go's conversion of a finite float to an integer: the fraction is
    discarded. *)
Definition truncate (x : R) : Z :=
  if Rle_dec 0 x then Zfloor x else (- Zfloor (- x))%Z.

(** What a call of the driver does: it returns, it panics, it waits for
    ever on the mutex, or it does what the Go specification leaves to the
    implementation (the conversion of an infinite float to an integer). *)
Inductive outcome (A : Type) : Type :=
| Returns (a : A)
| Panics
| Blocks
| ImplementationDefined.
Arguments Returns {A} a.
Arguments Panics {A}.
Arguments Blocks {A}.
Arguments ImplementationDefined {A}.

Definition bind {A B : Type} (c : outcome A) (k : A -> outcome B)
  : outcome B :=
  match c with
  | Returns a => k a
  | Panics => Panics
  | Blocks => Blocks
  | ImplementationDefined => ImplementationDefined
  end.

Notation "x <- c ;; k" := (bind c (fun x => k))
  (at level 61, c at next level, right associativity).

(** The struct [MPU9250] with its mutex: [held] is true while [m.m] is
    locked. *)
Record handle : Type := mkHandle {
  fields : MPU9250;
  held : bool
}.

(** What the bus answers to one read: the value and the error. *)
Definition reply : Type := (Z * error)%type.

(** Whether the bus reported an error. *)
Definition failed (r : reply) : bool :=
  match snd r with
  | Some _ => true
  | None => false
  end.

(** [i2cWrite]: the error it returns is non-nil exactly when the bus
    reported one (the message formats the value and the register, and no
    caller below reads it). *)
Definition i2cWrite (r : reply) : bool := failed r.

(** [i2cRead]: the byte the bus returned, and whether the error is
    non-nil. *)
Definition i2cRead (r : reply) : Z * bool := (fst r, failed r).

(** [i2cRead2] (lines 804-813).  On a bus error the source builds its
    message from [err.Error()], where [err] is the named result and still
    nil: the call panics.  Otherwise the word is converted to [int16]. *)
Definition i2cRead2 (r : reply) : outcome (Z * error) :=
  match snd r with
  | Some _ => Panics
  | None => Returns (int16 (fst r), None)
  end.

(** [time.NewTicker(time.Duration(int(1000.0/float32(rate)+0.5)) *
    time.Millisecond)]: it panics unless the period is positive.  The
    [float32] quotient is idealised as a real; with a rate of 0 it is
    infinite. *)
Definition NewTicker (rate : Z) : outcome unit :=
  if (rate =? 0)%Z then ImplementationDefined
  else if (0 <? truncate (1000 / IZR rate + 0.5))%Z then Returns tt
       else Panics.

(** [m.m.Lock()]. *)
Definition Lock (h : handle) : outcome handle :=
  if held h then Blocks else Returns (mkHandle (fields h) true).

(** [Read] with its mutex (lines 348 and 372): the call waits while the
    mutex is held, and releases it before it returns. *)
Definition ReadLocked (USEMAG : bool) (now : Z) (h : handle)
  : outcome (handle * reading * list logline) :=
  h <- Lock h ;;
  let '(m', r, lg) := Read USEMAG now (fields h) in
  Returns (mkHandle m' false, r, lg).

Section Sampling.

(** Package constants whose declarations are not under src/. *)
Variable USEMAG : bool.
Variables AKM_DATA_READY AKM_DATA_OVERRUN AKM_OVERFLOW : Z.

(** The replies of the bus during one turn of the loop of [readMPURaw], in
    the order of the reads; the three writes before the magnetometer
    reads discard their errors. *)
Record turn : Type := mkTurn {
  gyroX : reply; gyroY : reply; gyroZ : reply;
  accelX : reply; accelY : reply; accelZ : reply;
  mag1 : reply; mag2 : reply; mag3 : reply; mag4 : reply
}.

(** The six reads of a turn (lines 255-286): [None] when a read returned
    an error and the code jumped to [readMagData]. *)
Definition readGyroAccel (t : turn)
  : outcome (option (Z * Z * Z * Z * Z * Z)) :=
  x1 <- i2cRead2 (gyroX t) ;;
  match snd x1 with Some _ => Returns None | None =>
  x2 <- i2cRead2 (gyroY t) ;;
  match snd x2 with Some _ => Returns None | None =>
  x3 <- i2cRead2 (gyroZ t) ;;
  match snd x3 with Some _ => Returns None | None =>
  y1 <- i2cRead2 (accelX t) ;;
  match snd y1 with Some _ => Returns None | None =>
  y2 <- i2cRead2 (accelY t) ;;
  match snd y2 with Some _ => Returns None | None =>
  y3 <- i2cRead2 (accelZ t) ;;
  match snd y3 with Some _ => Returns None | None =>
  Returns (Some (fst x1, fst x2, fst x3, fst y1, fst y2, fst y3))
  end end end end end end.

(** Lines 289-295: [m.g1 += int32(g1 - m.g01)] and the like; the
    difference is an [int16], the sum an [int32]. *)
Definition accumulate (m : MPU9250) (v : Z * Z * Z * Z * Z * Z) : MPU9250 :=
  let '(x1, x2, x3, y1, y2, y3) := v in
  {| scaleGyro := scaleGyro m; scaleAccel := scaleAccel m;
     sampleRate := sampleRate m;
     n := n m + 1; nm := nm m;
     g1 := int32 (g1 m + int16 (x1 - g01 m));
     g2 := int32 (g2 m + int16 (x2 - g02 m));
     g3 := int32 (g3 m + int16 (x3 - g03 m));
     a1 := int32 (a1 m + int16 (y1 - a01 m));
     a2 := int32 (a2 m + int16 (y2 - a02 m));
     a3 := int32 (a3 m + int16 (y3 - a03 m));
     m1 := m1 m; m2 := m2 m; m3 := m3 m;
     a01 := a01 m; a02 := a02 m; a03 := a03 m;
     g01 := g01 m; g02 := g02 m; g03 := g03 m;
     mcal1 := mcal1 m; mcal2 := mcal2 m; mcal3 := mcal3 m |}.

(** Lines 337-341: [m.m1 += (int32(m1) * m.mcal1 >> 8)] and the like. *)
Definition accumulateMag (m : MPU9250) (v : Z * Z * Z) : MPU9250 :=
  let '(z1, z2, z3) := v in
  {| scaleGyro := scaleGyro m; scaleAccel := scaleAccel m;
     sampleRate := sampleRate m;
     n := n m; nm := nm m + 1;
     g1 := g1 m; g2 := g2 m; g3 := g3 m;
     a1 := a1 m; a2 := a2 m; a3 := a3 m;
     m1 := int32 (m1 m + Z.shiftr (int32 (z1 * mcal1 m)) 8);
     m2 := int32 (m2 m + Z.shiftr (int32 (z2 * mcal2 m)) 8);
     m3 := int32 (m3 m + Z.shiftr (int32 (z3 * mcal3 m)) 8);
     a01 := a01 m; a02 := a02 m; a03 := a03 m;
     g01 := g01 m; g02 := g02 m; g03 := g03 m;
     mcal1 := mcal1 m; mcal2 := mcal2 m; mcal3 := mcal3 m |}.

(** The magnetometer part of a turn (lines 298-342): [None] when the code
    executes [return], which ends the goroutine without unlocking. *)
Definition readMag (m : MPU9250) (t : turn) : outcome (option MPU9250) :=
  z1 <- i2cRead2 (mag1 t) ;;
  match snd z1 with Some _ => Returns None | None =>
  z2 <- i2cRead2 (mag2 t) ;;
  match snd z2 with Some _ => Returns None | None =>
  z3 <- i2cRead2 (mag3 t) ;;
  match snd z3 with Some _ => Returns None | None =>
  z4 <- i2cRead2 (mag4 t) ;;
  match snd z4 with Some _ => Returns None | None =>
  let st1 := Z.land (fst z1) 255 in
  if andb (Z.land st1 AKM_DATA_READY =? 0)%Z
          (negb (Z.land st1 AKM_DATA_OVERRUN =? 0)%Z)
  then Returns None
  else if negb (Z.land (Z.land (Z.shiftr (fst z4) 8) 255) AKM_OVERFLOW
                =? 0)%Z
  then Returns None
  else Returns (Some (accumulateMag m (fst z1, fst z2, fst z3)))
  end end end end.

(** The loop of [readMPURaw] either goes on to its next turn or has
    returned; either way the handle is what the turn left. *)
Inductive loop : Type :=
| Continues (h : handle)
| Ends (h : handle).

(** One turn of the loop of [readMPURaw] (lines 252-343). *)
Definition readMPURaw_turn (h : handle) (t : turn) : outcome loop :=
  h <- Lock h ;;
  v <- readGyroAccel t ;;
  let m := match v with
           | Some v => accumulate (fields h) v
           | None => fields h
           end in
  if USEMAG then
    r <- readMag m t ;;
    match r with
    | None => Returns (Ends (mkHandle m true))
    | Some m' => Returns (Continues (mkHandle m' false))
    end
  else Returns (Continues (mkHandle m false)).

(** The turns [i], [i+1], ... [i+k-1] of the loop. *)
Fixpoint turns (h : handle) (bus : nat -> turn) (i k : nat) : outcome loop :=
  match k with
  | O => Returns (Continues h)
  | S k' =>
      r <- readMPURaw_turn h (bus i) ;;
      match r with
      | Continues h' => turns h' bus (S i) k'
      | Ends h' => Returns (Ends h')
      end
  end.

(** The first [k] turns of [readMPURaw] (lines 245-345); the loop itself
    never ends on its own. *)
Definition readMPURaw (h : handle) (bus : nat -> turn) (k : nat)
  : outcome loop :=
  _ <- NewTicker (sampleRate (fields h)) ;;
  turns h bus 0 k.

End Sampling.

(** The two errors of [CalibrateGyro]. *)
Definition sensorError : string :=
  "CalibrationGyro: sensor error during calibration".
Definition notInertial : string :=
  "CalibrationGyro: sensor was not inertial during calibration".

(** The sampling loop of [CalibrateGyro] (lines 483-504): turns [i] to
    [i+k-1], from the sums [acc] of the readings (g11, g12, g13, [int32])
    and of their squares (g21, g22, g23, [int64]).  [None] when a read
    returned an error. *)
Fixpoint sampleGyro (bus : nat -> reply * reply * reply) (i k : nat)
         (acc : Z * Z * Z * Z * Z * Z)
  : outcome (option (Z * Z * Z * Z * Z * Z)) :=
  match k with
  | O => Returns (Some acc)
  | S k' =>
      let '(r1, r2, r3) := bus i in
      let '(g11, g12, g13, g21, g22, g23) := acc in
      x1 <- i2cRead2 r1 ;;
      match snd x1 with Some _ => Returns None | None =>
      x2 <- i2cRead2 r2 ;;
      match snd x2 with Some _ => Returns None | None =>
      x3 <- i2cRead2 r3 ;;
      match snd x3 with Some _ => Returns None | None =>
      sampleGyro bus (S i) k'
        (int32 (g11 + fst x1), int32 (g12 + fst x2), int32 (g13 + fst x3),
         int64 (g21 + int64 (fst x1 * fst x1)),
         int64 (g22 + int64 (fst x2 * fst x2)),
         int64 (g23 + int64 (fst x3 * fst x3)))
      end end end
  end.

(** Assign [m.g01, m.g02, m.g03]. *)
Definition withGyroBias (m : MPU9250) (b1 b2 b3 : Z) : MPU9250 :=
  {| scaleGyro := scaleGyro m; scaleAccel := scaleAccel m;
     sampleRate := sampleRate m;
     n := n m; nm := nm m;
     g1 := g1 m; g2 := g2 m; g3 := g3 m;
     a1 := a1 m; a2 := a2 m; a3 := a3 m;
     m1 := m1 m; m2 := m2 m; m3 := m3 m;
     a01 := a01 m; a02 := a02 m; a03 := a03 m;
     g01 := b1; g02 := b2; g03 := b3;
     mcal1 := mcal1 m; mcal2 := mcal2 m; mcal3 := mcal3 m |}.

(** The quantity the source compares with [float64(n)*maxVar]:
    [float64(g2 - int64(g1)*int64(g1)/int64(n)) * scale * scale]. *)
Definition spread (scale : R) (count g2 g1 : Z) : R :=
  IZR (int64 (g2 - int64 (Z.quot (int64 (g1 * g1)) count))) * scale * scale.

(** [CalibrateGyro] (lines 472-524): the handle it leaves and the error
    it returns.  [bus i] holds the replies to the three reads of turn
    [i].  The arguments of the first [log.Printf] are evaluated before
    the test; their integer quotients panic when [n] is 0. *)
Definition CalibrateGyro (h : handle) (dur : Z)
           (bus : nat -> reply * reply * reply) : outcome (handle * error) :=
  let count := int32 (int32 dur * int32 (sampleRate (fields h))) in
  _ <- NewTicker (sampleRate (fields h)) ;;
  h <- Lock h ;;
  let m := fields h in
  acc <- sampleGyro bus 0 (Z.to_nat count) (0, 0, 0, 0, 0, 0)%Z ;;
  match acc with
  | None => Returns (h, Some sensorError)
  | Some (g11, g12, g13, g21, g22, g23) =>
      if (count =? 0)%Z then Panics
      else if orb (gtb (spread (scaleGyro m) count g21 g11) (IZR count * 10))
             (orb (gtb (spread (scaleGyro m) count g22 g12) (IZR count * 10))
                  (gtb (spread (scaleGyro m) count g23 g13) (IZR count * 10)))
      then Returns (h, Some notInertial)
      else
        Returns
          (mkHandle (withGyroBias m (int16 (int32 (Z.quot g11 count)))
                                    (int16 (int32 (Z.quot g12 count)))
                                    (int16 (int32 (Z.quot g13 count))))
                    false,
           None)
  end.

(** Assign [mpu.mcal1, mpu.mcal2, mpu.mcal3]. *)
Definition withMagCalibration (m : MPU9250) (c1 c2 c3 : Z) : MPU9250 :=
  {| scaleGyro := scaleGyro m; scaleAccel := scaleAccel m;
     sampleRate := sampleRate m;
     n := n m; nm := nm m;
     g1 := g1 m; g2 := g2 m; g3 := g3 m;
     a1 := a1 m; a2 := a2 m; a3 := a3 m;
     m1 := m1 m; m2 := m2 m; m3 := m3 m;
     a01 := a01 m; a02 := a02 m; a03 := a03 m;
     g01 := g01 m; g02 := g02 m; g03 := g03 m;
     mcal1 := c1; mcal2 := c2; mcal3 := c3 |}.

(** The one error of [ReadMagCalibration]. *)
Definition calibrationError : string :=
  "ReadMagCalibration error reading chip".

(** [ReadMagCalibration] (lines 707-783).  [bus i] is the reply to the
    bus call number [i] of the function, counted from 0 in the order of
    the source: fourteen calls when none fails.  Call 6 (line 738) is
    made inside an [if] that tests the error of call 5 again, so its own
    error is dropped.  [mcal1 + 128] is a sum of [uint8]s. *)
Definition ReadMagCalibration (m : MPU9250) (bus : nat -> reply)
  : MPU9250 * error :=
  let fail (m : MPU9250) := (m, Some calibrationError) in
  let '(tmp, err) := i2cRead (bus 0%nat) in
  if err then fail m else
  if i2cWrite (bus 1%nat) then fail m else
  if i2cWrite (bus 2%nat) then fail m else
  if i2cWrite (bus 3%nat) then fail m else
  if i2cWrite (bus 4%nat) then fail m else
  if i2cWrite (bus 5%nat) then fail m else
  let _ := i2cWrite (bus 6%nat) in
  let '(asa1, err) := i2cRead (bus 7%nat) in
  if err then fail m else
  let '(asa2, err) := i2cRead (bus 8%nat) in
  if err then fail m else
  let '(asa3, err) := i2cRead (bus 9%nat) in
  if err then fail m else
  let m := withMagCalibration m (int32 (uint8 (asa1 + 128)))
                                (int32 (uint8 (asa2 + 128)))
                                (int32 (uint8 (asa3 + 128))) in
  if i2cWrite (bus 10%nat) then fail m else
  let '(tmp, err) := i2cRead (bus 11%nat) in
  if err then fail m else
  if i2cWrite (bus 12%nat) then fail m else
  if i2cWrite (bus 13%nat) then fail m else
  (m, None).

End Mpu.

(** ** Vocabulary of the properties *)

(** Squared norms of the two quaternions of a state. *)
Definition normE2 (s : Ahrs.State.t) : R :=
  Ahrs.State.E0 s * Ahrs.State.E0 s + Ahrs.State.E1 s * Ahrs.State.E1 s
  + Ahrs.State.E2 s * Ahrs.State.E2 s + Ahrs.State.E3 s * Ahrs.State.E3 s.

Definition normF2 (s : Ahrs.State.t) : R :=
  Ahrs.State.F0 s * Ahrs.State.F0 s + Ahrs.State.F1 s * Ahrs.State.F1 s
  + Ahrs.State.F2 s * Ahrs.State.F2 s + Ahrs.State.F3 s * Ahrs.State.F3 s.

(** A 3x3 matrix, by rows. *)
Definition mat3 : Type := (R * R * R) * (R * R * R) * (R * R * R).

(** The two rotation caches of a state, read as matrices (r11 .. r33). *)
Definition eij (s : Ahrs.State.t) : mat3 :=
  ((Ahrs.State.e11 s, Ahrs.State.e12 s, Ahrs.State.e13 s),
   (Ahrs.State.e21 s, Ahrs.State.e22 s, Ahrs.State.e23 s),
   (Ahrs.State.e31 s, Ahrs.State.e32 s, Ahrs.State.e33 s)).

Definition fij (s : Ahrs.State.t) : mat3 :=
  ((Ahrs.State.f11 s, Ahrs.State.f12 s, Ahrs.State.f13 s),
   (Ahrs.State.f21 s, Ahrs.State.f22 s, Ahrs.State.f23 s),
   (Ahrs.State.f31 s, Ahrs.State.f32 s, Ahrs.State.f33 s)).

(** R . R^T = I, entry by entry. *)
Definition orthogonal (r : mat3) : Prop :=
  let '((r11, r12, r13), (r21, r22, r23), (r31, r32, r33)) := r in
  r11 * r11 + r12 * r12 + r13 * r13 = 1 /\
  r11 * r21 + r12 * r22 + r13 * r23 = 0 /\
  r11 * r31 + r12 * r32 + r13 * r33 = 0 /\
  r21 * r21 + r22 * r22 + r23 * r23 = 1 /\
  r21 * r31 + r22 * r32 + r23 * r33 = 0 /\
  r31 * r31 + r32 * r32 + r33 * r33 = 1.

Definition det (r : mat3) : R :=
  let '((r11, r12, r13), (r21, r22, r23), (r31, r32, r33)) := r in
  r11 * (r22 * r33 - r23 * r32)
  - r12 * (r21 * r33 - r23 * r31)
  + r13 * (r21 * r32 - r22 * r31).

(** The nine fragments the comments of [normalize] describe, computed from
    a quaternion alone: what both caches are meant to hold. *)
Definition fragments (q0 q1 q2 q3 : R) : mat3 :=
  ((2 * (q0 * q0 + q1 * q1 - 0.5), 2 * (q0 * q3 + q1 * q2),
    2 * (- q0 * q2 + q1 * q3)),
   (2 * (- q0 * q3 + q2 * q1), 2 * (q0 * q0 + q2 * q2 - 0.5),
    2 * (q0 * q1 + q2 * q3)),
   (2 * (q0 * q2 + q3 * q1), 2 * (- q0 * q1 + q3 * q2),
    2 * (q0 * q0 + q3 * q3 - 0.5))).

(** A first measurement with a GPS track of (-7, 24, 0) kt and nothing
    else valid. *)
Definition m_track : Ahrs.Measurement.t :=
  {| Ahrs.Measurement.UValid := false; Ahrs.Measurement.WValid := true;
     Ahrs.Measurement.SValid := false; Ahrs.Measurement.MValid := false;
     Ahrs.Measurement.U1 := 0; Ahrs.Measurement.U2 := 0;
     Ahrs.Measurement.U3 := 0;
     Ahrs.Measurement.W1 := -7; Ahrs.Measurement.W2 := 24;
     Ahrs.Measurement.W3 := 0;
     Ahrs.Measurement.A1 := 0; Ahrs.Measurement.A2 := 0;
     Ahrs.Measurement.A3 := 0;
     Ahrs.Measurement.B1 := 0; Ahrs.Measurement.B2 := 0;
     Ahrs.Measurement.B3 := 0;
     Ahrs.Measurement.M1 := 0; Ahrs.Measurement.M2 := 0;
     Ahrs.Measurement.M3 := 0;
     Ahrs.Measurement.T := 0; Ahrs.Measurement.M := Zeros 15 15 |}.

(** One Euler step of the quaternion as the specification words it:
    E <- E + (dt/2) . Omega(H) . E with H in radians, every component read
    from the quaternion before the step, then divided by its length. *)
Definition eulerStep (s : Ahrs.State.t) (dt : R) : R * R * R * R :=
  let h1 := Ahrs.State.H1 s * Ahrs.Deg in
  let h2 := Ahrs.State.H2 s * Ahrs.Deg in
  let h3 := Ahrs.State.H3 s * Ahrs.Deg in
  let e0 := Ahrs.State.E0 s in
  let e1 := Ahrs.State.E1 s in
  let e2 := Ahrs.State.E2 s in
  let e3 := Ahrs.State.E3 s in
  let q0 := e0 + dt / 2 * (- h1 * e1 - h2 * e2 - h3 * e3) in
  let q1 := e1 + dt / 2 * (h1 * e0 + h2 * e3 - h3 * e2) in
  let q2 := e2 + dt / 2 * (- h1 * e3 + h2 * e0 + h3 * e1) in
  let q3 := e3 + dt / 2 * (h1 * e2 - h2 * e1 + h3 * e0) in
  let n := sqrt (q0 * q0 + q1 * q1 + q2 * q2 + q3 * q3) in
  (q0 / n, q1 / n, q2 / n, q3 / n).

(** The quaternion of a state, as a tuple. *)
Definition quatE (s : Ahrs.State.t) : R * R * R * R :=
  (Ahrs.State.E0 s, Ahrs.State.E1 s, Ahrs.State.E2 s, Ahrs.State.E3 s).

(** A level state rolling at 360/pi degrees per second: both quaternions
    are the identity, everything else is zero, the covariances are those
    of [Initialize]. *)
Definition s_roll : Ahrs.State.t :=
  Ahrs.State.mk 0 0 0  0 0 0  1 0 0 0  (360 / PI) 0 0  0 0 0
                0 0 0  0 0 0  1 0 0 0  0 0 0  0 0 0
                0
                (Ahrs.State.M (Ahrs.initCovariances Ahrs.State.zero))
                (Ahrs.State.N (Ahrs.initCovariances Ahrs.State.zero))
                1 0 0  0 1 0  0 0 1
                1 0 0  0 1 0  0 0 1.

(** The magnetometer reading as the specification words it: N taken from
    the earth frame to the aircraft frame by the fragments of E, then to
    the sensor frame by the fragments of F (in the index pattern the
    accelerometer and gyro lines of [PredictMeasurement] use), and the
    bias L added once.  E and F are the normalized quaternions. *)
Definition magnetometerOnce (s : Ahrs.State.t) : R * R * R :=
  let s' := Ahrs.normalize s in
  let '((e11, e12, e13), (e21, e22, e23), (e31, e32, e33)) :=
    fragments (Ahrs.State.E0 s') (Ahrs.State.E1 s')
              (Ahrs.State.E2 s') (Ahrs.State.E3 s') in
  let '((f11, f12, f13), (f21, f22, f23), (f31, f32, f33)) :=
    fragments (Ahrs.State.F0 s') (Ahrs.State.F1 s')
              (Ahrs.State.F2 s') (Ahrs.State.F3 s') in
  let n1 := Ahrs.State.N1 s in
  let n2 := Ahrs.State.N2 s in
  let n3 := Ahrs.State.N3 s in
  let a1 := n1 * e11 + n2 * e21 + n3 * e31 in
  let a2 := n1 * e12 + n2 * e22 + n3 * e32 in
  let a3 := n1 * e13 + n2 * e23 + n3 * e33 in
  (f11 * a1 + f21 * a2 + f31 * a3 + Ahrs.State.L1 s,
   f12 * a1 + f22 * a2 + f32 * a3 + Ahrs.State.L2 s,
   f13 * a1 + f23 * a2 + f33 * a3 + Ahrs.State.L3 s).

(** The magnetometer components of a measurement. *)
Definition magnetometer (m : Ahrs.Measurement.t) : R * R * R :=
  (Ahrs.Measurement.M1 m, Ahrs.Measurement.M2 m, Ahrs.Measurement.M3 m).

(** A level state heading east with no field and a magnetometer bias of
    (1, 0, 0): both quaternions are the identity. *)
Definition s_bias : Ahrs.State.t :=
  Ahrs.State.mk 0 0 0  0 0 0  1 0 0 0  0 0 0  0 0 0
                0 0 0  0 0 0  1 0 0 0  0 0 0  1 0 0
                0
                (Ahrs.State.M (Ahrs.initCovariances Ahrs.State.zero))
                (Ahrs.State.N (Ahrs.initCovariances Ahrs.State.zero))
                1 0 0  0 1 0  0 0 1
                1 0 0  0 1 0  0 0 1.

(** The 32 state scalars in the order of the struct (U, Z, E, H, N, V, C,
    F, D, L). *)
Definition scalars (s : Ahrs.State.t) : list R :=
  [ Ahrs.State.U1 s; Ahrs.State.U2 s; Ahrs.State.U3 s;
    Ahrs.State.Z1 s; Ahrs.State.Z2 s; Ahrs.State.Z3 s;
    Ahrs.State.E0 s; Ahrs.State.E1 s; Ahrs.State.E2 s; Ahrs.State.E3 s;
    Ahrs.State.H1 s; Ahrs.State.H2 s; Ahrs.State.H3 s;
    Ahrs.State.N1 s; Ahrs.State.N2 s; Ahrs.State.N3 s;
    Ahrs.State.V1 s; Ahrs.State.V2 s; Ahrs.State.V3 s;
    Ahrs.State.C1 s; Ahrs.State.C2 s; Ahrs.State.C3 s;
    Ahrs.State.F0 s; Ahrs.State.F1 s; Ahrs.State.F2 s; Ahrs.State.F3 s;
    Ahrs.State.D1 s; Ahrs.State.D2 s; Ahrs.State.D3 s;
    Ahrs.State.L1 s; Ahrs.State.L2 s; Ahrs.State.L3 s ].

(** The matrix S = H.M.H^T + R that [Update] hands to [Inverse] (the
    local [ss] of the source). *)
Definition innovationCovariance (s : Ahrs.State.t) (m : Ahrs.Measurement.t)
  : DenseMatrix :=
  let '(s, z) := Ahrs.PredictMeasurement s in
  let y := Ahrs.innovation m z in
  let h := Ahrs.calcJacobianMeasurement s in
  let '(y, mM) := Ahrs.gate m y in
  Sum (Product h (Product (Ahrs.State.M s) (Transpose h))) mM.

(** The line [Update] logs when the inversion fails. *)
Definition cannotInvert : string := "AHRS: Can't invert Kalman gain matrix".

(** A level state at rest that is certain of itself: both quaternions are
    the identity and the covariance is zero. *)
Definition s_still : Ahrs.State.t :=
  Ahrs.State.mk 0 0 0  0 0 0  1 0 0 0  0 0 0  0 0 0
                0 0 0  0 0 0  1 0 0 0  0 0 0  0 0 0
                0
                (Zeros 32 32)
                (Ahrs.State.N (Ahrs.initCovariances Ahrs.State.zero))
                1 0 0  0 1 0  0 0 1
                1 0 0  0 1 0  0 0 1.

(** A measurement with the four validity flags and a noise matrix given,
    all readings zero, taken at time 1. *)
Definition m_flags (u w s m : bool) (noise : DenseMatrix)
  : Ahrs.Measurement.t :=
  {| Ahrs.Measurement.UValid := u; Ahrs.Measurement.WValid := w;
     Ahrs.Measurement.SValid := s; Ahrs.Measurement.MValid := m;
     Ahrs.Measurement.U1 := 0; Ahrs.Measurement.U2 := 0;
     Ahrs.Measurement.U3 := 0;
     Ahrs.Measurement.W1 := 0; Ahrs.Measurement.W2 := 0;
     Ahrs.Measurement.W3 := 0;
     Ahrs.Measurement.A1 := 0; Ahrs.Measurement.A2 := 0;
     Ahrs.Measurement.A3 := 0;
     Ahrs.Measurement.B1 := 0; Ahrs.Measurement.B2 := 0;
     Ahrs.Measurement.B3 := 0;
     Ahrs.Measurement.M1 := 0; Ahrs.Measurement.M2 := 0;
     Ahrs.Measurement.M3 := 0;
     Ahrs.Measurement.T := 1; Ahrs.Measurement.M := noise |}.

(** Every sensor valid, a fresh 15x15 noise matrix. *)
Definition m_valid : Ahrs.Measurement.t :=
  m_flags true true true true (Zeros 15 15).

(** Every sensor valid; the caller's noise matrix correlates the two
    lateral airspeed rows: entries (1,2) and (2,1) are 25. *)
Definition m_coupled : Ahrs.Measurement.t :=
  m_flags true true true true
          (Set_ (Set_ (Zeros 15 15) 1 2 25) 2 1 25).

(** No pitot: the airspeed group is invalid, the others are valid. *)
Definition m_nopitot : Ahrs.Measurement.t :=
  m_flags false true true true (Zeros 15 15).

(** The sensor quaternion of a state, as a tuple. *)
Definition quatF (s : Ahrs.State.t) : R * R * R * R :=
  (Ahrs.State.F0 s, Ahrs.State.F1 s, Ahrs.State.F2 s, Ahrs.State.F3 s).

(** The noise variances the gates of [Update] write for valid sensors, row
    by row. *)
Definition validNoise : list R :=
  [2; 25; 25; 0.2; 0.2; 0.2; 0.2; 0.2; 0.2; 1; 1; 1; 5; 5; 5].

(** An innovation whose only non-zero entry is row 1 (lateral airspeed). *)
Definition y_lateral : DenseMatrix := Set_ (Zeros 15 1) 1 0 1.

(** Two angles that differ by a whole number of turns. *)
Definition congruent (a b : R) : Prop :=
  exists k : Z, a = b + 2 * IZR k * PI.

(** The heading [psi] that [FromQuaternion] returns. *)
Definition heading (q0 q1 q2 q3 : R) : R :=
  snd (Sim.FromQuaternion q0 q1 q2 q3).

(** Keyframe times in non-decreasing order. *)
Definition ascending (a : list R) : Prop :=
  forall i j : nat, (i <= j < List.length a)%nat -> nth i a 0 <= nth j a 0.

(** Every keyframe array of a Situation has one entry per keyframe time. *)
Definition wellFormed (s : Sim.Situation) : Prop :=
  Forall (fun a : list R => List.length a = List.length (Sim.t s))
    [ Sim.u1 s; Sim.u2 s; Sim.u3 s; Sim.phi s; Sim.theta s; Sim.psi s;
      Sim.phi0 s; Sim.theta0 s; Sim.psi0 s; Sim.v1 s; Sim.v2 s; Sim.v3 s;
      Sim.m1 s; Sim.m2 s; Sim.m3 s ].

(** The first and the last keyframe time. *)
Definition firstTime (s : Sim.Situation) : R := nth 0 (Sim.t s) 0.
Definition lastTime (s : Sim.Situation) : R :=
  nth (List.length (Sim.t s) - 1) (Sim.t s) 0.

(** Linear interpolation of the array [a] between keyframes [ix] and
    [ix + 1] of the Situation, at time [t']. *)
Definition linear (s : Sim.Situation) (a : list R) (ix : nat) (t' : R) : R :=
  let ta := nth ix (Sim.t s) 0 in
  let tb := nth (S ix) (Sim.t s) 0 in
  nth ix a 0 + (t' - ta) / (tb - ta) * (nth (S ix) a 0 - nth ix a 0).

(** The state of the Situation at [t'], between keyframes [ix] and
    [ix + 1]: airspeed, wind and field interpolated linearly, the two
    quaternions those of the linearly interpolated angles. *)
Definition interpolated (s : Sim.Situation) (ix : nat) (t' : R)
  : Sim.State.t :=
  let '(e0, e1, e2, e3) :=
    Sim.ToQuaternion (linear s (Sim.phi s) ix t')
                     (linear s (Sim.theta s) ix t')
                     (linear s (Sim.psi s) ix t') in
  let '(f0, f1, f2, f3) :=
    Sim.ToQuaternion (linear s (Sim.phi0 s) ix t')
                     (linear s (Sim.theta0 s) ix t')
                     (linear s (Sim.psi0 s) ix t') in
  {| Sim.State.U1 := linear s (Sim.u1 s) ix t';
     Sim.State.U2 := linear s (Sim.u2 s) ix t';
     Sim.State.U3 := linear s (Sim.u3 s) ix t';
     Sim.State.E0 := e0; Sim.State.E1 := e1;
     Sim.State.E2 := e2; Sim.State.E3 := e3;
     Sim.State.F0 := f0; Sim.State.F1 := f1;
     Sim.State.F2 := f2; Sim.State.F3 := f3;
     Sim.State.V1 := linear s (Sim.v1 s) ix t';
     Sim.State.V2 := linear s (Sim.v2 s) ix t';
     Sim.State.V3 := linear s (Sim.v3 s) ix t';
     Sim.State.M1 := linear s (Sim.m1 s) ix t';
     Sim.State.M2 := linear s (Sim.m2 s) ix t';
     Sim.State.M3 := linear s (Sim.m3 s) ix t';
     Sim.State.T := Sim.toUint32 (t' * 1000 + 0.5);
     Sim.State.M := Zeros 0 0 |}.

(** A Situation whose sixteen arrays are all the same. *)
Definition constantSituation (a : list R) : Sim.Situation :=
  Sim.mkSituation a a a a a a a a a a a a a a a a.

(** A single keyframe, at time 0. *)
Definition s_single : Sim.Situation := constantSituation [0].

(** Three keyframes, the first two at the same time 0. *)
Definition s_step : Sim.Situation := constantSituation [0; 0; 1].

(** ** Vocabulary of the further properties *)

(** The places of the earth's field N (13-15) and of the magnetometer bias
    L (29-31) among the 32 state scalars. *)
Definition fieldIndex (i : nat) : bool :=
  orb (andb (Nat.leb 13 i) (Nat.leb i 15)) (andb (Nat.leb 29 i) (Nat.leb i 31)).

(** A covariance that does not correlate N and L with the rest of the
    state: rows N and L vanish outside columns N and L. *)
Definition fieldDecoupled (A : DenseMatrix) : Prop :=
  forall i j : nat,
    fieldIndex i = true -> (j < 32)%nat -> fieldIndex j = false ->
    elem A i j = 0.

(** One call on a running filter: [s.Predict(t)] or [s.Update(m)]. *)
Inductive step : Type :=
| Predicts (t : R)
| Updates (m : Ahrs.Measurement.t).

Definition runStep (Inverse : DenseMatrix -> option DenseMatrix)
           (s : Ahrs.State.t) (c : step) : Ahrs.State.t :=
  match c with
  | Predicts t => Ahrs.Predict s t
  | Updates m => Ahrs.state (Ahrs.Update Inverse s m)
  end.

(** The state after a sequence of calls, the first call first. *)
Definition runFilter (Inverse : DenseMatrix -> option DenseMatrix)
           (s : Ahrs.State.t) (calls : list step) : Ahrs.State.t :=
  fold_left (runStep Inverse) calls s.

(** A measurement that holds exactly the fifteen readings [z]. *)
Definition agrees (m z : Ahrs.Measurement.t) : Prop :=
  (Ahrs.Measurement.U1 m = Ahrs.Measurement.U1 z /\
   Ahrs.Measurement.U2 m = Ahrs.Measurement.U2 z /\
   Ahrs.Measurement.U3 m = Ahrs.Measurement.U3 z) /\
  (Ahrs.Measurement.W1 m = Ahrs.Measurement.W1 z /\
   Ahrs.Measurement.W2 m = Ahrs.Measurement.W2 z /\
   Ahrs.Measurement.W3 m = Ahrs.Measurement.W3 z) /\
  (Ahrs.Measurement.A1 m = Ahrs.Measurement.A1 z /\
   Ahrs.Measurement.A2 m = Ahrs.Measurement.A2 z /\
   Ahrs.Measurement.A3 m = Ahrs.Measurement.A3 z) /\
  (Ahrs.Measurement.B1 m = Ahrs.Measurement.B1 z /\
   Ahrs.Measurement.B2 m = Ahrs.Measurement.B2 z /\
   Ahrs.Measurement.B3 m = Ahrs.Measurement.B3 z) /\
  (Ahrs.Measurement.M1 m = Ahrs.Measurement.M1 z /\
   Ahrs.Measurement.M2 m = Ahrs.Measurement.M2 z /\
   Ahrs.Measurement.M3 m = Ahrs.Measurement.M3 z).

(** The measurement the state at rest predicts, with a fresh noise
    matrix. *)
Definition m_predicted : Ahrs.Measurement.t :=
  Ahrs.Measurement.withM (snd (Ahrs.PredictMeasurement s_still))
                         (Zeros 15 15).

(** Keyframe times in strictly increasing order. *)
Definition increasing (a : list R) : Prop :=
  forall i j : nat, (i < j < List.length a)%nat -> nth i a 0 < nth j a 0.

(** The state a Situation defines at its keyframe [k]. *)
Definition keyframe (s : Sim.Situation) (k : nat) : Sim.State.t :=
  let '(e0, e1, e2, e3) :=
    Sim.ToQuaternion (nth k (Sim.phi s) 0) (nth k (Sim.theta s) 0)
                     (nth k (Sim.psi s) 0) in
  let '(f0, f1, f2, f3) :=
    Sim.ToQuaternion (nth k (Sim.phi0 s) 0) (nth k (Sim.theta0 s) 0)
                     (nth k (Sim.psi0 s) 0) in
  {| Sim.State.U1 := nth k (Sim.u1 s) 0;
     Sim.State.U2 := nth k (Sim.u2 s) 0;
     Sim.State.U3 := nth k (Sim.u3 s) 0;
     Sim.State.E0 := e0; Sim.State.E1 := e1;
     Sim.State.E2 := e2; Sim.State.E3 := e3;
     Sim.State.F0 := f0; Sim.State.F1 := f1;
     Sim.State.F2 := f2; Sim.State.F3 := f3;
     Sim.State.V1 := nth k (Sim.v1 s) 0;
     Sim.State.V2 := nth k (Sim.v2 s) 0;
     Sim.State.V3 := nth k (Sim.v3 s) 0;
     Sim.State.M1 := nth k (Sim.m1 s) 0;
     Sim.State.M2 := nth k (Sim.m2 s) 0;
     Sim.State.M3 := nth k (Sim.m3 s) 0;
     Sim.State.T := Sim.toUint32 (nth k (Sim.t s) 0 * 1000 + 0.5);
     Sim.State.M := Zeros 0 0 |}.





(** The sum f 0 + ... + f (k-1). *)
Fixpoint total (f : nat -> Z) (k : nat) : Z :=
  match k with
  | O => 0%Z
  | S k' => (total f k' + f k')%Z
  end.

(** A value of Go's [int16]. *)
Definition isInt16 (z : Z) : Prop := (-32768 <= z <= 32767)%Z.

(** The [int16] word the sampling loop reads on one axis in turn [i],
    less the bias of the axis. *)
Definition sampled (bus : nat -> Mpu.turn) (axis : Mpu.turn -> Mpu.reply)
           (bias : Z) (i : nat) : Z :=
  (Mpu.int16 (fst (axis (bus i))) - bias)%Z.

(** The magnetometer data of a turn are flagged as not ready and overrun
    (lines 325-329), or as overflowed (lines 331-335). *)
Definition magRejected (READY OVERRUN OVERFLOW : Z) (t : Mpu.turn) : bool :=
  let st1 := Z.land (Mpu.int16 (fst (Mpu.mag1 t))) 255 in
  let st2 := Z.land (Z.shiftr (Mpu.int16 (fst (Mpu.mag4 t))) 8) 255 in
  orb (andb (Z.land st1 READY =? 0)%Z (negb (Z.land st1 OVERRUN =? 0)%Z))
      (negb (Z.land st2 OVERFLOW =? 0)%Z).

(** The bus reports no error on the six gyro and accelerometer reads of a
    turn, and none on the four magnetometer reads. *)
Definition gyroAccelRead (t : Mpu.turn) : Prop :=
  Forall (fun r : Mpu.reply => Mpu.failed r = false)
    [ Mpu.gyroX t; Mpu.gyroY t; Mpu.gyroZ t;
      Mpu.accelX t; Mpu.accelY t; Mpu.accelZ t ].

Definition magRead (t : Mpu.turn) : Prop :=
  Forall (fun r : Mpu.reply => Mpu.failed r = false)
    [ Mpu.mag1 t; Mpu.mag2 t; Mpu.mag3 t; Mpu.mag4 t ].

(** A turn of the sampling loop that runs to its end: no bus error, and
    with the magnetometer in use its data are accepted. *)
Definition clean (USEMAG : bool) (READY OVERRUN OVERFLOW : Z)
           (t : Mpu.turn) : Prop :=
  gyroAccelRead t /\
  (USEMAG = true ->
   magRead t /\ magRejected READY OVERRUN OVERFLOW t = false).

(** A sensor at rest: every turn of the calibration reads the same three
    words, without a bus error. *)
Definition atRest (w1 w2 w3 : Z) (i : nat) : Mpu.reply * Mpu.reply * Mpu.reply :=
  ((w1, None), (w2, None), (w3, None)).

(** A device with nothing accumulated, a sample rate of 50 per second
    and the scales of the +-250 deg/s and +-2 G ranges. *)
Definition mpu_idle : Mpu.MPU9250 :=
  {| Mpu.scaleGyro := 250 / 32767; Mpu.scaleAccel := 2 / 32767;
     Mpu.sampleRate := 50;
     Mpu.n := 0; Mpu.nm := 0;
     Mpu.g1 := 0; Mpu.g2 := 0; Mpu.g3 := 0;
     Mpu.a1 := 0; Mpu.a2 := 0; Mpu.a3 := 0;
     Mpu.m1 := 0; Mpu.m2 := 0; Mpu.m3 := 0;
     Mpu.a01 := 0; Mpu.a02 := 0; Mpu.a03 := 0;
     Mpu.g01 := 0; Mpu.g02 := 0; Mpu.g03 := 0;
     Mpu.mcal1 := 0; Mpu.mcal2 := 0; Mpu.mcal3 := 0 |}.

(** The same device with a sample rate of 2001 per second. *)
Definition mpu_fast : Mpu.MPU9250 :=
  {| Mpu.scaleGyro := 250 / 32767; Mpu.scaleAccel := 2 / 32767;
     Mpu.sampleRate := 2001;
     Mpu.n := 0; Mpu.nm := 0;
     Mpu.g1 := 0; Mpu.g2 := 0; Mpu.g3 := 0;
     Mpu.a1 := 0; Mpu.a2 := 0; Mpu.a3 := 0;
     Mpu.m1 := 0; Mpu.m2 := 0; Mpu.m3 := 0;
     Mpu.a01 := 0; Mpu.a02 := 0; Mpu.a03 := 0;
     Mpu.g01 := 0; Mpu.g02 := 0; Mpu.g03 := 0;
     Mpu.mcal1 := 0; Mpu.mcal2 := 0; Mpu.mcal3 := 0 |}.

(** A turn in which every read returns the word [w] without error. *)
Definition turnOf (w : Z) : Mpu.turn :=
  Mpu.mkTurn (w, None) (w, None) (w, None) (w, None) (w, None) (w, None)
             (w, None) (w, None) (w, None) (w, None).
(** * Properties *)

(** ** Square roots and norms *)

Lemma sqrt_of_square (x y : R) : 0 <= y -> x = y * y -> sqrt x = y.
Proof. intros Hy ->. now apply sqrt_square. Qed.

Lemma sqrt_nonzero (x : R) : 0 < x -> sqrt x <> 0.
Proof. intro H. apply Rgt_not_eq. now apply sqrt_lt_R0. Qed.

Lemma sum4_nonneg (a b c d : R) : 0 <= a * a + b * b + c * c + d * d.
Proof. nra. Qed.

Lemma sum4_pos (a b c d : R) :
  a * a + b * b + c * c + d * d <> 0 -> 0 < a * a + b * b + c * c + d * d.
Proof. intro H. pose proof (sum4_nonneg a b c d). lra. Qed.

(** Dividing a non-zero quaternion by its length gives a unit one. *)
Lemma unit_after_division (a b c d : R) :
  a * a + b * b + c * c + d * d <> 0 ->
  let n := sqrt (a * a + b * b + c * c + d * d) in
  (a / n) * (a / n) + (b / n) * (b / n) + (c / n) * (c / n)
  + (d / n) * (d / n) = 1.
Proof.
  intros H n.
  assert (Hp := sum4_pos a b c d H).
  assert (Hn : n <> 0) by (apply sqrt_nonzero; exact Hp).
  assert (Hsq : n * n = a * a + b * b + c * c + d * d)
    by (apply sqrt_sqrt; lra).
  field_simplify_eq; [ | exact Hn ].
  nra.
Qed.

Lemma gtb_true (x y : R) : y < x -> Ahrs.gtb x y = true.
Proof.
  intro H. unfold Ahrs.gtb.
  destruct (Rlt_dec y x); [reflexivity | contradiction].
Qed.

Lemma gtb_false (x y : R) : x <= y -> Ahrs.gtb x y = false.
Proof.
  intro H. unfold Ahrs.gtb. destruct (Rlt_dec y x); [lra | reflexivity].
Qed.

(** ** The rotation caches *)

(** The fragments of a unit quaternion form a rotation matrix. *)
Lemma fragments_rotation (q0 q1 q2 q3 : R) :
  q0 * q0 + q1 * q1 + q2 * q2 + q3 * q3 = 1 ->
  orthogonal (fragments q0 q1 q2 q3) /\ det (fragments q0 q1 q2 q3) = 1.
Proof.
  intro Hu.
  assert (Hh : 0.5 = (q0 * q0 + q1 * q1 + q2 * q2 + q3 * q3) / 2) by lra.
  unfold fragments, orthogonal, det.
  rewrite Hh. clear Hh.
  set (n := q0 * q0 + q1 * q1 + q2 * q2 + q3 * q3) in *.
  assert (H2 : n * n = 1) by (rewrite Hu; ring).
  assert (H3 : n * n * n = 1) by (rewrite Hu; ring).
  repeat split.
  - transitivity (n * n); [unfold n; field | exact H2].
  - unfold n; field.
  - unfold n; field.
  - transitivity (n * n); [unfold n; field | exact H2].
  - unfold n; field.
  - transitivity (n * n); [unfold n; field | exact H2].
  - transitivity (n * n * n); [unfold n; field | exact H3].
Qed.

(** What [normalize] leaves in the quaternions. *)
Lemma normalize_E (s : Ahrs.State.t) :
  let ee := sqrt (normE2 s) in
  Ahrs.State.E0 (Ahrs.normalize s) = Ahrs.State.E0 s / ee /\
  Ahrs.State.E1 (Ahrs.normalize s) = Ahrs.State.E1 s / ee /\
  Ahrs.State.E2 (Ahrs.normalize s) = Ahrs.State.E2 s / ee /\
  Ahrs.State.E3 (Ahrs.normalize s) = Ahrs.State.E3 s / ee.
Proof. repeat split; reflexivity. Qed.

Lemma normalize_F (s : Ahrs.State.t) :
  let ff := sqrt (normF2 s) in
  Ahrs.State.F0 (Ahrs.normalize s) = Ahrs.State.F0 s / ff /\
  Ahrs.State.F1 (Ahrs.normalize s) = Ahrs.State.F1 s / ff /\
  Ahrs.State.F2 (Ahrs.normalize s) = Ahrs.State.F2 s / ff /\
  Ahrs.State.F3 (Ahrs.normalize s) = Ahrs.State.F3 s / ff.
Proof. repeat split; reflexivity. Qed.

(** [normalize] writes the sensor cache from the normalized F. *)
Lemma normalize_fij (s : Ahrs.State.t) :
  let s' := Ahrs.normalize s in
  fij s' = fragments (Ahrs.State.F0 s') (Ahrs.State.F1 s')
                     (Ahrs.State.F2 s') (Ahrs.State.F3 s').
Proof. reflexivity. Qed.

(** [normalize] writes eight of the nine entries of the earth cache from
    the normalized E, and leaves [e12] as it found it. *)
Lemma normalize_eij (s : Ahrs.State.t) :
  let s' := Ahrs.normalize s in
  let q0 := Ahrs.State.E0 s' in
  let q1 := Ahrs.State.E1 s' in
  let q2 := Ahrs.State.E2 s' in
  let q3 := Ahrs.State.E3 s' in
  Ahrs.State.e11 s' = 2 * (q0 * q0 + q1 * q1 - 0.5) /\
  Ahrs.State.e12 s' = Ahrs.State.e12 s /\
  Ahrs.State.e13 s' = 2 * (- q0 * q2 + q1 * q3) /\
  Ahrs.State.e21 s' = 2 * (- q0 * q3 + q2 * q1) /\
  Ahrs.State.e22 s' = 2 * (q0 * q0 + q2 * q2 - 0.5) /\
  Ahrs.State.e23 s' = 2 * (q0 * q1 + q2 * q3) /\
  Ahrs.State.e31 s' = 2 * (q0 * q2 + q3 * q1) /\
  Ahrs.State.e32 s' = 2 * (- q0 * q1 + q3 * q2) /\
  Ahrs.State.e33 s' = 2 * (q0 * q0 + q3 * q3 - 0.5).
Proof. repeat split; reflexivity. Qed.

Lemma normalize_unit (s : Ahrs.State.t) :
  (normE2 s <> 0 -> normE2 (Ahrs.normalize s) = 1) /\
  (normF2 s <> 0 -> normF2 (Ahrs.normalize s) = 1).
Proof.
  split; intro H.
  - exact (unit_after_division _ _ _ _ H).
  - exact (unit_after_division _ _ _ _ H).
Qed.

(** The sensor cache is a rotation matrix after every [normalize]. *)
Lemma normalize_fij_rotation (s : Ahrs.State.t) :
  normF2 s <> 0 ->
  orthogonal (fij (Ahrs.normalize s)) /\ det (fij (Ahrs.normalize s)) = 1.
Proof.
  intro H. pose proof (normalize_fij s) as HF. cbv zeta in HF.
  rewrite HF. apply fragments_rotation.
  exact (proj2 (normalize_unit s) H).
Qed.

(** ** [Initialize] on a GPS track *)

Lemma initAirspeed_valid (m : Ahrs.Measurement.t) (s : Ahrs.State.t) :
  Ahrs.Measurement.WValid m = true ->
  let s' := Ahrs.initAirspeed m s in
  Ahrs.State.U1 s' = Ahrs.Hypot (Ahrs.Measurement.W1 m) (Ahrs.Measurement.W2 m)
  /\ normE2 s' = normE2 s /\ normF2 s' = normF2 s
  /\ Ahrs.State.e12 s' = Ahrs.State.e12 s.
Proof.
  intros H s'. subst s'. unfold Ahrs.initAirspeed. rewrite H.
  repeat split; reflexivity.
Qed.

Lemma initHeading_track (m : Ahrs.Measurement.t) (s : Ahrs.State.t) :
  Ahrs.Measurement.WValid m = true ->
  5 < Ahrs.State.U1 s ->
  0 < Ahrs.Measurement.W2 m ->
  let s' := Ahrs.initHeading m s in
  let u := Ahrs.State.U1 s in
  let w := Ahrs.Measurement.W1 m in
  Ahrs.State.E0 s' = sqrt ((u + w) / (2 * u)) /\
  Ahrs.State.E1 s' = Ahrs.State.E1 s /\
  Ahrs.State.E2 s' = Ahrs.State.E2 s /\
  Ahrs.State.E3 s' = sqrt ((u - w) / (2 * u)) * -1 /\
  Ahrs.State.F1 s' = Ahrs.State.F1 s /\
  Ahrs.State.F2 s' = Ahrs.State.F2 s /\
  Ahrs.State.F3 s' = Ahrs.State.F3 s /\
  Ahrs.State.e12 s' = Ahrs.State.e12 s.
Proof.
  intros HW HU H2 s' u w. subst s' u w. unfold Ahrs.initHeading.
  rewrite HW, (gtb_true _ _ HU), (gtb_true _ _ H2).
  repeat split; reflexivity.
Qed.

Lemma initField_invalid (m : Ahrs.Measurement.t) (s : Ahrs.State.t) :
  Ahrs.Measurement.MValid m = false -> Ahrs.initField m s = s.
Proof. intro H. unfold Ahrs.initField. now rewrite H. Qed.

(** The state [Initialize] builds from the track (-7, 24, 0): the heading
    quaternion is (3/5, 0, 0, -4/5), F is the identity, and [e12] is still
    the zero of [new(State)]. *)
Lemma Initialize_track :
  let s := Ahrs.Initialize m_track in
  Ahrs.State.E0 s = 3 / 5 /\ Ahrs.State.E1 s = 0 /\
  Ahrs.State.E2 s = 0 /\ Ahrs.State.E3 s = - (4 / 5) /\
  Ahrs.State.F0 s = 1 /\ Ahrs.State.F1 s = 0 /\
  Ahrs.State.F2 s = 0 /\ Ahrs.State.F3 s = 0 /\
  Ahrs.State.e12 s = 0.
Proof.
  assert (HU : Ahrs.Hypot (-7) 24 = 25)
    by (unfold Ahrs.Hypot; apply sqrt_of_square; lra).
  assert (H0 : sqrt ((25 + -7) / (2 * 25)) = 3 / 5)
    by (apply sqrt_of_square; lra).
  assert (H3 : sqrt ((25 - -7) / (2 * 25)) = 4 / 5)
    by (apply sqrt_of_square; lra).
  unfold Ahrs.Initialize. cbv zeta.
  rewrite initField_invalid by reflexivity.
  set (s1 := Ahrs.initAirspeed m_track (Ahrs.initCovariances Ahrs.State.zero)).
  destruct (initAirspeed_valid m_track
              (Ahrs.initCovariances Ahrs.State.zero) eq_refl)
    as (A1 & _ & _ & A4).
  fold s1 in A1, A4.
  change (Ahrs.Measurement.W1 m_track) with (-7) in A1.
  change (Ahrs.Measurement.W2 m_track) with 24 in A1.
  rewrite HU in A1.
  assert (B : 5 < Ahrs.State.U1 s1) by (rewrite A1; lra).
  assert (C : 0 < Ahrs.Measurement.W2 m_track) by (simpl; lra).
  destruct (initHeading_track m_track s1 eq_refl B C)
    as (E0 & E1 & E2 & E3 & F1 & F2 & F3 & E12).
  set (s2 := Ahrs.initHeading m_track s1) in *.
  rewrite A1 in E0, E3.
  change (Ahrs.Measurement.W1 m_track) with (-7) in E0, E3.
  rewrite H0 in E0. rewrite H3 in E3.
  change (Ahrs.State.E1 s1) with 0 in E1.
  change (Ahrs.State.E2 s1) with 0 in E2.
  change (Ahrs.State.F1 s1) with 0 in F1.
  change (Ahrs.State.F2 s1) with 0 in F2.
  change (Ahrs.State.F3 s1) with 0 in F3.
  change (Ahrs.State.e12 s1) with 0 in E12.
  set (s3 := Ahrs.State.withF s2 1 (Ahrs.State.F1 s2) (Ahrs.State.F2 s2)
                              (Ahrs.State.F3 s2)).
  assert (NE : normE2 s3 = 1).
  { unfold normE2. change (Ahrs.State.E0 s3) with (Ahrs.State.E0 s2).
    change (Ahrs.State.E1 s3) with (Ahrs.State.E1 s2).
    change (Ahrs.State.E2 s3) with (Ahrs.State.E2 s2).
    change (Ahrs.State.E3 s3) with (Ahrs.State.E3 s2).
    rewrite E0, E1, E2, E3. lra. }
  assert (NF : normF2 s3 = 1).
  { unfold normF2. change (Ahrs.State.F0 s3) with 1.
    change (Ahrs.State.F1 s3) with (Ahrs.State.F1 s2).
    change (Ahrs.State.F2 s3) with (Ahrs.State.F2 s2).
    change (Ahrs.State.F3 s3) with (Ahrs.State.F3 s2).
    rewrite F1, F2, F3. lra. }
  destruct (normalize_E s3) as (N0 & N1 & N2 & N3).
  destruct (normalize_F s3) as (M0 & M1 & M2 & M3).
  rewrite N0, N1, N2, N3, M0, M1, M2, M3, NE, NF, sqrt_1.
  change (Ahrs.State.E0 s3) with (Ahrs.State.E0 s2).
  change (Ahrs.State.E1 s3) with (Ahrs.State.E1 s2).
  change (Ahrs.State.E2 s3) with (Ahrs.State.E2 s2).
  change (Ahrs.State.E3 s3) with (Ahrs.State.E3 s2).
  change (Ahrs.State.F0 s3) with 1.
  change (Ahrs.State.F1 s3) with (Ahrs.State.F1 s2).
  change (Ahrs.State.F2 s3) with (Ahrs.State.F2 s2).
  change (Ahrs.State.F3 s3) with (Ahrs.State.F3 s2).
  change (Ahrs.State.e12 (Ahrs.normalize s3)) with (Ahrs.State.e12 s2).
  rewrite E0, E1, E2, E3, F1, F2, F3, E12.
  repeat split; lra.
Qed.

(** The quaternions and the stale [e12] survive a further [normalize]. *)
Lemma normalize_Initialize_track :
  let s := Ahrs.normalize (Ahrs.Initialize m_track) in
  Ahrs.State.E0 s = 3 / 5 /\ Ahrs.State.E1 s = 0 /\
  Ahrs.State.E2 s = 0 /\ Ahrs.State.E3 s = - (4 / 5) /\
  Ahrs.State.e12 s = 0.
Proof.
  destruct Initialize_track as (E0 & E1 & E2 & E3 & _ & _ & _ & _ & E12).
  set (s0 := Ahrs.Initialize m_track) in *.
  assert (NE : normE2 s0 = 1)
    by (unfold normE2; rewrite E0, E1, E2, E3; lra).
  destruct (normalize_E s0) as (N0 & N1 & N2 & N3).
  destruct (normalize_eij s0) as (_ & C12 & _).
  cbv zeta. rewrite N0, N1, N2, N3, C12, NE, sqrt_1, E0, E1, E2, E3, E12.
  repeat split; lra.
Qed.

(** C1 (the code departs from the claim).  [normalize] assigns [e21] twice
    and [e12] never, so the earth cache is not the rotation matrix of E.
    On the state that [Initialize] builds from the GPS track (-7, 24, 0),
    E is the unit quaternion (3/5, 0, 0, -4/5); after [normalize] the entry
    [e12] is still 0 where the fragments of E have -24/25, the first row of
    the cache has squared length 49/625, and its determinant is 49/625. *)
Theorem normalize_earth_cache_not_rotation :
  let s := Ahrs.normalize (Ahrs.Initialize m_track) in
  normE2 s = 1 /\
  Ahrs.State.e12 s = 0 /\
  2 * (Ahrs.State.E0 s * Ahrs.State.E3 s
       + Ahrs.State.E1 s * Ahrs.State.E2 s) = - (24 / 25) /\
  ~ orthogonal (eij s) /\
  det (eij s) = 49 / 625 /\
  det (eij s) <> 1.
Proof.
  destruct normalize_Initialize_track as (E0 & E1 & E2 & E3 & E12).
  destruct (normalize_eij (Ahrs.Initialize m_track))
    as (C11 & _ & C13 & C21 & C22 & C23 & C31 & C32 & C33).
  set (s := Ahrs.normalize (Ahrs.Initialize m_track)) in *.
  cbv zeta in C11, C13, C21, C22, C23, C31, C32, C33.
  rewrite ?E0, ?E1, ?E2, ?E3 in C11. rewrite ?E0, ?E1, ?E2, ?E3 in C13.
  rewrite ?E0, ?E1, ?E2, ?E3 in C21. rewrite ?E0, ?E1, ?E2, ?E3 in C22.
  rewrite ?E0, ?E1, ?E2, ?E3 in C23. rewrite ?E0, ?E1, ?E2, ?E3 in C31.
  rewrite ?E0, ?E1, ?E2, ?E3 in C32. rewrite ?E0, ?E1, ?E2, ?E3 in C33.
  assert (D : det (eij s) = 49 / 625).
  { unfold det, eij. rewrite C11, E12, C13, C21, C22, C23, C31, C32, C33.
    lra. }
  cbv zeta. repeat split.
  - unfold normE2. rewrite E0, E1, E2, E3. lra.
  - exact E12.
  - rewrite E0, E1, E2, E3. lra.
  - unfold orthogonal, eij. rewrite C11, E12, C13. intros (H & _). lra.
  - exact D.
  - rewrite D. lra.
Qed.

(** ** [Predict] *)

(** The four assignments of [advanceE], written out: each component after
    the first reads components that were already advanced. *)
Lemma advanceE_E (s : Ahrs.State.t) (dt : R) :
  let q0 := Ahrs.State.E0 s
            + 0.5 * dt * (- Ahrs.State.H1 s * Ahrs.State.E1 s
                          - Ahrs.State.H2 s * Ahrs.State.E2 s
                          - Ahrs.State.H3 s * Ahrs.State.E3 s) * Ahrs.Deg in
  let q1 := Ahrs.State.E1 s
            + 0.5 * dt * (Ahrs.State.H1 s * q0
                          + Ahrs.State.H2 s * Ahrs.State.E3 s
                          - Ahrs.State.H3 s * Ahrs.State.E2 s) * Ahrs.Deg in
  let q2 := Ahrs.State.E2 s
            + 0.5 * dt * (- Ahrs.State.H1 s * Ahrs.State.E3 s
                          + Ahrs.State.H2 s * q0
                          + Ahrs.State.H3 s * q1) * Ahrs.Deg in
  let q3 := Ahrs.State.E3 s
            + 0.5 * dt * (Ahrs.State.H1 s * q2
                          - Ahrs.State.H2 s * q1
                          + Ahrs.State.H3 s * q0) * Ahrs.Deg in
  quatE (Ahrs.advanceE s dt) = (q0, q1, q2, q3).
Proof. reflexivity. Qed.

(** [advanceE] touches nothing but E. *)
Lemma advanceE_H (s : Ahrs.State.t) (dt : R) :
  Ahrs.State.H1 (Ahrs.advanceE s dt) = Ahrs.State.H1 s /\
  Ahrs.State.H2 (Ahrs.advanceE s dt) = Ahrs.State.H2 s /\
  Ahrs.State.H3 (Ahrs.advanceE s dt) = Ahrs.State.H3 s.
Proof. repeat split; reflexivity. Qed.

(** [advanceE] reads E and H only. *)
Lemma advanceE_congr (x y : Ahrs.State.t) (dt : R) :
  quatE x = quatE y ->
  Ahrs.State.H1 x = Ahrs.State.H1 y ->
  Ahrs.State.H2 x = Ahrs.State.H2 y ->
  Ahrs.State.H3 x = Ahrs.State.H3 y ->
  quatE (Ahrs.advanceE x dt) = quatE (Ahrs.advanceE y dt).
Proof.
  intros HE H1 H2 H3. rewrite !advanceE_E. cbv zeta.
  unfold quatE in HE. injection HE as -> -> -> ->.
  rewrite H1, H2, H3. reflexivity.
Qed.

Lemma quatE_withM (s : Ahrs.State.t) (m : DenseMatrix) :
  quatE (Ahrs.State.withM s m) = quatE s.
Proof. reflexivity. Qed.

Lemma quatE_withT (s : Ahrs.State.t) (t : R) :
  quatE (Ahrs.State.withT s t) = quatE s.
Proof. reflexivity. Qed.

Lemma quatE_normalize (s : Ahrs.State.t) :
  let n := sqrt (normE2 s) in
  quatE (Ahrs.normalize s)
  = (Ahrs.State.E0 s / n, Ahrs.State.E1 s / n,
     Ahrs.State.E2 s / n, Ahrs.State.E3 s / n).
Proof. reflexivity. Qed.

Lemma quatE_inj (x y : Ahrs.State.t) :
  quatE x = quatE y ->
  Ahrs.State.E0 x = Ahrs.State.E0 y /\ Ahrs.State.E1 x = Ahrs.State.E1 y /\
  Ahrs.State.E2 x = Ahrs.State.E2 y /\ Ahrs.State.E3 x = Ahrs.State.E3 y.
Proof. unfold quatE. intro H. injection H as H0 H1 H2 H3. auto. Qed.

Lemma quatE_inj_tuple (x : Ahrs.State.t) (a b c d : R) :
  quatE x = (a, b, c, d) ->
  Ahrs.State.E0 x = a /\ Ahrs.State.E1 x = b /\
  Ahrs.State.E2 x = c /\ Ahrs.State.E3 x = d.
Proof. unfold quatE. intro H. injection H as H0 H1 H2 H3. auto. Qed.

Lemma normE2_quatE (x y : Ahrs.State.t) :
  quatE x = quatE y -> normE2 x = normE2 y.
Proof.
  unfold quatE, normE2. intro H. injection H as -> -> -> ->. reflexivity.
Qed.

(** The state [Predict] hands to [normalize]: E has been advanced twice,
    once inside [calcJacobianState] and once by [Predict] itself. *)
Lemma Predict_before_normalize (s : Ahrs.State.t) (t : R) :
  let dt := t - Ahrs.State.T s in
  exists (sU : Ahrs.State.t) (mm : DenseMatrix),
    Ahrs.Predict s t
    = Ahrs.State.withM
        (Ahrs.State.withT (Ahrs.normalize (Ahrs.advanceE sU dt)) t) mm
    /\ quatE (Ahrs.advanceE sU dt)
       = quatE (Ahrs.advanceE (Ahrs.advanceE s dt) dt)
    /\ normF2 (Ahrs.advanceE sU dt) = normF2 s.
Proof.
  intro dt. eexists. eexists. split; [ | split ].
  - unfold Ahrs.Predict, Ahrs.calcJacobianState. cbv zeta beta iota.
    change (Ahrs.State.T (Ahrs.advanceE s (t - Ahrs.State.T s)))
      with (Ahrs.State.T s).
    fold dt. reflexivity.
  - apply advanceE_congr; reflexivity.
  - reflexivity.
Qed.

(** The quaternion [Predict] returns: [advanceE] applied twice, then
    divided by its length. *)
Lemma Predict_E (s : Ahrs.State.t) (t : R) :
  let dt := t - Ahrs.State.T s in
  let s2 := Ahrs.advanceE (Ahrs.advanceE s dt) dt in
  let n := sqrt (normE2 s2) in
  quatE (Ahrs.Predict s t)
  = (Ahrs.State.E0 s2 / n, Ahrs.State.E1 s2 / n,
     Ahrs.State.E2 s2 / n, Ahrs.State.E3 s2 / n).
Proof.
  intros dt s2 n.
  destruct (Predict_before_normalize s t) as (sU & mm & HP & HE & _).
  fold dt in HP, HE. fold s2 in HE.
  rewrite HP, quatE_withM, quatE_withT, quatE_normalize. cbv zeta.
  rewrite (normE2_quatE _ _ HE). fold n.
  destruct (quatE_inj _ _ HE) as (H0 & H1 & H2 & H3).
  rewrite H0, H1, H2, H3. reflexivity.
Qed.

(** What [Predict] does to the rest of the state: U advances by dt.Z/G,
    T becomes t, F is divided by its length, and Z, H, N, V, C, D, L keep
    their values. *)
Lemma Predict_rest (s : Ahrs.State.t) (t : R) :
  let dt := t - Ahrs.State.T s in
  let s' := Ahrs.Predict s t in
  let ff := sqrt (normF2 s) in
  (Ahrs.State.U1 s' = Ahrs.State.U1 s + dt * Ahrs.State.Z1 s / Ahrs.G /\
   Ahrs.State.U2 s' = Ahrs.State.U2 s + dt * Ahrs.State.Z2 s / Ahrs.G /\
   Ahrs.State.U3 s' = Ahrs.State.U3 s + dt * Ahrs.State.Z3 s / Ahrs.G) /\
  Ahrs.State.T s' = t /\
  (Ahrs.State.F0 s' = Ahrs.State.F0 s / ff /\
   Ahrs.State.F1 s' = Ahrs.State.F1 s / ff /\
   Ahrs.State.F2 s' = Ahrs.State.F2 s / ff /\
   Ahrs.State.F3 s' = Ahrs.State.F3 s / ff) /\
  (Ahrs.State.Z1 s' = Ahrs.State.Z1 s /\ Ahrs.State.Z2 s' = Ahrs.State.Z2 s /\
   Ahrs.State.Z3 s' = Ahrs.State.Z3 s) /\
  (Ahrs.State.H1 s' = Ahrs.State.H1 s /\ Ahrs.State.H2 s' = Ahrs.State.H2 s /\
   Ahrs.State.H3 s' = Ahrs.State.H3 s) /\
  (Ahrs.State.N1 s' = Ahrs.State.N1 s /\ Ahrs.State.N2 s' = Ahrs.State.N2 s /\
   Ahrs.State.N3 s' = Ahrs.State.N3 s) /\
  (Ahrs.State.V1 s' = Ahrs.State.V1 s /\ Ahrs.State.V2 s' = Ahrs.State.V2 s /\
   Ahrs.State.V3 s' = Ahrs.State.V3 s) /\
  (Ahrs.State.C1 s' = Ahrs.State.C1 s /\ Ahrs.State.C2 s' = Ahrs.State.C2 s /\
   Ahrs.State.C3 s' = Ahrs.State.C3 s) /\
  (Ahrs.State.D1 s' = Ahrs.State.D1 s /\ Ahrs.State.D2 s' = Ahrs.State.D2 s /\
   Ahrs.State.D3 s' = Ahrs.State.D3 s) /\
  (Ahrs.State.L1 s' = Ahrs.State.L1 s /\ Ahrs.State.L2 s' = Ahrs.State.L2 s /\
   Ahrs.State.L3 s' = Ahrs.State.L3 s).
Proof. repeat split; reflexivity. Qed.

(** A roll of 360/pi degrees per second for one second is a half-angle
    increment of exactly 1. *)
Lemma roll_increment (x : R) :
  0.5 * (1 - 0) * (360 / PI * x) * Ahrs.Deg = x.
Proof.
  replace 0.5 with (1 / 2) by lra.
  unfold Ahrs.Deg. pose proof PI_neq0. field. assumption.
Qed.

Lemma advanceE_roll (s : Ahrs.State.t) (a b : R) :
  quatE s = (a, b, 0, 0) ->
  Ahrs.State.H1 s = 360 / PI -> Ahrs.State.H2 s = 0 -> Ahrs.State.H3 s = 0 ->
  quatE (Ahrs.advanceE s (1 - 0)) = (a - b, b + (a - b), 0, 0).
Proof.
  intros HE H1 H2 H3. rewrite advanceE_E. cbv zeta.
  destruct (quatE_inj_tuple _ _ _ _ _ HE) as (-> & -> & -> & ->).
  rewrite H1, H2, H3.
  assert (Q0 : a + 0.5 * (1 - 0) * (- (360 / PI) * b - 0 * 0 - 0 * 0)
                   * Ahrs.Deg = a - b).
  { replace (- (360 / PI) * b - 0 * 0 - 0 * 0) with (360 / PI * - b) by ring.
    rewrite roll_increment. ring. }
  rewrite Q0.
  assert (Q1 : b + 0.5 * (1 - 0) * (360 / PI * (a - b) + 0 * 0 - 0 * 0)
                   * Ahrs.Deg = b + (a - b)).
  { replace (360 / PI * (a - b) + 0 * 0 - 0 * 0) with (360 / PI * (a - b))
      by ring.
    rewrite roll_increment. ring. }
  rewrite Q1.
  assert (Q2 : 0 + 0.5 * (1 - 0)
                   * (- (360 / PI) * 0 + 0 * (a - b) + 0 * (b + (a - b)))
                   * Ahrs.Deg = 0).
  { replace (- (360 / PI) * 0 + 0 * (a - b) + 0 * (b + (a - b)))
      with (360 / PI * 0) by ring.
    rewrite roll_increment. ring. }
  rewrite Q2.
  assert (Q3 : 0 + 0.5 * (1 - 0)
                   * (360 / PI * 0 - 0 * (b + (a - b)) + 0 * (a - b))
                   * Ahrs.Deg = 0).
  { replace (360 / PI * 0 - 0 * (b + (a - b)) + 0 * (a - b))
      with (360 / PI * 0) by ring.
    rewrite roll_increment. ring. }
  rewrite Q3. reflexivity.
Qed.

(** C2 (the code departs from the claim).  [Predict] first calls
    [calcJacobianState], which already advances E, and then advances E
    again; and each of the four assignments reads the components the
    earlier ones have just written.  On the level state rolling at 360/pi
    degrees per second, predicted one second ahead, one Euler step gives
    (1, 1, 0, 0)/sqrt 2, while [Predict] returns (0, 1, 0, 0). *)
Theorem Predict_advances_quaternion_twice :
  quatE (Ahrs.Predict s_roll 1) = (0, 1, 0, 0) /\
  eulerStep s_roll 1 = (1 / sqrt 2, 1 / sqrt 2, 0, 0) /\
  fst (fst (fst (quatE (Ahrs.Predict s_roll 1))))
  <> fst (fst (fst (eulerStep s_roll 1))).
Proof.
  assert (S1 : quatE (Ahrs.advanceE s_roll (1 - 0)) = (1, 1, 0, 0)).
  { rewrite (advanceE_roll s_roll 1 0) by reflexivity.
    repeat f_equal; lra. }
  assert (S2 : quatE (Ahrs.advanceE (Ahrs.advanceE s_roll (1 - 0)) (1 - 0))
               = (0, 1, 0, 0)).
  { destruct (advanceE_H s_roll (1 - 0)) as (H1 & H2 & H3).
    rewrite (advanceE_roll _ 1 1 S1 H1 H2 H3).
    repeat f_equal; lra. }
  assert (P : quatE (Ahrs.Predict s_roll 1) = (0, 1, 0, 0)).
  { rewrite Predict_E. cbv zeta.
    change (Ahrs.State.T s_roll) with 0.
    set (s2 := Ahrs.advanceE (Ahrs.advanceE s_roll (1 - 0)) (1 - 0)) in *.
    destruct (quatE_inj_tuple _ _ _ _ _ S2) as (E0 & E1 & E2 & E3).
    unfold normE2. rewrite E0, E1, E2, E3.
    replace (0 * 0 + 1 * 1 + 0 * 0 + 0 * 0) with 1 by ring.
    rewrite sqrt_1. repeat f_equal; lra. }
  assert (Q : eulerStep s_roll 1 = (1 / sqrt 2, 1 / sqrt 2, 0, 0)).
  { unfold eulerStep.
    cbn [s_roll Ahrs.State.E0 Ahrs.State.E1 Ahrs.State.E2 Ahrs.State.E3
         Ahrs.State.H1 Ahrs.State.H2 Ahrs.State.H3].
    cbv zeta.
    assert (A : 360 / PI * Ahrs.Deg = 2)
      by (unfold Ahrs.Deg; pose proof PI_neq0; field; assumption).
    rewrite A.
    match goal with
    | |- (?a / sqrt ?n, ?b / _, ?c / _, ?d / _) = _ =>
        replace a with 1 by lra; replace b with 1 by lra;
        replace c with 0 by lra; replace d with 0 by lra
    end.
    replace (1 * 1 + 1 * 1 + 0 * 0 + 0 * 0) with 2 by ring.
    repeat f_equal; unfold Rdiv; ring. }
  split; [exact P | split; [exact Q | ]].
  rewrite P, Q. cbn [fst].
  assert (0 < 1 / sqrt 2).
  { apply Rdiv_lt_0_compat; [lra | apply sqrt_lt_R0; lra]. }
  lra.
Qed.

(** The same divergence for any roll rate and any time step: from the
    identity quaternion with H = (h, 0, 0), [Predict] returns a quaternion
    along (1 - a.a, 2.a - a.a.a, 0, 0) with a = dt.h.Deg/2, where one
    Euler step gives one along (1, a, 0, 0); the two agree only if a = 0. *)
Lemma Predict_roll_differs (s : Ahrs.State.t) (t : R) :
  quatE s = (1, 0, 0, 0) ->
  Ahrs.State.H2 s = 0 -> Ahrs.State.H3 s = 0 ->
  0.5 * (t - Ahrs.State.T s) * Ahrs.State.H1 s * Ahrs.Deg <> 0 ->
  quatE (Ahrs.Predict s t) <> eulerStep s (t - Ahrs.State.T s).
Proof.
  intros HE H2 H3 Ha Heq.
  set (dt := t - Ahrs.State.T s) in *.
  set (a := 0.5 * dt * Ahrs.State.H1 s * Ahrs.Deg) in *.
  destruct (quatE_inj_tuple _ _ _ _ _ HE) as (E0 & E1 & E2 & E3).
  (* the first application of the four assignments *)
  pose proof (advanceE_E s dt) as A1. cbv zeta in A1.
  rewrite E0, E1, E2, E3, H2, H3 in A1.
  assert (S1 : quatE (Ahrs.advanceE s dt) = (1, a, 0, 0)).
  { rewrite A1. unfold a. f_equal; [f_equal; [f_equal | ] | ]; ring. }
  clear A1.
  destruct (quatE_inj_tuple _ _ _ _ _ S1) as (F0 & F1 & F2 & F3).
  destruct (advanceE_H s dt) as (G1 & G2 & G3).
  (* the second application *)
  pose proof (advanceE_E (Ahrs.advanceE s dt) dt) as A2. cbv zeta in A2.
  rewrite F0, F1, F2, F3, G1, G2, G3, H2, H3 in A2.
  assert (S2 : quatE (Ahrs.advanceE (Ahrs.advanceE s dt) dt)
               = (1 - a * a, a + a * (1 - a * a), 0, 0)).
  { rewrite A2. unfold a. f_equal; [f_equal; [f_equal | ] | ]; ring. }
  clear A2.
  destruct (quatE_inj_tuple _ _ _ _ _ S2) as (K0 & K1 & K2 & K3).
  rewrite Predict_E in Heq. cbv zeta in Heq. fold dt in Heq.
  unfold normE2 in Heq. rewrite K0, K1, K2, K3 in Heq.
  unfold eulerStep in Heq. rewrite E0, E1, E2, E3, H2, H3 in Heq.
  cbv zeta in Heq.
  replace (1 + dt / 2 * (- (Ahrs.State.H1 s * Ahrs.Deg) * 0
                         - 0 * Ahrs.Deg * 0 - 0 * Ahrs.Deg * 0))
    with 1 in Heq by ring.
  replace (0 + dt / 2 * (Ahrs.State.H1 s * Ahrs.Deg * 1
                         + 0 * Ahrs.Deg * 0 - 0 * Ahrs.Deg * 0))
    with a in Heq by (unfold a; replace 0.5 with (1 / 2) by lra; field).
  replace (0 + dt / 2 * (- (Ahrs.State.H1 s * Ahrs.Deg) * 0
                         + 0 * Ahrs.Deg * 1 + 0 * Ahrs.Deg * 0))
    with 0 in Heq by ring.
  replace (0 + dt / 2 * (Ahrs.State.H1 s * Ahrs.Deg * 0
                         - 0 * Ahrs.Deg * 0 + 0 * Ahrs.Deg * 1))
    with 0 in Heq by ring.
  clearbody a.
  set (n2 := sqrt ((1 - a * a) * (1 - a * a)
                   + (a + a * (1 - a * a)) * (a + a * (1 - a * a))
                   + 0 * 0 + 0 * 0)) in *.
  set (n1 := sqrt (1 * 1 + a * a + 0 * 0 + 0 * 0)) in *.
  assert (P1 : 0 < n1) by (apply sqrt_lt_R0; nra).
  assert (P2 : 0 < n2).
  { apply sqrt_lt_R0.
    pose proof (Rle_0_sqr (1 - a * a)) as Q1.
    pose proof (Rle_0_sqr (a + a * (1 - a * a))) as Q2.
    unfold Rsqr in Q1, Q2.
    destruct (Req_dec_T (1 - a * a) 0) as [Z | Z].
    - rewrite Z in *. replace (a + a * 0) with a by ring. nra.
    - assert (0 < (1 - a * a) * (1 - a * a)).
      { pose proof (Rsqr_pos_lt _ Z) as Q. unfold Rsqr in Q. exact Q. }
      lra. }
  injection Heq as Q0 Q1.
  assert (C0 : (1 - a * a) * n1 = n2).
  { apply (Rmult_eq_reg_r (/ n1 * / n2)).
    - transitivity ((1 - a * a) / n2); [field; lra | ].
      rewrite Q0. field. lra.
    - apply Rmult_integral_contrapositive_currified;
        apply Rinv_neq_0_compat; lra. }
  assert (C1 : (a + a * (1 - a * a)) * n1 = a * n2).
  { apply (Rmult_eq_reg_r (/ n1 * / n2)).
    - transitivity ((a + a * (1 - a * a)) / n2); [field; lra | ].
      rewrite Q1. field. lra.
    - apply Rmult_integral_contrapositive_currified;
        apply Rinv_neq_0_compat; lra. }
  rewrite <- C0 in C1.
  assert (a * n1 = 0) by nra.
  apply Ha. nra.
Qed.

(** ** [PredictMeasurement] *)

Lemma PredictMeasurement_state (s : Ahrs.State.t) :
  fst (Ahrs.PredictMeasurement s) = Ahrs.normalize s.
Proof. reflexivity. Qed.

(** [normalize] keeps every state scalar other than the two quaternions,
    and T, M and N. *)
Lemma normalize_keeps (s : Ahrs.State.t) :
  let s' := Ahrs.normalize s in
  (Ahrs.State.U1 s' = Ahrs.State.U1 s /\ Ahrs.State.U2 s' = Ahrs.State.U2 s /\
   Ahrs.State.U3 s' = Ahrs.State.U3 s) /\
  (Ahrs.State.Z1 s' = Ahrs.State.Z1 s /\ Ahrs.State.Z2 s' = Ahrs.State.Z2 s /\
   Ahrs.State.Z3 s' = Ahrs.State.Z3 s) /\
  (Ahrs.State.H1 s' = Ahrs.State.H1 s /\ Ahrs.State.H2 s' = Ahrs.State.H2 s /\
   Ahrs.State.H3 s' = Ahrs.State.H3 s) /\
  (Ahrs.State.N1 s' = Ahrs.State.N1 s /\ Ahrs.State.N2 s' = Ahrs.State.N2 s /\
   Ahrs.State.N3 s' = Ahrs.State.N3 s) /\
  (Ahrs.State.V1 s' = Ahrs.State.V1 s /\ Ahrs.State.V2 s' = Ahrs.State.V2 s /\
   Ahrs.State.V3 s' = Ahrs.State.V3 s) /\
  (Ahrs.State.C1 s' = Ahrs.State.C1 s /\ Ahrs.State.C2 s' = Ahrs.State.C2 s /\
   Ahrs.State.C3 s' = Ahrs.State.C3 s) /\
  (Ahrs.State.D1 s' = Ahrs.State.D1 s /\ Ahrs.State.D2 s' = Ahrs.State.D2 s /\
   Ahrs.State.D3 s' = Ahrs.State.D3 s) /\
  (Ahrs.State.L1 s' = Ahrs.State.L1 s /\ Ahrs.State.L2 s' = Ahrs.State.L2 s /\
   Ahrs.State.L3 s' = Ahrs.State.L3 s) /\
  Ahrs.State.T s' = Ahrs.State.T s /\
  Ahrs.State.M s' = Ahrs.State.M s /\
  Ahrs.State.N s' = Ahrs.State.N s.
Proof. repeat split; reflexivity. Qed.

(** The magnetometer lines of [PredictMeasurement], read off the caches of
    the normalized state: L enters [m1 .. m3] and then the result again. *)
Lemma PredictMeasurement_magnetometer (s : Ahrs.State.t) :
  let s' := Ahrs.normalize s in
  let m1 := Ahrs.State.N1 s' * Ahrs.State.e11 s'
            + Ahrs.State.N2 s' * Ahrs.State.e21 s'
            + Ahrs.State.N3 s' * Ahrs.State.e31 s' + Ahrs.State.L1 s' in
  let m2 := Ahrs.State.N1 s' * Ahrs.State.e12 s'
            + Ahrs.State.N2 s' * Ahrs.State.e22 s'
            + Ahrs.State.N3 s' * Ahrs.State.e32 s' + Ahrs.State.L2 s' in
  let m3 := Ahrs.State.N1 s' * Ahrs.State.e13 s'
            + Ahrs.State.N2 s' * Ahrs.State.e23 s'
            + Ahrs.State.N3 s' * Ahrs.State.e33 s' + Ahrs.State.L3 s' in
  magnetometer (snd (Ahrs.PredictMeasurement s))
  = (Ahrs.State.f11 s' * m1 + Ahrs.State.f21 s' * m2
     + Ahrs.State.f31 s' * m3 + Ahrs.State.L1 s',
     Ahrs.State.f12 s' * m1 + Ahrs.State.f22 s' * m2
     + Ahrs.State.f32 s' * m3 + Ahrs.State.L2 s',
     Ahrs.State.f13 s' * m1 + Ahrs.State.f23 s' * m2
     + Ahrs.State.f33 s' * m3 + Ahrs.State.L3 s').
Proof.
  unfold Ahrs.PredictMeasurement, magnetometer. cbv zeta.
  cbn [snd Ahrs.Measurement.M1 Ahrs.Measurement.M2 Ahrs.Measurement.M3].
  reflexivity.
Qed.

(** [normalize] on a state whose two quaternions are the identity. *)
Lemma normalize_identity (s : Ahrs.State.t) :
  Ahrs.State.E0 s = 1 -> Ahrs.State.E1 s = 0 ->
  Ahrs.State.E2 s = 0 -> Ahrs.State.E3 s = 0 ->
  Ahrs.State.F0 s = 1 -> Ahrs.State.F1 s = 0 ->
  Ahrs.State.F2 s = 0 -> Ahrs.State.F3 s = 0 ->
  let s' := Ahrs.normalize s in
  (Ahrs.State.E0 s' = 1 /\ Ahrs.State.E1 s' = 0 /\
   Ahrs.State.E2 s' = 0 /\ Ahrs.State.E3 s' = 0) /\
  (Ahrs.State.F0 s' = 1 /\ Ahrs.State.F1 s' = 0 /\
   Ahrs.State.F2 s' = 0 /\ Ahrs.State.F3 s' = 0) /\
  eij s' = ((1, Ahrs.State.e12 s, 0), (0, 1, 0), (0, 0, 1)) /\
  fij s' = ((1, 0, 0), (0, 1, 0), (0, 0, 1)).
Proof.
  intros E0 E1 E2 E3 F0 F1 F2 F3 s'.
  assert (NE : sqrt (normE2 s) = 1).
  { unfold normE2. rewrite E0, E1, E2, E3.
    replace (1 * 1 + 0 * 0 + 0 * 0 + 0 * 0) with 1 by ring. apply sqrt_1. }
  assert (NF : sqrt (normF2 s) = 1).
  { unfold normF2. rewrite F0, F1, F2, F3.
    replace (1 * 1 + 0 * 0 + 0 * 0 + 0 * 0) with 1 by ring. apply sqrt_1. }
  destruct (normalize_E s) as (A0 & A1 & A2 & A3).
  destruct (normalize_F s) as (B0 & B1 & B2 & B3).
  fold s' in A0, A1, A2, A3, B0, B1, B2, B3.
  rewrite NE in A0, A1, A2, A3. rewrite NF in B0, B1, B2, B3.
  rewrite E0 in A0. rewrite E1 in A1. rewrite E2 in A2. rewrite E3 in A3.
  rewrite F0 in B0. rewrite F1 in B1. rewrite F2 in B2. rewrite F3 in B3.
  assert (A0' : Ahrs.State.E0 s' = 1) by lra.
  assert (A1' : Ahrs.State.E1 s' = 0) by lra.
  assert (A2' : Ahrs.State.E2 s' = 0) by lra.
  assert (A3' : Ahrs.State.E3 s' = 0) by lra.
  assert (B0' : Ahrs.State.F0 s' = 1) by lra.
  assert (B1' : Ahrs.State.F1 s' = 0) by lra.
  assert (B2' : Ahrs.State.F2 s' = 0) by lra.
  assert (B3' : Ahrs.State.F3 s' = 0) by lra.
  split; [auto | split; [auto | split]].
  - destruct (normalize_eij s)
      as (C11 & C12 & C13 & C21 & C22 & C23 & C31 & C32 & C33).
    fold s' in C11, C12, C13, C21, C22, C23, C31, C32, C33.
    cbv zeta in C11, C13, C21, C22, C23, C31, C32, C33.
    unfold eij.
    rewrite C11, C12, C13, C21, C22, C23, C31, C32, C33.
    rewrite A0', A1', A2', A3'.
    repeat f_equal; lra.
  - pose proof (normalize_fij s) as HF. cbv zeta in HF. fold s' in HF.
    rewrite HF. unfold fragments.
    rewrite B0', B1', B2', B3'.
    repeat f_equal; lra.
Qed.

Lemma eij_entries (s : Ahrs.State.t) (a b c d e f g h i : R) :
  eij s = ((a, b, c), (d, e, f), (g, h, i)) ->
  Ahrs.State.e11 s = a /\ Ahrs.State.e12 s = b /\ Ahrs.State.e13 s = c /\
  Ahrs.State.e21 s = d /\ Ahrs.State.e22 s = e /\ Ahrs.State.e23 s = f /\
  Ahrs.State.e31 s = g /\ Ahrs.State.e32 s = h /\ Ahrs.State.e33 s = i.
Proof.
  unfold eij. intro H. injection H as H1 H2 H3 H4 H5 H6 H7 H8 H9.
  repeat split; assumption.
Qed.

Lemma fij_entries (s : Ahrs.State.t) (a b c d e f g h i : R) :
  fij s = ((a, b, c), (d, e, f), (g, h, i)) ->
  Ahrs.State.f11 s = a /\ Ahrs.State.f12 s = b /\ Ahrs.State.f13 s = c /\
  Ahrs.State.f21 s = d /\ Ahrs.State.f22 s = e /\ Ahrs.State.f23 s = f /\
  Ahrs.State.f31 s = g /\ Ahrs.State.f32 s = h /\ Ahrs.State.f33 s = i.
Proof.
  unfold fij. intro H. injection H as H1 H2 H3 H4 H5 H6 H7 H8 H9.
  repeat split; assumption.
Qed.

(** C3 (the code departs from the claim).  [PredictMeasurement] adds the
    bias L to the field in the aircraft frame and adds it again after the
    rotation into the sensor frame.  On the level state with no field and
    bias (1, 0, 0) the claim's reading is (1, 0, 0); the code returns
    (2, 0, 0). *)
Theorem PredictMeasurement_adds_bias_twice :
  magnetometer (snd (Ahrs.PredictMeasurement s_bias)) = (2, 0, 0) /\
  magnetometerOnce s_bias = (1, 0, 0).
Proof.
  destruct (normalize_identity s_bias eq_refl eq_refl eq_refl eq_refl
              eq_refl eq_refl eq_refl eq_refl)
    as ((E0 & E1 & E2 & E3) & (F0 & F1 & F2 & F3) & HE & HF).
  destruct (normalize_keeps s_bias)
    as (_ & _ & _ & (N1 & N2 & N3) & _ & _ & _ & (L1 & L2 & L3) & _).
  assert (Z12 : Ahrs.State.e12 s_bias = 0) by reflexivity.
  assert (ZN1 : Ahrs.State.N1 s_bias = 0) by reflexivity.
  assert (ZN2 : Ahrs.State.N2 s_bias = 0) by reflexivity.
  assert (ZN3 : Ahrs.State.N3 s_bias = 0) by reflexivity.
  assert (ZL1 : Ahrs.State.L1 s_bias = 1) by reflexivity.
  assert (ZL2 : Ahrs.State.L2 s_bias = 0) by reflexivity.
  assert (ZL3 : Ahrs.State.L3 s_bias = 0) by reflexivity.
  rewrite Z12 in HE. rewrite ZN1 in N1. rewrite ZN2 in N2. rewrite ZN3 in N3.
  rewrite ZL1 in L1. rewrite ZL2 in L2. rewrite ZL3 in L3.
  split.
  - rewrite PredictMeasurement_magnetometer. cbv zeta.
    destruct (eij_entries _ _ _ _ _ _ _ _ _ _ HE)
      as (C11 & C12 & C13 & C21 & C22 & C23 & C31 & C32 & C33).
    destruct (fij_entries _ _ _ _ _ _ _ _ _ _ HF)
      as (D11 & D12 & D13 & D21 & D22 & D23 & D31 & D32 & D33).
    rewrite C11, C12, C13, C21, C22, C23, C31, C32, C33.
    rewrite D11, D12, D13, D21, D22, D23, D31, D32, D33.
    rewrite N1, N2, N3, L1, L2, L3.
    repeat f_equal; lra.
  - unfold magnetometerOnce.
    rewrite E0, E1, E2, E3, F0, F1, F2, F3. unfold fragments.
    rewrite ZN1, ZN2, ZN3, ZL1, ZL2, ZL3.
    repeat f_equal; lra.
Qed.

(** How far the magnetometer lines are from the claim's reading, for any
    state: the bias comes through the sensor rotation a second time, and
    the field picks up whatever the stale [e12] differs by from the
    fragment of E. *)
Lemma magnetometer_divergence (s : Ahrs.State.t) :
  let s' := Ahrs.normalize s in
  let d := Ahrs.State.N1 s
           * (Ahrs.State.e12 s
              - 2 * (Ahrs.State.E0 s' * Ahrs.State.E3 s'
                     + Ahrs.State.E1 s' * Ahrs.State.E2 s')) in
  let l1 := Ahrs.State.L1 s in
  let l2 := Ahrs.State.L2 s + d in
  let l3 := Ahrs.State.L3 s in
  let '(o1, o2, o3) := magnetometerOnce s in
  magnetometer (snd (Ahrs.PredictMeasurement s))
  = (o1 + (Ahrs.State.f11 s' * l1 + Ahrs.State.f21 s' * l2
           + Ahrs.State.f31 s' * l3),
     o2 + (Ahrs.State.f12 s' * l1 + Ahrs.State.f22 s' * l2
           + Ahrs.State.f32 s' * l3),
     o3 + (Ahrs.State.f13 s' * l1 + Ahrs.State.f23 s' * l2
           + Ahrs.State.f33 s' * l3)).
Proof.
  cbv zeta. rewrite PredictMeasurement_magnetometer. cbv zeta.
  unfold magnetometerOnce.
  destruct (normalize_keeps s)
    as (_ & _ & _ & (N1 & N2 & N3) & _ & _ & _ & (L1 & L2 & L3) & _).
  destruct (normalize_eij s)
    as (C11 & C12 & C13 & C21 & C22 & C23 & C31 & C32 & C33).
  pose proof (normalize_fij s) as HF. cbv zeta in HF.
  cbv zeta in C11, C13, C21, C22, C23, C31, C32, C33.
  set (s' := Ahrs.normalize s) in *.
  unfold fragments in *.
  destruct (fij_entries _ _ _ _ _ _ _ _ _ _ HF)
    as (D11 & D12 & D13 & D21 & D22 & D23 & D31 & D32 & D33).
  rewrite N1, N2, N3, L1, L2, L3.
  rewrite C11, C12, C13, C21, C22, C23, C31, C32, C33.
  rewrite D11, D12, D13, D21, D22, D23, D31, D32, D33.
  replace 0.5 with (1 / 2) by lra.
  f_equal; [f_equal | ]; ring.
Qed.

(** ** Matrix facts *)

Lemma dot_ext (n : nat) (f g : nat -> R) :
  (forall k, (k < n)%nat -> f k = g k) -> dot n f = dot n g.
Proof.
  induction n as [ | n IH]; intro H; simpl.
  - reflexivity.
  - rewrite IH by (intros k Hk; apply H; lia).
    rewrite (H n) by lia. reflexivity.
Qed.

Lemma dot_zero (n : nat) (f : nat -> R) :
  (forall k, (k < n)%nat -> f k = 0) -> dot n f = 0.
Proof.
  induction n as [ | n IH]; intro H; simpl.
  - reflexivity.
  - rewrite IH by (intros k Hk; apply H; lia).
    rewrite (H n) by lia. ring.
Qed.

(** A sum with one possibly non-zero term. *)
Lemma dot_single (n j : nat) (f : nat -> R) :
  (j < n)%nat ->
  (forall k, (k < n)%nat -> k <> j -> f k = 0) ->
  dot n f = f j.
Proof.
  induction n as [ | n IH]; intros Hj H; [lia | ].
  simpl. destruct (Nat.eq_dec j n) as [-> | Hne].
  - rewrite dot_zero by (intros k Hk; apply H; lia). ring.
  - rewrite IH by (try lia; intros k Hk Hkj; apply H; lia).
    rewrite (H n) by lia. ring.
Qed.

Lemma elem_Set_same (A : DenseMatrix) (i j : nat) (v : R) :
  Get (Set_ A i j v) i j = v.
Proof. unfold Get, Set_. simpl. now rewrite !Nat.eqb_refl. Qed.

Lemma elem_Set_other (A : DenseMatrix) (i j i' j' : nat) (v : R) :
  (i', j') <> (i, j) -> Get (Set_ A i j v) i' j' = Get A i' j'.
Proof.
  intro H. unfold Get, Set_. simpl.
  destruct (Nat.eqb_spec i' i) as [-> | ]; [ | reflexivity].
  destruct (Nat.eqb_spec j' j) as [-> | ]; [ | reflexivity].
  now contradiction H.
Qed.

(** A product whose left factor is zero is zero. *)
Lemma Product_zero_left (r c : nat) (B : DenseMatrix) (i j : nat) :
  elem (Product (Zeros r c) B) i j = 0.
Proof. simpl. apply dot_zero. intros k _. ring. Qed.

(** A product whose right factor has only zero entries is zero. *)
Lemma Product_zero_right (A B : DenseMatrix) (i j : nat) :
  (forall k, elem B k j = 0) -> elem (Product A B) i j = 0.
Proof. intro H. simpl. apply dot_zero. intros k _. rewrite H. ring. Qed.

(** ** [Update] *)

(** [Update] when the inversion fails: the state is the one
    [PredictMeasurement] normalized, and one line is logged. *)
Lemma Update_skips (Inverse : DenseMatrix -> option DenseMatrix)
      (s : Ahrs.State.t) (m : Ahrs.Measurement.t) :
  Inverse (innovationCovariance s m) = None ->
  Ahrs.state (Ahrs.Update Inverse s m) = Ahrs.normalize s /\
  Ahrs.logged (Ahrs.Update Inverse s m) = [cannotInvert].
Proof.
  unfold Ahrs.Update, innovationCovariance.
  rewrite <- (PredictMeasurement_state s).
  destruct (Ahrs.PredictMeasurement s) as [s1 z].
  destruct (Ahrs.gate m (Ahrs.innovation m z)) as [y mM].
  cbv zeta. cbn [Ahrs.Measurement.withM Ahrs.Measurement.M fst].
  intros ->. split; reflexivity.
Qed.

(** [Update] when the inversion succeeds: it normalizes the corrected
    state and logs nothing. *)
Lemma Update_applies (Inverse : DenseMatrix -> option DenseMatrix)
      (s : Ahrs.State.t) (m : Ahrs.Measurement.t) (s' : Ahrs.State.t) :
  Ahrs.beforeNormalize Inverse s m = Some s' ->
  Ahrs.state (Ahrs.Update Inverse s m) = Ahrs.normalize s' /\
  Ahrs.logged (Ahrs.Update Inverse s m) = [].
Proof.
  unfold Ahrs.Update, Ahrs.beforeNormalize.
  destruct (Ahrs.PredictMeasurement s) as [s1 z].
  destruct (Ahrs.gate m (Ahrs.innovation m z)) as [y mM].
  cbv zeta.
  destruct (Inverse _) as [m2 | ]; [ | discriminate].
  intro H. injection H as <-. split; reflexivity.
Qed.

(** The noise matrix [Update] leaves in the measurement is the one the
    gates wrote, whether or not the inversion succeeds. *)
Lemma Update_noise (Inverse : DenseMatrix -> option DenseMatrix)
      (s : Ahrs.State.t) (m : Ahrs.Measurement.t) :
  Ahrs.Measurement.M (Ahrs.meas (Ahrs.Update Inverse s m))
  = snd (Ahrs.gate m (Ahrs.innovation m (snd (Ahrs.PredictMeasurement s)))).
Proof.
  unfold Ahrs.Update.
  destruct (Ahrs.PredictMeasurement s) as [s1 z].
  cbn [snd].
  destruct (Ahrs.gate m (Ahrs.innovation m z)) as [y mM].
  cbv zeta.
  destruct (Inverse _); reflexivity.
Qed.

(** A unit quaternion is left alone by [normalize]. *)
Lemma normalize_unit_scalars (s : Ahrs.State.t) :
  normE2 s = 1 -> normF2 s = 1 ->
  scalars (Ahrs.normalize s) = scalars s.
Proof.
  intros HE HF.
  destruct (normalize_E s) as (E0 & E1 & E2 & E3).
  destruct (normalize_F s) as (F0 & F1 & F2 & F3).
  destruct (normalize_keeps s)
    as ((U1 & U2 & U3) & (Z1 & Z2 & Z3) & (H1 & H2 & H3) & (N1 & N2 & N3)
        & (V1 & V2 & V3) & (C1 & C2 & C3) & (D1 & D2 & D3) & (L1 & L2 & L3)
        & _).
  cbv zeta in *.
  rewrite HE, sqrt_1 in E0, E1, E2, E3.
  rewrite HF, sqrt_1 in F0, F1, F2, F3.
  unfold scalars.
  rewrite U1, U2, U3, Z1, Z2, Z3, E0, E1, E2, E3, H1, H2, H3, N1, N2, N3,
    V1, V2, V3, C1, C2, C3, F0, F1, F2, F3, D1, D2, D3, L1, L2, L3.
  unfold Rdiv. rewrite Rinv_1, !Rmult_1_r. reflexivity.
Qed.

(** C5.  When the inversion of S = H.M.H^T + R fails, [Update] leaves a
    state with unit quaternions as it was: the 32 state scalars, the
    timestamp T and the covariance M are those before the call, and the
    warning is logged. *)
Theorem Update_singular_leaves_state
        (Inverse : DenseMatrix -> option DenseMatrix)
        (s : Ahrs.State.t) (m : Ahrs.Measurement.t) :
  normE2 s = 1 -> normF2 s = 1 ->
  Inverse (innovationCovariance s m) = None ->
  let r := Ahrs.Update Inverse s m in
  scalars (Ahrs.state r) = scalars s /\
  Ahrs.State.T (Ahrs.state r) = Ahrs.State.T s /\
  Ahrs.State.M (Ahrs.state r) = Ahrs.State.M s /\
  Ahrs.logged r = [cannotInvert].
Proof.
  intros HE HF HI r. subst r.
  destruct (Update_skips Inverse s m HI) as (-> & ->).
  destruct (normalize_keeps s) as (_ & _ & _ & _ & _ & _ & _ & _ & T & M & _).
  rewrite (normalize_unit_scalars s HE HF).
  repeat split; assumption.
Qed.

(** The quaternion [advanceE] returns is zero only if it was given zero:
    each assignment adds to one component a multiple of the others. *)
Lemma advanceE_nonzero (s : Ahrs.State.t) (dt : R) :
  normE2 s <> 0 -> normE2 (Ahrs.advanceE s dt) <> 0.
Proof.
  intros H Hz. apply H. clear H.
  pose proof (advanceE_E s dt) as HA. cbv zeta in HA.
  destruct (quatE_inj_tuple _ _ _ _ _ HA) as (A0 & A1 & A2 & A3).
  clear HA.
  set (x := Ahrs.advanceE s dt) in *.
  unfold normE2 in Hz.
  assert (Z0 : Ahrs.State.E0 x = 0) by nra.
  assert (Z1 : Ahrs.State.E1 x = 0) by nra.
  assert (Z2 : Ahrs.State.E2 x = 0) by nra.
  assert (Z3 : Ahrs.State.E3 x = 0) by nra.
  clear Hz.
  rewrite Z0 in A0. rewrite Z1 in A1. rewrite Z2 in A2. rewrite Z3 in A3.
  rewrite <- A0 in A1, A2, A3. rewrite <- A1 in A2, A3. rewrite <- A2 in A3.
  assert (E3 : Ahrs.State.E3 s = 0) by lra.
  rewrite E3 in *.
  assert (E2 : Ahrs.State.E2 s = 0) by lra.
  rewrite E2 in *.
  assert (E1 : Ahrs.State.E1 s = 0) by lra.
  rewrite E1 in *.
  assert (E0 : Ahrs.State.E0 s = 0) by lra.
  unfold normE2. rewrite E0, E1, E2, E3. ring.
Qed.

(** C4.  From a state whose quaternions are not zero, [Predict] returns a
    state in which E and F both have norm 1; and so does every [Update]
    that applies a correction, provided the corrected quaternions are not
    zero either ([s'] is the state just before the closing [normalize]). *)
Theorem quaternions_unit_after_step
        (Inverse : DenseMatrix -> option DenseMatrix)
        (s : Ahrs.State.t) (t : R) (m : Ahrs.Measurement.t)
        (s' : Ahrs.State.t) :
  normE2 s <> 0 -> normF2 s <> 0 ->
  (normE2 (Ahrs.Predict s t) = 1 /\ normF2 (Ahrs.Predict s t) = 1) /\
  (Ahrs.beforeNormalize Inverse s m = Some s' ->
   normE2 s' <> 0 -> normF2 s' <> 0 ->
   normE2 (Ahrs.state (Ahrs.Update Inverse s m)) = 1 /\
   normF2 (Ahrs.state (Ahrs.Update Inverse s m)) = 1).
Proof.
  intros HE HF. split.
  - destruct (Predict_before_normalize s t) as (sU & mm & HP & HQ & HN).
    cbv zeta in *. rewrite HP.
    set (x := Ahrs.advanceE sU (t - Ahrs.State.T s)) in *.
    assert (XE : normE2 x <> 0).
    { rewrite (normE2_quatE _ _ HQ).
      apply advanceE_nonzero. apply advanceE_nonzero. exact HE. }
    assert (XF : normF2 x <> 0) by (rewrite HN; exact HF).
    destruct (normalize_unit x) as (UE & UF).
    split; [exact (UE XE) | exact (UF XF)].
  - intros HB HE' HF'.
    destruct (Update_applies Inverse s m s' HB) as (-> & _).
    destruct (normalize_unit s') as (UE & UF).
    split; [exact (UE HE') | exact (UF HF')].
Qed.

(** ** The exact inverse, on the matrices the examples need *)

Lemma exactInverse_some (A : DenseMatrix) :
  (exists B, inverse_of A B) -> exists B, exactInverse A = Some B.
Proof.
  intro H. unfold exactInverse.
  destruct (excluded_middle_informative (exists B, inverse_of A B))
    as [ex | no]; [eauto | contradiction].
Qed.

Lemma exactInverse_none (A : DenseMatrix) :
  ~ (exists B, inverse_of A B) -> exactInverse A = None.
Proof.
  intro H. unfold exactInverse.
  destruct (excluded_middle_informative (exists B, inverse_of A B))
    as [ex | no]; [contradiction | reflexivity].
Qed.

(** A diagonal matrix with a non-zero diagonal has an inverse. *)
Lemma diagonal_inverse (A : DenseMatrix) (n : nat) (d : nat -> R) :
  rows A = n -> cols A = n ->
  (forall i j, (i < n)%nat -> (j < n)%nat ->
               elem A i j = if Nat.eqb i j then d i else 0) ->
  (forall i, (i < n)%nat -> d i <> 0) ->
  exists B, inverse_of A B.
Proof.
  intros Hr Hc HA Hd.
  exists (mkDense n n (fun i j => if Nat.eqb i j then / d i else 0)).
  unfold inverse_of, same. simpl. rewrite Hr, Hc.
  split; [reflexivity | split].
  - split; [reflexivity | split; [reflexivity | ] ].
    intros i j Hi Hj.
    rewrite (dot_single n i) by
      (first [ assumption
             | intros k Hk Hne; rewrite (HA i k Hi Hk);
               destruct (Nat.eqb_spec i k); [congruence | ring] ]).
    rewrite (HA i i Hi Hi), Nat.eqb_refl.
    destruct (Nat.eqb_spec i j) as [-> | Hne].
    + field. now apply Hd.
    + ring.
  - split; [reflexivity | split; [reflexivity | ] ].
    intros i j Hi Hj.
    rewrite (dot_single n i) by
      (first [ assumption
             | intros k Hk Hne;
               destruct (Nat.eqb_spec i k); [congruence | ring] ]).
    rewrite Nat.eqb_refl, (HA i j Hi Hj).
    destruct (Nat.eqb_spec i j) as [-> | Hne].
    + field. now apply Hd.
    + ring.
Qed.

(** A matrix with two equal rows has no inverse. *)
Lemma equal_rows_singular (A : DenseMatrix) (i1 i2 : nat) :
  i1 <> i2 -> (i1 < rows A)%nat -> (i2 < rows A)%nat ->
  (forall k, (k < cols A)%nat -> elem A i1 k = elem A i2 k) ->
  ~ (exists B, inverse_of A B).
Proof.
  intros Hne H1 H2 Hrow (B & Hsq & (Hr & Hc & HAB) & _).
  simpl in Hr, Hc, HAB.
  assert (Hj : (i1 < cols B)%nat) by lia.
  pose proof (HAB i1 i1 H1 Hj) as P1.
  pose proof (HAB i2 i1 H2 Hj) as P2.
  rewrite Nat.eqb_refl in P1.
  destruct (Nat.eqb_spec i2 i1) as [E | _]; [congruence | ].
  rewrite (dot_ext _ _ (fun k => elem A i2 k * elem B k i1)) in P1
    by (intros k Hk; rewrite (Hrow k Hk); reflexivity).
  lra.
Qed.

(** With a zero state covariance, S is the noise matrix the gates wrote. *)
Lemma innovationCovariance_certain (s : Ahrs.State.t)
      (m : Ahrs.Measurement.t) (i j : nat) :
  Ahrs.State.M s = Zeros 32 32 ->
  elem (innovationCovariance s m) i j
  = elem (snd (Ahrs.gate m (Ahrs.innovation m
                              (snd (Ahrs.PredictMeasurement s))))) i j.
Proof.
  intro HM. unfold innovationCovariance.
  destruct (normalize_keeps s) as (_ & _ & _ & _ & _ & _ & _ & _ & _ & M & _).
  rewrite <- (PredictMeasurement_state s) in M.
  destruct (Ahrs.PredictMeasurement s) as [s1 z].
  cbn [fst snd] in *.
  destruct (Ahrs.gate m (Ahrs.innovation m z)) as [y mM].
  cbn [snd]. rewrite M, HM.
  unfold Sum. cbn [elem].
  rewrite Product_zero_right by (intro k; apply Product_zero_left).
  ring.
Qed.

Lemma innovationCovariance_shape (s : Ahrs.State.t) (m : Ahrs.Measurement.t) :
  rows (innovationCovariance s m) = 15%nat /\
  cols (innovationCovariance s m) = 15%nat.
Proof.
  unfold innovationCovariance.
  destruct (Ahrs.PredictMeasurement s) as [s1 z].
  destruct (Ahrs.gate m (Ahrs.innovation m z)) as [y mM].
  split; reflexivity.
Qed.

(** ** The validity gates *)

(** With every sensor valid and a fresh noise matrix, the gates write the
    diagonal matrix of [validNoise]. *)
Lemma gate_valid_diagonal (y : DenseMatrix) (i j : nat) :
  (i < 15)%nat -> (j < 15)%nat ->
  elem (snd (Ahrs.gate m_valid y)) i j
  = if Nat.eqb i j then nth i validNoise 0 else 0.
Proof.
  intros Hi Hj.
  do 15 (destruct i as [ | i]; [
    do 15 (destruct j as [ | j]; [reflexivity | ]); lia | ]).
  lia.
Qed.

Lemma gate_shape (m : Ahrs.Measurement.t) (y : DenseMatrix) :
  rows (snd (Ahrs.gate m y)) = rows (Ahrs.Measurement.M m) /\
  cols (snd (Ahrs.gate m y)) = cols (Ahrs.Measurement.M m).
Proof.
  unfold Ahrs.gate.
  destruct (Ahrs.Measurement.UValid m), (Ahrs.Measurement.WValid m),
    (Ahrs.Measurement.SValid m), (Ahrs.Measurement.MValid m);
    split; reflexivity.
Qed.

Lemma validNoise_nonzero (i : nat) : (i < 15)%nat -> nth i validNoise 0 <> 0.
Proof.
  intro Hi.
  do 15 (destruct i as [ | i]; [simpl; lra | ]). lia.
Qed.

(** With the caller's correlated noise matrix, rows 1 and 2 of what the
    gates write are equal. *)
Lemma gate_coupled_rows (y : DenseMatrix) (k : nat) :
  (k < 15)%nat ->
  elem (snd (Ahrs.gate m_coupled y)) 1 k
  = elem (snd (Ahrs.gate m_coupled y)) 2 k.
Proof.
  intro Hk.
  do 15 (destruct k as [ | k]; [reflexivity | ]). lia.
Qed.

(** The innovation covariance of the certain state and the all-valid
    measurement has an inverse. *)
Lemma certain_valid_invertible :
  exists B, exactInverse (innovationCovariance s_still m_valid) = Some B.
Proof.
  apply exactInverse_some.
  destruct (innovationCovariance_shape s_still m_valid) as (Hr & Hc).
  apply (diagonal_inverse _ 15 (fun i => nth i validNoise 0) Hr Hc).
  - intros i j Hi Hj.
    rewrite innovationCovariance_certain by reflexivity.
    now apply gate_valid_diagonal.
  - exact validNoise_nonzero.
Qed.

(** The innovation covariance of the certain state and the correlated
    measurement has none. *)
Lemma certain_coupled_singular :
  exactInverse (innovationCovariance s_still m_coupled) = None.
Proof.
  apply exactInverse_none.
  destruct (innovationCovariance_shape s_still m_coupled) as (Hr & Hc).
  apply (equal_rows_singular _ 1 2); try (rewrite Hr; lia); try lia.
  intros k Hk. rewrite Hc in Hk.
  rewrite !innovationCovariance_certain by reflexivity.
  now apply gate_coupled_rows.
Qed.

Lemma Product_zero_row (A B : DenseMatrix) (i j : nat) :
  (forall k, elem A i k = 0) -> elem (Product A B) i j = 0.
Proof. intro H. simpl. apply dot_zero. intros k _. rewrite H. ring. Qed.

Lemma quatF_normalize (s : Ahrs.State.t) :
  let n := sqrt (normF2 s) in
  quatF (Ahrs.normalize s)
  = (Ahrs.State.F0 s / n, Ahrs.State.F1 s / n,
     Ahrs.State.F2 s / n, Ahrs.State.F3 s / n).
Proof. reflexivity. Qed.

(** What [correct] does to the two quaternions. *)
Lemma correct_quaternions (s : Ahrs.State.t) (m : Ahrs.Measurement.t)
      (kk h su : DenseMatrix) :
  quatE (Ahrs.correct s m kk h su)
  = (Ahrs.State.E0 s + Get su 6 0, Ahrs.State.E1 s + Get su 7 0,
     Ahrs.State.E2 s + Get su 8 0, Ahrs.State.E3 s + Get su 9 0) /\
  quatF (Ahrs.correct s m kk h su)
  = (Ahrs.State.F0 s + Get su 22 0, Ahrs.State.F1 s + Get su 23 0,
     Ahrs.State.F2 s + Get su 24 0, Ahrs.State.F3 s + Get su 25 0).
Proof. split; reflexivity. Qed.

(** A state with zero covariance takes no correction: when the inversion
    succeeds, the quaternions [Update] is about to normalize are those
    [PredictMeasurement] left. *)
Lemma beforeNormalize_certain (Inverse : DenseMatrix -> option DenseMatrix)
      (s : Ahrs.State.t) (m : Ahrs.Measurement.t) (B : DenseMatrix) :
  Ahrs.State.M s = Zeros 32 32 ->
  Inverse (innovationCovariance s m) = Some B ->
  exists s', Ahrs.beforeNormalize Inverse s m = Some s' /\
             quatE s' = quatE (Ahrs.normalize s) /\
             quatF s' = quatF (Ahrs.normalize s).
Proof.
  intros HM. unfold innovationCovariance, Ahrs.beforeNormalize.
  destruct (normalize_keeps s) as (_ & _ & _ & _ & _ & _ & _ & _ & _ & M & _).
  rewrite <- !(PredictMeasurement_state s). rewrite <- (PredictMeasurement_state s) in M.
  destruct (Ahrs.PredictMeasurement s) as [s1 z].
  cbn [fst] in *.
  destruct (Ahrs.gate m (Ahrs.innovation m z)) as [y mM].
  cbv zeta. cbn [Ahrs.Measurement.withM Ahrs.Measurement.M].
  intros ->. eexists. split; [reflexivity | ].
  destruct (correct_quaternions s1 (Ahrs.Measurement.withM m mM)
    (Product (Ahrs.State.M s1)
       (Product (Transpose (Ahrs.calcJacobianMeasurement s1)) B))
    (Ahrs.calcJacobianMeasurement s1)
    (Product (Product (Ahrs.State.M s1)
       (Product (Transpose (Ahrs.calcJacobianMeasurement s1)) B)) y))
    as (QE & QF).
  cbn [Ahrs.Measurement.withM] in QE, QF.
  rewrite QE, QF. unfold Get.
  rewrite !Product_zero_row
    by (intro k; rewrite M, HM; apply Product_zero_left).
  unfold quatE, quatF. split; repeat f_equal; ring.
Qed.

Lemma s_still_unit : normE2 s_still = 1 /\ normF2 s_still = 1.
Proof.
  unfold normE2, normF2, s_still.
  cbn [Ahrs.State.E0 Ahrs.State.E1 Ahrs.State.E2 Ahrs.State.E3
       Ahrs.State.F0 Ahrs.State.F1 Ahrs.State.F2 Ahrs.State.F3].
  split; ring.
Qed.

Lemma normF2_quatF (x y : Ahrs.State.t) :
  quatF x = quatF y -> normF2 x = normF2 y.
Proof.
  unfold quatF, normF2. intro H. injection H as -> -> -> ->. reflexivity.
Qed.

(** The certain state at rest, predicted to time 1, and updated with the
    all-valid measurement through the exact inverse. *)
Lemma quaternions_unit_after_step_witness :
  (normE2 (Ahrs.Predict s_still 1) = 1 /\
   normF2 (Ahrs.Predict s_still 1) = 1) /\
  (normE2 (Ahrs.state (Ahrs.Update exactInverse s_still m_valid)) = 1 /\
   normF2 (Ahrs.state (Ahrs.Update exactInverse s_still m_valid)) = 1).
Proof.
  destruct s_still_unit as (UE & UF).
  assert (NE : normE2 s_still <> 0) by (rewrite UE; lra).
  assert (NF : normF2 s_still <> 0) by (rewrite UF; lra).
  destruct certain_valid_invertible as (B & HB).
  destruct (beforeNormalize_certain exactInverse s_still m_valid B
              eq_refl HB) as (s' & HS & HE & HF).
  destruct (normalize_unit s_still) as (N1 & N2).
  destruct (quaternions_unit_after_step exactInverse s_still 1 m_valid s'
              NE NF) as (P & U).
  split; [exact P | apply U].
  - exact HS.
  - rewrite (normE2_quatE _ _ HE), (N1 NE). lra.
  - rewrite (normF2_quatF _ _ HF), (N2 NF). lra.
Defined.

(** The certain state at rest and the measurement whose noise matrix
    makes S singular. *)
Lemma Update_singular_leaves_state_witness :
  let r := Ahrs.Update exactInverse s_still m_coupled in
  scalars (Ahrs.state r) = scalars s_still /\
  Ahrs.State.T (Ahrs.state r) = Ahrs.State.T s_still /\
  Ahrs.State.M (Ahrs.state r) = Ahrs.State.M s_still /\
  Ahrs.logged r = [cannotInvert].
Proof.
  apply (Update_singular_leaves_state exactInverse s_still m_coupled).
  - exact (proj1 s_still_unit).
  - exact (proj2 s_still_unit).
  - exact certain_coupled_singular.
Defined.

(** What the gates do to an innovation [y] and to the noise matrix, row
    by row. *)
Lemma gate_rows (m : Ahrs.Measurement.t) (y : DenseMatrix) :
  let y' := fst (Ahrs.gate m y) in
  let r := snd (Ahrs.gate m y) in
  let gated (valid : bool) (small : R) (i : nat) :=
    Get r i i = (if valid then small else Ahrs.Big) /\
    Get y' i 0 = (if valid then Get y i 0 else 0) in
  gated (Ahrs.Measurement.UValid m) 2 0%nat /\
  (Get r 1 1 = 25 /\ Get y' 1 0 = Get y 1 0) /\
  (Get r 2 2 = 25 /\ Get y' 2 0 = Get y 2 0) /\
  Forall (gated (Ahrs.Measurement.WValid m) 0.2) [3; 4; 5]%nat /\
  Forall (gated (Ahrs.Measurement.SValid m) 0.2) [6; 7; 8]%nat /\
  Forall (gated (Ahrs.Measurement.SValid m) 1) [9; 10; 11]%nat /\
  Forall (gated (Ahrs.Measurement.MValid m) 5) [12; 13; 14]%nat.
Proof.
  cbv zeta. unfold Ahrs.gate.
  destruct (Ahrs.Measurement.UValid m), (Ahrs.Measurement.WValid m),
    (Ahrs.Measurement.SValid m), (Ahrs.Measurement.MValid m);
    cbv zeta;
    repeat (first [apply conj | apply Forall_cons | apply Forall_nil]);
    reflexivity.
Qed.

(** C6, as the code has it.  The gates of [Update] treat the sensor groups
    as follows ([y] is the innovation before the gates, [y'] after, [r] the
    noise matrix [Update] leaves in the measurement):
    - pitot: only row 0 follows [UValid] (variance 2, or [Big] with the
      innovation zeroed); rows 1 and 2 always get variance 25 and keep
      their innovation;
    - GPS rows 3-5 follow [WValid] (0.2, or [Big] and zero);
    - accelerometer rows 6-8 and gyro rows 9-11 follow [SValid] (0.2 and
      1, or [Big] and zero);
    - magnetometer rows 12-14 follow [MValid] (5, or [Big] and zero). *)
Theorem Update_gates_by_group
        (Inverse : DenseMatrix -> option DenseMatrix)
        (s : Ahrs.State.t) (m : Ahrs.Measurement.t) :
  let y := Ahrs.innovation m (snd (Ahrs.PredictMeasurement s)) in
  let y' := fst (Ahrs.gate m y) in
  let r := Ahrs.Measurement.M (Ahrs.meas (Ahrs.Update Inverse s m)) in
  let gated (valid : bool) (small : R) (i : nat) :=
    Get r i i = (if valid then small else Ahrs.Big) /\
    Get y' i 0 = (if valid then Get y i 0 else 0) in
  gated (Ahrs.Measurement.UValid m) 2 0%nat /\
  (Get r 1 1 = 25 /\ Get y' 1 0 = Get y 1 0) /\
  (Get r 2 2 = 25 /\ Get y' 2 0 = Get y 2 0) /\
  Forall (gated (Ahrs.Measurement.WValid m) 0.2) [3; 4; 5]%nat /\
  Forall (gated (Ahrs.Measurement.SValid m) 0.2) [6; 7; 8]%nat /\
  Forall (gated (Ahrs.Measurement.SValid m) 1) [9; 10; 11]%nat /\
  Forall (gated (Ahrs.Measurement.MValid m) 5) [12; 13; 14]%nat.
Proof.
  intros y y' r gated. subst gated r y'. cbv beta.
  rewrite Update_noise.
  exact (gate_rows m y).
Qed.

(** C6, counterexample.  With the pitot invalid, rows 1 and 2 of the pitot
    group are not given the sentinel and are not zeroed: [Update] leaves
    variance 25 (not [Big]) at (1,1), and the gates pass the lateral
    innovation through unchanged. *)
Lemma pitot_rows_not_gated :
  Ahrs.Measurement.UValid m_nopitot = false /\
  Get (Ahrs.Measurement.M
         (Ahrs.meas (Ahrs.Update exactInverse s_still m_nopitot))) 1 1 = 25 /\
  Get (Ahrs.Measurement.M
         (Ahrs.meas (Ahrs.Update exactInverse s_still m_nopitot))) 1 1
  <> Ahrs.Big /\
  Get (fst (Ahrs.gate m_nopitot y_lateral)) 1 0 = 1 /\
  Get (fst (Ahrs.gate m_nopitot y_lateral)) 1 0 <> 0.
Proof.
  assert (H1 : Get (Ahrs.Measurement.M
                      (Ahrs.meas (Ahrs.Update exactInverse s_still
                                    m_nopitot))) 1 1 = 25).
  { rewrite Update_noise.
    pose proof (gate_rows m_nopitot
                  (Ahrs.innovation m_nopitot
                     (snd (Ahrs.PredictMeasurement s_still)))) as H.
    cbv zeta in H. destruct H as (_ & (H & _) & _). exact H. }
  assert (G : Get (fst (Ahrs.gate m_nopitot y_lateral)) 1 0 = 1)
    by reflexivity.
  split; [reflexivity | ].
  split; [exact H1 | ].
  split; [rewrite H1; unfold Ahrs.Big; lra | ].
  split; [exact G | rewrite G; lra].
Qed.

(** ** Arc tangent of a quotient *)

Lemma sin_periodZ (x : R) (k : Z) : sin (x + 2 * IZR k * PI) = sin x.
Proof.
  destruct k as [ | p | p].
  - f_equal. simpl. ring.
  - replace (IZR (Z.pos p)) with (INR (Pos.to_nat p))
      by (rewrite INR_IZR_INZ, positive_nat_Z; reflexivity).
    apply sin_period.
  - rewrite <- (sin_period (x + 2 * IZR (Z.neg p) * PI) (Pos.to_nat p)).
    f_equal.
    replace (INR (Pos.to_nat p)) with (IZR (Z.pos p))
      by (rewrite INR_IZR_INZ, positive_nat_Z; reflexivity).
    change (Z.neg p) with (- Z.pos p)%Z. rewrite opp_IZR. ring.
Qed.

Lemma cos_periodZ (x : R) (k : Z) : cos (x + 2 * IZR k * PI) = cos x.
Proof.
  destruct k as [ | p | p].
  - f_equal. simpl. ring.
  - replace (IZR (Z.pos p)) with (INR (Pos.to_nat p))
      by (rewrite INR_IZR_INZ, positive_nat_Z; reflexivity).
    apply cos_period.
  - rewrite <- (cos_period (x + 2 * IZR (Z.neg p) * PI) (Pos.to_nat p)).
    f_equal.
    replace (INR (Pos.to_nat p)) with (IZR (Z.pos p))
      by (rewrite INR_IZR_INZ, positive_nat_Z; reflexivity).
    change (Z.neg p) with (- Z.pos p)%Z. rewrite opp_IZR. ring.
Qed.

(** Every angle has a representative in (-PI, PI]. *)
Lemma principal_angle (a : R) :
  exists k : Z, - PI < a + 2 * IZR k * PI <= PI.
Proof.
  pose proof PI_RGT_0 as HPI.
  set (u := (PI - a) / (2 * PI)).
  exists (Zfloor u).
  destruct (Zfloor_bound u) as (Hl & Hu).
  assert (E : a = PI - u * (2 * PI)) by (unfold u; field; lra).
  split.
  - assert (IZR (Zfloor u) * (2 * PI) > (u - 1) * (2 * PI)) by nra. nra.
  - assert (IZR (Zfloor u) * (2 * PI) <= u * (2 * PI)) by nra. nra.
Qed.

(** The range of [Atan2]. *)
Lemma Atan2_range (y x : R) : - PI < GoMath.Atan2 y x <= PI.
Proof.
  pose proof PI_RGT_0 as HPI.
  unfold GoMath.Atan2.
  destruct (Req_dec_T y 0).
  - destruct (Rle_dec 0 x); lra.
  - destruct (Req_dec_T x 0).
    + destruct (Rlt_dec 0 y); lra.
    + pose proof (atan_bound (y / x)) as (Hl & Hu). cbv zeta.
      destruct (Rlt_dec x 0).
      * destruct (Rle_dec (atan (y / x)) 0); lra.
      * lra.
Qed.

(** On (-PI, PI], the sine vanishes at 0 and PI only. *)
Lemma sin_zero_principal (a : R) :
  - PI < a <= PI -> sin a = 0 -> a = 0 \/ a = PI.
Proof.
  intros (Hl & Hu) Hs.
  destruct (Rlt_dec a 0) as [Hn | Hn].
  - pose proof (sin_lt_0_var a Hl Hn). lra.
  - destruct (Req_dec_T a 0) as [ | H0]; [now left | ].
    destruct (Req_dec_T a PI) as [ | HP]; [now right | ].
    assert (0 < sin a) by (apply sin_gt_0; lra). lra.
Qed.

(** On (-PI, PI], the sign of the cosine places the angle. *)
Lemma cos_pos_principal (a : R) :
  - PI < a <= PI -> 0 < cos a -> - (PI / 2) < a < PI / 2.
Proof.
  intros (Hl & Hu) Hc. pose proof PI_RGT_0 as HPI.
  split.
  - destruct (Rlt_dec (- (PI / 2)) a) as [ | Hn]; [assumption | ].
    assert (cos (- a) <= 0) by (apply cos_le_0; lra).
    rewrite cos_neg in *. lra.
  - destruct (Rlt_dec a (PI / 2)) as [ | Hn]; [assumption | ].
    assert (cos a <= 0) by (apply cos_le_0; lra). lra.
Qed.

Lemma cos_neg_principal (a : R) :
  - PI < a <= PI -> cos a < 0 -> PI / 2 < a \/ a < - (PI / 2).
Proof.
  intros (Hl & Hu) Hc. pose proof PI_RGT_0 as HPI.
  destruct (Rlt_dec (PI / 2) a) as [ | H1]; [now left | ].
  destruct (Rlt_dec a (- (PI / 2))) as [ | H2]; [now right | ].
  destruct (Req_dec_T a (PI / 2)) as [-> | H3].
  { rewrite cos_PI2 in Hc. lra. }
  destruct (Req_dec_T a (- (PI / 2))) as [-> | H4].
  { rewrite cos_neg, cos_PI2 in Hc. lra. }
  assert (0 < cos a) by (apply cos_gt_0; lra). lra.
Qed.

Lemma cos_zero_principal (a : R) :
  - PI < a <= PI -> cos a = 0 -> a = PI / 2 \/ a = - (PI / 2).
Proof.
  intros (Hl & Hu) Hc. pose proof PI_RGT_0 as HPI.
  destruct (Req_dec_T a (PI / 2)) as [ | H1]; [now left | ].
  destruct (Req_dec_T a (- (PI / 2))) as [ | H2]; [now right | ].
  destruct (Rlt_dec a (- (PI / 2))) as [H3 | H3].
  { assert (cos (- a) < 0) by (apply cos_lt_0; lra).
    rewrite cos_neg in *. lra. }
  destruct (Rlt_dec (PI / 2) a) as [H4 | H4].
  { assert (cos a < 0) by (apply cos_lt_0; lra). lra. }
  assert (0 < cos a) by (apply cos_gt_0; lra). lra.
Qed.

Lemma tan_shift_PI (a : R) : tan (a + PI) = tan a.
Proof.
  unfold tan. rewrite neg_sin, neg_cos.
  destruct (Req_dec_T (cos a) 0) as [E | E].
  - rewrite E. unfold Rdiv. rewrite Ropp_0, Rinv_0. ring.
  - field. exact E.
Qed.

(** [Atan2] recovers the angle of a point given in polar form, when the
    angle is the principal one. *)
Lemma Atan2_polar (r a : R) :
  0 < r -> - PI < a <= PI ->
  GoMath.Atan2 (r * sin a) (r * cos a) = a.
Proof.
  intros Hr Ha. pose proof PI_RGT_0 as HPI.
  unfold GoMath.Atan2.
  destruct (Req_dec_T (r * sin a) 0) as [Hy | Hy].
  - assert (Hs : sin a = 0) by nra.
    destruct (sin_zero_principal a Ha Hs) as [-> | ->].
    + rewrite cos_0. destruct (Rle_dec 0 _); [reflexivity | lra].
    + rewrite cos_PI. destruct (Rle_dec 0 _); [lra | reflexivity].
  - assert (Hs : sin a <> 0) by (intro E; apply Hy; rewrite E; ring).
    destruct (Req_dec_T (r * cos a) 0) as [Hx | Hx].
    + assert (Hc : cos a = 0) by nra.
      destruct (cos_zero_principal a Ha Hc) as [-> | ->].
      * rewrite sin_PI2. destruct (Rlt_dec 0 _); [reflexivity | lra].
      * rewrite sin_neg, sin_PI2.
        destruct (Rlt_dec 0 _); [lra | reflexivity].
    + assert (Hc : cos a <> 0) by (intro E; apply Hx; rewrite E; ring).
      assert (Ht : r * sin a / (r * cos a) = tan a)
        by (unfold tan; field; split; [assumption | lra]).
      cbv zeta. rewrite Ht.
      destruct (Rlt_dec (r * cos a) 0) as [Hn | Hn].
      * assert (Hc' : cos a < 0) by nra.
        destruct (cos_neg_principal a Ha Hc') as [Hbig | Hsmall].
        -- replace (tan a) with (tan (a - PI))
             by (rewrite <- (tan_shift_PI (a - PI)); f_equal; ring).
           rewrite atan_tan by lra.
           destruct (Rle_dec (a - PI) 0); lra.
        -- rewrite <- (tan_shift_PI a).
           rewrite atan_tan by lra.
           destruct (Rle_dec (a + PI) 0); lra.
      * assert (Hc' : 0 < cos a) by nra.
        apply atan_tan. now apply cos_pos_principal.
Qed.

(** [Atan2] recovers the angle of a point in polar form up to a whole
    number of turns. *)
Lemma Atan2_polar_mod (r a : R) :
  0 < r ->
  exists k : Z, GoMath.Atan2 (r * sin a) (r * cos a) = a + 2 * IZR k * PI.
Proof.
  intro Hr. destruct (principal_angle a) as (k & Hk).
  exists k.
  rewrite <- (sin_periodZ a k), <- (cos_periodZ a k).
  now apply Atan2_polar.
Qed.

(** ** Quaternions and Tait-Bryan angles *)

(** The products [FromQuaternion] forms, for the quaternion [ToQuaternion]
    builds from half-angle sines and cosines. *)
Lemma half_angle_products (ca sa cb sb cc sc : R) :
  sa * sa + ca * ca = 1 -> sb * sb + cb * cb = 1 -> sc * sc + cc * cc = 1 ->
  let q0 := ca * cb * cc - sa * sb * sc in
  let q1 := sa * cb * cc + ca * sb * sc in
  let q2 := ca * sb * cc - sa * cb * sc in
  let q3 := ca * cb * sc + sa * sb * cc in
  q0 * q0 + q1 * q1 + q2 * q2 + q3 * q3 = 1 /\
  -2 * (q0 * q1 - q2 * q3) = (cb * cb - sb * sb) * - (2 * sa * ca) /\
  q0 * q0 - q1 * q1 - q2 * q2 + q3 * q3
  = (cb * cb - sb * sb) * (ca * ca - sa * sa) /\
  2 * (q0 * q2 + q3 * q1) = 2 * sb * cb /\
  2 * (q0 * q3 - q1 * q2) = (cb * cb - sb * sb) * (2 * sc * cc) /\
  q0 * q0 + q1 * q1 - q2 * q2 - q3 * q3
  = (cb * cb - sb * sb) * (cc * cc - sc * sc).
Proof.
  intros Ha Hb Hc q0 q1 q2 q3. subst q0 q1 q2 q3.
  repeat split.
  - transitivity ((sa * sa + ca * ca) * (sb * sb + cb * cb)
                  * (sc * sc + cc * cc)); [ring | rewrite Ha, Hb, Hc; ring].
  - transitivity ((cb * cb - sb * sb) * - (2 * sa * ca)
                  * (sc * sc + cc * cc)); [ring | rewrite Hc; ring].
  - transitivity ((cb * cb - sb * sb) * (ca * ca - sa * sa)
                  * (sc * sc + cc * cc)); [ring | rewrite Hc; ring].
  - transitivity (2 * sb * cb * (sa * sa + ca * ca) * (sc * sc + cc * cc));
      [ring | rewrite Ha, Hc; ring].
  - transitivity ((cb * cb - sb * sb) * (2 * sc * cc)
                  * (sa * sa + ca * ca)); [ring | rewrite Ha; ring].
  - transitivity ((cb * cb - sb * sb) * (cc * cc - sc * sc)
                  * (sa * sa + ca * ca)); [ring | rewrite Ha; ring].
Qed.

Lemma sin_cos_unit (x : R) : sin x * sin x + cos x * cos x = 1.
Proof. pose proof (sin2_cos2 x) as H. unfold Rsqr in H. exact H. Qed.

Lemma sin_double_half (x : R) : 2 * sin (x / 2) * cos (x / 2) = sin x.
Proof. rewrite <- sin_2a. f_equal. field. Qed.

Lemma cos_double_half (x : R) :
  cos (x / 2) * cos (x / 2) - sin (x / 2) * sin (x / 2) = cos x.
Proof. rewrite <- cos_2a. f_equal. field. Qed.

(** The quaternion of [ToQuaternion], through the products that
    [FromQuaternion] forms: it is a unit quaternion, and the products are
    the sines and cosines of the three angles, scaled by [cos theta]. *)
Lemma ToQuaternion_products (phi theta psi : R) :
  let '(q0, q1, q2, q3) := Sim.ToQuaternion phi theta psi in
  q0 * q0 + q1 * q1 + q2 * q2 + q3 * q3 = 1 /\
  -2 * (q0 * q1 - q2 * q3) = cos theta * sin phi /\
  q0 * q0 - q1 * q1 - q2 * q2 + q3 * q3 = cos theta * cos phi /\
  2 * (q0 * q2 + q3 * q1) = sin theta /\
  2 * (q0 * q3 - q1 * q2) = cos theta * sin (psi - PI / 2) /\
  q0 * q0 + q1 * q1 - q2 * q2 - q3 * q3 = cos theta * cos (psi - PI / 2).
Proof.
  unfold Sim.ToQuaternion, Sim.pi. cbv zeta.
  destruct (half_angle_products
              (cos (- phi / 2)) (sin (- phi / 2))
              (cos (theta / 2)) (sin (theta / 2))
              (cos ((psi - PI / 2) / 2)) (sin ((psi - PI / 2) / 2))
              (sin_cos_unit _) (sin_cos_unit _) (sin_cos_unit _))
    as (H1 & H2 & H3 & H4 & H5 & H6).
  cbv zeta in H1, H2, H3, H4, H5, H6.
  rewrite H1, H2, H3, H4, H5, H6.
  rewrite !cos_double_half, !sin_double_half.
  rewrite sin_neg, cos_neg.
  repeat split; ring.
Qed.

(** [FromQuaternion] on a unit quaternion whose products are given in
    polar form with a positive radius [c] and principal angles. *)
Lemma FromQuaternion_polar (q0 q1 q2 q3 c a b d : R) :
  q0 * q0 + q1 * q1 + q2 * q2 + q3 * q3 = 1 ->
  -2 * (q0 * q1 - q2 * q3) = c * sin a ->
  q0 * q0 - q1 * q1 - q2 * q2 + q3 * q3 = c * cos a ->
  2 * (q0 * q2 + q3 * q1) = sin b ->
  2 * (q0 * q3 - q1 * q2) = c * sin d ->
  q0 * q0 + q1 * q1 - q2 * q2 - q3 * q3 = c * cos d ->
  0 < c -> - PI < a <= PI -> - (PI / 2) <= b <= PI / 2 -> - PI < d <= PI ->
  Sim.FromQuaternion q0 q1 q2 q3
  = (a, b, if Rlt_dec (PI / 2 + d) (-1e-4) then PI / 2 + d + 2 * PI
           else PI / 2 + d).
Proof.
  intros H1 H2 H3 H4 H5 H6 Hc Ha Hb Hd.
  unfold Sim.FromQuaternion, Sim.pi, GoMath.Asin. cbv zeta.
  rewrite H1, H2, H3, H4, H5, H6, sqrt_1.
  rewrite !Atan2_polar by assumption.
  unfold Rdiv at 1. rewrite Rinv_1, Rmult_1_r, asin_sin by assumption.
  reflexivity.
Qed.

(** C7.  For a pitch strictly between -PI/2 and PI/2, [FromQuaternion]
    applied to the quaternion of [ToQuaternion] returns the pitch itself,
    and the roll and the heading up to a whole number of turns. *)
Theorem FromQuaternion_ToQuaternion (phi theta psi : R) :
  - (PI / 2) < theta < PI / 2 ->
  let '(q0, q1, q2, q3) := Sim.ToQuaternion phi theta psi in
  let '(phi', theta', psi') := Sim.FromQuaternion q0 q1 q2 q3 in
  congruent phi' phi /\ theta' = theta /\ congruent psi' psi.
Proof.
  intros (Hl & Hu).
  pose proof (ToQuaternion_products phi theta psi) as HP.
  destruct (Sim.ToQuaternion phi theta psi) as [[[q0 q1] q2] q3].
  destruct HP as (H1 & H2 & H3 & H4 & H5 & H6).
  destruct (principal_angle phi) as (k1 & Hk1).
  destruct (principal_angle (psi - PI / 2)) as (k3 & Hk3).
  rewrite <- (sin_periodZ phi k1) in H2.
  rewrite <- (cos_periodZ phi k1) in H3.
  rewrite <- (sin_periodZ (psi - PI / 2) k3) in H5.
  rewrite <- (cos_periodZ (psi - PI / 2) k3) in H6.
  assert (Hc : 0 < cos theta) by (apply cos_gt_0; assumption).
  rewrite (FromQuaternion_polar q0 q1 q2 q3 (cos theta) _ theta _
             H1 H2 H3 H4 H5 H6 Hc Hk1 (conj (Rlt_le _ _ Hl) (Rlt_le _ _ Hu))
             Hk3).
  split; [ | split].
  - exists k1. reflexivity.
  - reflexivity.
  - destruct (Rlt_dec _ _).
    + exists (k3 + 1)%Z. rewrite plus_IZR. ring.
    + exists k3. ring.
Qed.

(** Level flight heading north: roll, pitch and heading all zero. *)
Lemma FromQuaternion_ToQuaternion_witness :
  let '(q0, q1, q2, q3) := Sim.ToQuaternion 0 0 0 in
  let '(phi', theta', psi') := Sim.FromQuaternion q0 q1 q2 q3 in
  congruent phi' 0 /\ theta' = 0 /\ congruent psi' 0.
Proof.
  apply (FromQuaternion_ToQuaternion 0 0 0).
  pose proof PI_RGT_0. split; lra.
Defined.

(** C9, as the code has it.  The heading [FromQuaternion] returns lies in
    [-1e-4, 2.PI): the code adds a turn only when the angle is below
    -1e-4, so headings between -1e-4 and 0 are returned as they are. *)
Theorem FromQuaternion_heading_range (q0 q1 q2 q3 : R) :
  -1e-4 <= heading q0 q1 q2 q3 < 2 * PI.
Proof.
  pose proof PI_RGT_0 as HPI.
  unfold heading, Sim.FromQuaternion, Sim.pi. cbv zeta. cbn [snd].
  destruct (Atan2_range (2 * (q0 * q3 - q1 * q2))
              (q0 * q0 + q1 * q1 - q2 * q2 - q3 * q3)) as (Hl & Hu).
  destruct (Rlt_dec _ _); lra.
Qed.

(** C9, counterexample.  The unit quaternion of level flight with heading
    -1/20000 rad: [FromQuaternion] returns the heading -1/20000, which is
    below zero. *)
Lemma heading_below_zero :
  let '(q0, q1, q2, q3) := Sim.ToQuaternion 0 0 (- (1 / 20000)) in
  0 < q0 * q0 + q1 * q1 + q2 * q2 + q3 * q3 /\
  heading q0 q1 q2 q3 = - (1 / 20000) /\
  ~ (0 <= heading q0 q1 q2 q3 < 2 * PI).
Proof.
  pose proof PI_RGT_0 as HPI.
  pose proof PI2_1 as HPI2.
  pose proof (ToQuaternion_products 0 0 (- (1 / 20000))) as HP.
  destruct (Sim.ToQuaternion 0 0 (- (1 / 20000))) as [[[q0 q1] q2] q3].
  destruct HP as (H1 & H2 & H3 & H4 & H5 & H6).
  assert (Hc : 0 < cos 0) by (rewrite cos_0; lra).
  assert (Hh : heading q0 q1 q2 q3 = - (1 / 20000)).
  { unfold heading.
    rewrite (FromQuaternion_polar q0 q1 q2 q3 (cos 0) 0 0
               (- (1 / 20000) - PI / 2) H1 H2 H3 H4 H5 H6 Hc)
      by (split; lra).
    cbn [snd]. destruct (Rlt_dec _ _); lra. }
  split; [lra | split; [exact Hh | ] ].
  rewrite Hh. lra.
Qed.

(** ** Binary search *)

(** The loop of [sort.Search]: with enough fuel it stops with [i = j] at
    the least index where [f] holds, for [f] monotone below [n]. *)
Lemma searchLoop_least (n : nat) (f : nat -> bool) :
  (forall k k', (k <= k' < n)%nat -> f k = true -> f k' = true) ->
  forall fuel i j : nat,
    (i <= j <= n)%nat -> (j - i <= fuel)%nat ->
    (forall k, (k < i)%nat -> f k = false) ->
    (forall k, (j <= k < n)%nat -> f k = true) ->
    let r := GoMath.searchLoop fuel i j f in
    (r <= n)%nat /\
    (forall k, (k < r)%nat -> f k = false) /\
    (forall k, (r <= k < n)%nat -> f k = true).
Proof.
  intro Hmono.
  induction fuel as [ | fuel IH]; intros i j Hij Hfuel Hlo Hhi r; subst r.
  - cbn [GoMath.searchLoop]. assert (i = j) by lia. subst j.
    split; [lia | split; assumption].
  - cbn [GoMath.searchLoop]. destruct (Nat.ltb_spec i j) as [Hlt | Hge].
    + assert (Hh : (i <= Nat.div (i + j) 2 < j)%nat).
      { split.
        - apply Nat.div_le_lower_bound; lia.
        - apply Nat.Div0.div_lt_upper_bound; lia. }
      set (h := Nat.div (i + j) 2) in *.
      destruct (f h) eqn:Hfh; cbn [negb].
      * apply (IH i h); try lia; try assumption.
        intros k Hk. destruct (Nat.lt_ge_cases k j) as [Hkj | Hkj].
        -- apply (Hmono h k); [lia | exact Hfh].
        -- apply Hhi. lia.
      * apply (IH (h + 1)%nat j); try lia; try assumption.
        intros k Hk. destruct (f k) eqn:Hfk; [ | reflexivity].
        rewrite (Hmono k h) in Hfh; [discriminate | lia | exact Hfk].
    + assert (i = j) by lia. subst j.
      split; [lia | split; assumption].
Qed.

Lemma Search_least (n : nat) (f : nat -> bool) :
  (forall k k', (k <= k' < n)%nat -> f k = true -> f k' = true) ->
  let r := GoMath.Search n f in
  (r <= n)%nat /\
  (forall k, (k < r)%nat -> f k = false) /\
  (forall k, (r <= k < n)%nat -> f k = true).
Proof.
  intro Hmono. unfold GoMath.Search.
  apply (searchLoop_least n f Hmono); lia.
Qed.

(** On ascending times, [SearchFloat64s] brackets a query that lies above
    the first time and not above the last. *)
Lemma SearchFloat64s_bracket (a : list R) (x : R) :
  ascending a ->
  (1 <= List.length a)%nat ->
  nth 0 a 0 < x -> x <= nth (List.length a - 1) a 0 ->
  let r := GoMath.SearchFloat64s a x in
  (1 <= r < List.length a)%nat /\ nth (r - 1) a 0 < x <= nth r a 0.
Proof.
  intros Hasc Hlen Hfirst Hlast r.
  set (f := fun i => if Rle_dec x (nth i a 0) then true else false).
  assert (Hmono : forall k k', (k <= k' < List.length a)%nat ->
                               f k = true -> f k' = true).
  { intros k k' Hk. unfold f.
    destruct (Rle_dec x (nth k a 0)) as [Hx | ]; [ | discriminate].
    intros _. pose proof (Hasc k k' Hk).
    destruct (Rle_dec x (nth k' a 0)); [reflexivity | lra]. }
  destruct (Search_least (List.length a) f Hmono) as (Hr & Hlo & Hhi).
  change (GoMath.Search (List.length a) f) with r in Hr, Hlo, Hhi.
  clearbody r.
  assert (H0 : f 0%nat = false).
  { unfold f. destruct (Rle_dec x (nth 0 a 0)); [lra | reflexivity]. }
  assert (Hn : f (List.length a - 1)%nat = true).
  { unfold f. destruct (Rle_dec x (nth (List.length a - 1) a 0));
      [reflexivity | lra]. }
  assert (R1 : (1 <= r)%nat).
  { destruct r as [ | r']; [ | lia].
    rewrite (Hhi 0%nat) in H0 by lia. discriminate. }
  assert (R2 : (r < List.length a)%nat).
  { destruct (Nat.lt_ge_cases r (List.length a)) as [ | Hge]; [assumption | ].
    rewrite (Hlo (List.length a - 1)%nat) in Hn by lia. discriminate. }
  split; [lia | ].
  pose proof (Hlo (r - 1)%nat ltac:(lia)) as Hbelow.
  pose proof (Hhi r ltac:(lia)) as Hat.
  unfold f in Hbelow, Hat.
  destruct (Rle_dec x (nth (r - 1) a 0)); [discriminate | ].
  destruct (Rle_dec x (nth r a 0)); [ | discriminate].
  lra.
Qed.

(** ** The simulator queries *)

Lemma index_nth (a : list R) (i : nat) :
  (i < List.length a)%nat -> Sim.index a (Z.of_nat i) = Sim.Returns (nth i a 0).
Proof.
  intro H. unfold Sim.index.
  destruct (Z.ltb_spec (Z.of_nat i) 0) as [Hneg | _]; [lia | ].
  rewrite Nat2Z.id.
  destruct (nth_error a i) as [v | ] eqn:E.
  - f_equal. symmetry. now apply nth_error_nth.
  - apply nth_error_None in E. lia.
Qed.

Lemma index_beyond (a : list R) (i : nat) :
  (List.length a <= i)%nat -> Sim.index a (Z.of_nat i) = Sim.Panics.
Proof.
  intro H. unfold Sim.index.
  destruct (Z.ltb_spec (Z.of_nat i) 0) as [Hneg | _]; [lia | ].
  rewrite Nat2Z.id.
  destruct (nth_error a i) as [v | ] eqn:E; [ | reflexivity].
  assert (nth_error a i <> None) by congruence.
  apply nth_error_Some in H0. lia.
Qed.

Lemma index_succ (a : list R) (i : nat) :
  (S i < List.length a)%nat ->
  Sim.index a (Z.of_nat i + 1) = Sim.Returns (nth (S i) a 0).
Proof.
  intro H. replace (Z.of_nat i + 1)%Z with (Z.of_nat (S i)) by lia.
  now apply index_nth.
Qed.

Lemma index_last (a : list R) :
  a <> [] ->
  Sim.index a (Sim.len a - 1)
  = Sim.Returns (nth (List.length a - 1) a 0).
Proof.
  intro H. unfold Sim.len.
  assert (1 <= List.length a)%nat by (destruct a; [congruence | simpl; lia]).
  replace (Z.of_nat (List.length a) - 1)%Z
    with (Z.of_nat (List.length a - 1)) by lia.
  apply index_nth. lia.
Qed.

Lemma index_first (a : list R) :
  a <> [] -> Sim.index a 0 = Sim.Returns (nth 0 a 0).
Proof.
  intro H. apply (index_nth a 0).
  destruct a; [congruence | simpl; lia].
Qed.

(** The guard that opens the three queries. *)
Lemma outOfRange_spec (s : Sim.Situation) (t' : R) :
  Sim.t s <> [] ->
  Sim.outOfRange s t'
  = Sim.Returns (if Rlt_dec t' (firstTime s) then true
                 else if Rlt_dec (lastTime s) t' then true else false).
Proof.
  intro H. unfold Sim.outOfRange, firstTime, lastTime.
  rewrite (index_first _ H). cbn [Sim.bind].
  destruct (Rlt_dec t' (nth 0 (Sim.t s) 0)); [reflexivity | ].
  rewrite (index_last _ H). reflexivity.
Qed.

Lemma outOfRange_outside (s : Sim.Situation) (t' : R) :
  Sim.t s <> [] ->
  t' < firstTime s \/ lastTime s < t' ->
  Sim.outOfRange s t' = Sim.Returns true.
Proof.
  intros H Hout. rewrite (outOfRange_spec s t' H).
  destruct (Rlt_dec t' (firstTime s)); [reflexivity | ].
  destruct (Rlt_dec (lastTime s) t'); [reflexivity | lra].
Qed.

Lemma outOfRange_inside (s : Sim.Situation) (t' : R) :
  Sim.t s <> [] ->
  firstTime s <= t' <= lastTime s ->
  Sim.outOfRange s t' = Sim.Returns false.
Proof.
  intros H Hin. rewrite (outOfRange_spec s t' H).
  destruct (Rlt_dec t' (firstTime s)); [lra | ].
  destruct (Rlt_dec (lastTime s) t'); [lra | reflexivity].
Qed.

Lemma lerp_nth (f : R) (a : list R) (ix : nat) :
  (S ix < List.length a)%nat ->
  Sim.lerp f a (Z.of_nat ix)
  = Sim.Returns (f * nth ix a 0 + (1 - f) * nth (S ix) a 0).
Proof.
  intro H. unfold Sim.lerp.
  rewrite index_nth by lia. cbn [Sim.bind].
  rewrite index_succ by lia. reflexivity.
Qed.

(** The source's [f*a[ix] + (1-f)*a[ix+1]] is the linear interpolation. *)
Lemma lerp_linear (s : Sim.Situation) (a : list R) (ix : nat) (t' : R) :
  nth (S ix) (Sim.t s) 0 - nth ix (Sim.t s) 0 <> 0 ->
  let f := (nth (S ix) (Sim.t s) 0 - t')
           / (nth (S ix) (Sim.t s) 0 - nth ix (Sim.t s) 0) in
  f * nth ix a 0 + (1 - f) * nth (S ix) a 0 = linear s a ix t'.
Proof. intros H f. subst f. unfold linear. field. exact H. Qed.

(** The keyframe [interpolate] starts from: 0 at the first time, the one
    before the index [SearchFloat64s] finds otherwise. *)
Lemma keyframe_bracket (s : Sim.Situation) (t' : R) :
  (2 <= List.length (Sim.t s))%nat ->
  ascending (Sim.t s) ->
  nth 0 (Sim.t s) 0 < nth 1 (Sim.t s) 0 ->
  firstTime s <= t' <= lastTime s ->
  exists ix : nat,
    (if Rlt_dec (nth 0 (Sim.t s) 0) t'
     then (Z.of_nat (GoMath.SearchFloat64s (Sim.t s) t') - 1)%Z
     else 0%Z) = Z.of_nat ix /\
    (S ix < List.length (Sim.t s))%nat /\
    nth ix (Sim.t s) 0 <= t' <= nth (S ix) (Sim.t s) 0 /\
    nth ix (Sim.t s) 0 < nth (S ix) (Sim.t s) 0.
Proof.
  intros Hlen Hasc H01 (Hlo & Hhi). unfold firstTime, lastTime in *.
  destruct (Rlt_dec (nth 0 (Sim.t s) 0) t') as [Hgt | Hle].
  - destruct (SearchFloat64s_bracket (Sim.t s) t' Hasc ltac:(lia) Hgt Hhi)
      as ((R1 & R2) & (B1 & B2)).
    set (r := GoMath.SearchFloat64s (Sim.t s) t') in *. clearbody r.
    exists (r - 1)%nat.
    replace (S (r - 1)) with r by lia.
    split; [lia | split; [lia | split; lra] ].
  - exists 0%nat. split; [reflexivity | split; [lia | split; lra] ].
Qed.

(** Outside the scenario all three queries return the error and a zero
    value. *)
Lemma queries_outside (s : Sim.Situation) (t' : R) :
  Sim.t s <> [] ->
  t' < firstTime s \/ lastTime s < t' ->
  Sim.interpolate s t' = Sim.Returns (Sim.State.zero, Some Sim.outside) /\
  Sim.derivative s t' = Sim.Returns (Sim.State.zero, Some Sim.outside) /\
  Sim.measurement s t'
  = Sim.Returns (Sim.Measurement.zero, Some Sim.outside).
Proof.
  intros H Hout.
  unfold Sim.interpolate, Sim.derivative, Sim.measurement.
  rewrite (outOfRange_outside s t' H Hout). cbn [Sim.bind].
  repeat split.
Qed.

Lemma wellFormed_lengths (s : Sim.Situation) :
  wellFormed s ->
  forall a, In a [ Sim.u1 s; Sim.u2 s; Sim.u3 s; Sim.phi s; Sim.theta s;
                   Sim.psi s; Sim.phi0 s; Sim.theta0 s; Sim.psi0 s;
                   Sim.v1 s; Sim.v2 s; Sim.v3 s;
                   Sim.m1 s; Sim.m2 s; Sim.m3 s ] ->
            List.length a = List.length (Sim.t s).
Proof. intros H a Ha. unfold wellFormed in H. rewrite Forall_forall in H. auto. Qed.

(** Dividing the quaternion of [ToQuaternion] by its length changes
    nothing: the length is 1. *)
Lemma ToQuaternion_normalized (phi theta psi : R) :
  let '(e0, e1, e2, e3) := Sim.ToQuaternion phi theta psi in
  let ee := sqrt (e0 * e0 + e1 * e1 + e2 * e2 + e3 * e3) in
  (e0 / ee, e1 / ee, e2 / ee, e3 / ee) = (e0, e1, e2, e3).
Proof.
  pose proof (ToQuaternion_products phi theta psi) as H.
  destruct (Sim.ToQuaternion phi theta psi) as [[[e0 e1] e2] e3].
  destruct H as (H1 & _). cbv zeta. rewrite H1, sqrt_1.
  unfold Rdiv. rewrite Rinv_1, !Rmult_1_r. reflexivity.
Qed.

(** Inside the scenario [interpolate] returns the state interpolated
    between the two keyframes that bracket the query. *)
Lemma interpolate_inside (s : Sim.Situation) (t' : R) :
  wellFormed s ->
  (2 <= List.length (Sim.t s))%nat ->
  ascending (Sim.t s) ->
  nth 0 (Sim.t s) 0 < nth 1 (Sim.t s) 0 ->
  firstTime s <= t' <= lastTime s ->
  exists ix : nat,
    (S ix < List.length (Sim.t s))%nat /\
    nth ix (Sim.t s) 0 <= t' <= nth (S ix) (Sim.t s) 0 /\
    nth ix (Sim.t s) 0 < nth (S ix) (Sim.t s) 0 /\
    Sim.interpolate s t' = Sim.Returns (interpolated s ix t', None).
Proof.
  intros Hwf Hlen Hasc H01 Hin.
  assert (Hne : Sim.t s <> []).
  { intro E. rewrite E in Hlen. simpl in Hlen. lia. }
  destruct (keyframe_bracket s t' Hlen Hasc H01 Hin)
    as (ix & Hix & Hs & Hb & Hlt).
  exists ix. split; [exact Hs | split; [exact Hb | split; [exact Hlt | ] ] ].
  assert (Hd : nth (S ix) (Sim.t s) 0 - nth ix (Sim.t s) 0 <> 0) by lra.
  pose proof (wellFormed_lengths s Hwf) as HL.
  unfold Sim.interpolate.
  rewrite (outOfRange_inside s t' Hne Hin). cbn [Sim.bind].
  rewrite (index_first _ Hne). cbn [Sim.bind]. cbv zeta.
  rewrite Hix.
  rewrite index_succ by exact Hs. cbn [Sim.bind].
  rewrite index_nth by lia. cbn [Sim.bind].
  unfold Sim.quotient.
  destruct (Req_dec_T _ 0) as [E | _]; [contradiction | ].
  cbn [Sim.bind].
  rewrite !lerp_nth by (rewrite HL; [exact Hs | simpl; tauto]).
  cbn [Sim.bind].
  rewrite !(lerp_linear s _ ix t' Hd).
  unfold interpolated.
  pose proof (ToQuaternion_normalized (linear s (Sim.phi s) ix t')
                (linear s (Sim.theta s) ix t')
                (linear s (Sim.psi s) ix t')) as HE.
  pose proof (ToQuaternion_normalized (linear s (Sim.phi0 s) ix t')
                (linear s (Sim.theta0 s) ix t')
                (linear s (Sim.psi0 s) ix t')) as HF.
  destruct (Sim.ToQuaternion (linear s (Sim.phi s) ix t')
              (linear s (Sim.theta s) ix t')
              (linear s (Sim.psi s) ix t')) as [[[e0 e1] e2] e3].
  destruct (Sim.ToQuaternion (linear s (Sim.phi0 s) ix t')
              (linear s (Sim.theta0 s) ix t')
              (linear s (Sim.psi0 s) ix t')) as [[[f0 f1] f2] f3].
  cbv zeta in HE, HF.
  injection HE as -> -> -> ->. injection HF as -> -> -> ->.
  reflexivity.
Qed.

(** C8, as the code has it.  For a Situation with at least one keyframe,
    a query before the first or after the last keyframe time makes
    [interpolate], [derivative] and [measurement] return the error and a
    zero value.  For a query inside the range, [interpolate] returns the
    state interpolated linearly between two adjacent keyframes that
    bracket the query, provided the Situation has at least two keyframes,
    every array has one entry per keyframe, the times are in
    non-decreasing order and the first two times differ. *)
Theorem Situation_queries (s : Sim.Situation) (t' : R) :
  Sim.t s <> [] ->
  (t' < firstTime s \/ lastTime s < t' ->
   Sim.interpolate s t' = Sim.Returns (Sim.State.zero, Some Sim.outside) /\
   Sim.derivative s t' = Sim.Returns (Sim.State.zero, Some Sim.outside) /\
   Sim.measurement s t'
   = Sim.Returns (Sim.Measurement.zero, Some Sim.outside)) /\
  (wellFormed s ->
   (2 <= List.length (Sim.t s))%nat ->
   ascending (Sim.t s) ->
   nth 0 (Sim.t s) 0 < nth 1 (Sim.t s) 0 ->
   firstTime s <= t' <= lastTime s ->
   exists ix : nat,
     (S ix < List.length (Sim.t s))%nat /\
     nth ix (Sim.t s) 0 <= t' <= nth (S ix) (Sim.t s) 0 /\
     nth ix (Sim.t s) 0 < nth (S ix) (Sim.t s) 0 /\
     Sim.interpolate s t' = Sim.Returns (interpolated s ix t', None)).
Proof.
  intro Hne. split.
  - now apply queries_outside.
  - now apply interpolate_inside.
Qed.

(** C8, counterexample.  A query inside the range of the keyframe times
    need not succeed: with a single keyframe [interpolate] panics on
    [s.t[ix+1]], and with the first two keyframes at the same time the
    fraction [f] at that time is 0/0. *)
Lemma interpolate_inside_fails :
  (ascending (Sim.t s_single) /\
   firstTime s_single <= 0 <= lastTime s_single /\
   Sim.interpolate s_single 0 = Sim.Panics) /\
  (ascending (Sim.t s_step) /\
   firstTime s_step <= 0 <= lastTime s_step /\
   Sim.interpolate s_step 0 = Sim.NotFinite).
Proof.
  split.
  - split; [ | split].
    + intros i j Hij. simpl in Hij.
      assert (i = 0%nat) by lia. assert (j = 0%nat) by lia. subst.
      simpl. lra.
    + unfold firstTime, lastTime. simpl. lra.
    + unfold Sim.interpolate.
      rewrite outOfRange_inside
        by (first [ discriminate | unfold firstTime, lastTime; simpl; lra ]).
      cbn [Sim.bind].
      rewrite index_first by discriminate. cbn [Sim.bind]. cbv zeta.
      simpl nth.
      destruct (Rlt_dec 0 0) as [H | _]; [lra | ].
      change (Sim.index (Sim.t s_single) (0 + 1))
        with (Sim.index [0] (Z.of_nat 1)).
      rewrite (index_beyond [0] 1) by (simpl; lia). reflexivity.
  - split; [ | split].
    + intros i j Hij. simpl in Hij.
      destruct i as [ | [ | [ | i] ] ]; destruct j as [ | [ | [ | j] ] ];
        simpl; try lra; lia.
    + unfold firstTime, lastTime. simpl. lra.
    + unfold Sim.interpolate.
      rewrite outOfRange_inside
        by (first [ discriminate | unfold firstTime, lastTime; simpl; lra ]).
      cbn [Sim.bind].
      rewrite index_first by discriminate. cbn [Sim.bind]. cbv zeta.
      simpl nth.
      destruct (Rlt_dec 0 0) as [H | _]; [lra | ].
      change (Sim.index (Sim.t s_step) (0 + 1))
        with (Sim.index [0; 0; 1] (Z.of_nat 1)).
      rewrite (index_nth [0; 0; 1] 1) by (simpl; lia). cbn [Sim.bind].
      change (Sim.index (Sim.t s_step) 0)
        with (Sim.index [0; 0; 1] (Z.of_nat 0)).
      rewrite (index_nth [0; 0; 1] 0) by (simpl; lia). cbn [Sim.bind].
      simpl nth. unfold Sim.quotient.
      destruct (Req_dec_T (0 - 0) 0) as [_ | H]; [reflexivity | lra].
Qed.

Lemma sitTurnDef_ascending : ascending (Sim.t Sim.sitTurnDef).
Proof.
  intros i j Hij. simpl in Hij.
  do 6 (destruct i as [ | i];
        [ do 6 (destruct j as [ | j]; [simpl; lra || lia | ]); lia | ]).
  lia.
Qed.

Lemma sitTurnDef_wellFormed : wellFormed Sim.sitTurnDef.
Proof. unfold wellFormed. repeat constructor. Qed.

(** The canonical standard-rate turn of the repository, queried at 300 s
    (after its end at 270 s) and at 12 s (during the roll-in). *)
Lemma Situation_queries_witness :
  (Sim.interpolate Sim.sitTurnDef 300
   = Sim.Returns (Sim.State.zero, Some Sim.outside) /\
   Sim.derivative Sim.sitTurnDef 300
   = Sim.Returns (Sim.State.zero, Some Sim.outside) /\
   Sim.measurement Sim.sitTurnDef 300
   = Sim.Returns (Sim.Measurement.zero, Some Sim.outside)) /\
  (exists ix : nat,
     (S ix < List.length (Sim.t Sim.sitTurnDef))%nat /\
     nth ix (Sim.t Sim.sitTurnDef) 0 <= 12
     <= nth (S ix) (Sim.t Sim.sitTurnDef) 0 /\
     nth ix (Sim.t Sim.sitTurnDef) 0 < nth (S ix) (Sim.t Sim.sitTurnDef) 0 /\
     Sim.interpolate Sim.sitTurnDef 12
     = Sim.Returns (interpolated Sim.sitTurnDef ix 12, None)).
Proof.
  assert (Hne : Sim.t Sim.sitTurnDef <> []) by discriminate.
  split.
  - apply (proj1 (Situation_queries Sim.sitTurnDef 300 Hne)).
    right. unfold lastTime. simpl. lra.
  - apply (proj2 (Situation_queries Sim.sitTurnDef 12 Hne)).
    + exact sitTurnDef_wellFormed.
    + simpl. lia.
    + exact sitTurnDef_ascending.
    + simpl. lra.
    + unfold firstTime, lastTime. simpl. lra.
Defined.

(** ** The sensor driver *)

Lemma Mpu_gtb_pos (x : R) : 0 < x -> Mpu.gtb x 0 = true.
Proof.
  intro H. unfold Mpu.gtb. destruct (Rlt_dec 0 x); [reflexivity | lra].
Qed.

Lemma Mpu_gtb_zero : Mpu.gtb 0 0 = false.
Proof. unfold Mpu.gtb. destruct (Rlt_dec 0 0); [lra | reflexivity]. Qed.

(** C10.  [Read] with no gyro/accel sample accumulated ([n = 0]) returns a
    non-nil [gaError] and zero gyro and accel values; with samples
    accumulated ([n > 0]) it returns a nil [gaError] and the accumulated
    sums divided by the sample count and scaled.  Either way the nine
    accumulators and the two sample counts are zero when it returns. *)
Theorem Read_averages_and_resets (USEMAG : bool) (now : Z) (m : Mpu.MPU9250) :
  let '(m', r, _) := Mpu.Read USEMAG now m in
  (Mpu.n m = 0 ->
   Mpu.gaError r <> None /\
   Mpu.r_g1 r = 0 /\ Mpu.r_g2 r = 0 /\ Mpu.r_g3 r = 0 /\
   Mpu.r_a1 r = 0 /\ Mpu.r_a2 r = 0 /\ Mpu.r_a3 r = 0) /\
  (0 < Mpu.n m ->
   Mpu.gaError r = None /\
   Mpu.r_g1 r = IZR (Mpu.g1 m) / Mpu.n m * Mpu.scaleGyro m /\
   Mpu.r_g2 r = IZR (Mpu.g2 m) / Mpu.n m * Mpu.scaleGyro m /\
   Mpu.r_g3 r = IZR (Mpu.g3 m) / Mpu.n m * Mpu.scaleGyro m /\
   Mpu.r_a1 r = IZR (Mpu.a1 m) / Mpu.n m * Mpu.scaleAccel m /\
   Mpu.r_a2 r = IZR (Mpu.a2 m) / Mpu.n m * Mpu.scaleAccel m /\
   Mpu.r_a3 r = IZR (Mpu.a3 m) / Mpu.n m * Mpu.scaleAccel m) /\
  (Mpu.g1 m' = 0%Z /\ Mpu.g2 m' = 0%Z /\ Mpu.g3 m' = 0%Z /\
   Mpu.a1 m' = 0%Z /\ Mpu.a2 m' = 0%Z /\ Mpu.a3 m' = 0%Z /\
   Mpu.m1 m' = 0%Z /\ Mpu.m2 m' = 0%Z /\ Mpu.m3 m' = 0%Z /\
   Mpu.n m' = 0 /\ Mpu.nm m' = 0).
Proof.
  unfold Mpu.Read.
  destruct (Mpu.gtb (Mpu.n m) 0) eqn:Hn;
    destruct (Mpu.gtb (Mpu.nm m) 0) eqn:Hnm;
    [ | destruct USEMAG | | destruct USEMAG ];
    cbn [Mpu.gaError Mpu.r_g1 Mpu.r_g2 Mpu.r_g3 Mpu.r_a1 Mpu.r_a2 Mpu.r_a3
         Mpu.g1 Mpu.g2 Mpu.g3 Mpu.a1 Mpu.a2 Mpu.a3 Mpu.m1 Mpu.m2 Mpu.m3
         Mpu.n Mpu.nm];
    (split; [ | split; [ | repeat split ] ]);
    intro H;
    try (rewrite H, Mpu_gtb_zero in Hn; discriminate);
    try (rewrite (Mpu_gtb_pos _ H) in Hn; discriminate);
    repeat split; discriminate.
Qed.

(** [Read] leaves the gyro/accel sample count at zero. *)
Lemma Read_resets_count (USEMAG : bool) (now : Z) (m : Mpu.MPU9250) :
  Mpu.n (fst (fst (Mpu.Read USEMAG now m))) = 0.
Proof.
  unfold Mpu.Read.
  destruct (Mpu.gtb (Mpu.n m) 0); destruct (Mpu.gtb (Mpu.nm m) 0);
    [ | destruct USEMAG | | destruct USEMAG ]; reflexivity.
Qed.

(** [Read] on a device with nothing accumulated reports the gyro/accel
    error and zero values. *)
Lemma Read_empty (USEMAG : bool) (now : Z) (m : Mpu.MPU9250) :
  Mpu.n m = 0 ->
  let r := snd (fst (Mpu.Read USEMAG now m)) in
  Mpu.gaError r <> None /\ Mpu.r_g1 r = 0 /\ Mpu.r_a1 r = 0.
Proof.
  intro Hn. unfold Mpu.Read. rewrite Hn, Mpu_gtb_zero.
  destruct (Mpu.gtb (Mpu.nm m) 0); [ | destruct USEMAG];
    cbn [fst snd Mpu.gaError Mpu.r_g1 Mpu.r_a1];
    (split; [discriminate | split; reflexivity]).
Qed.

(** A second [Read] with no sample in between finds nothing accumulated
    and reports the gyro/accel error: the first one left nothing of its
    window behind. *)
Lemma Read_twice (USEMAG : bool) (now now' : Z) (m : Mpu.MPU9250) :
  let m' := fst (fst (Mpu.Read USEMAG now m)) in
  let r := snd (fst (Mpu.Read USEMAG now' m')) in
  Mpu.gaError r <> None /\ Mpu.r_g1 r = 0 /\ Mpu.r_a1 r = 0.
Proof.
  intros m'. apply Read_empty. apply Read_resets_count.
Qed.

(** ** Further properties of package ahrs *)

(** Two states with the same fields are the same state. *)
Lemma state_ext (a b : Ahrs.State.t) :
  Ahrs.State.U1 a = Ahrs.State.U1 b ->
  Ahrs.State.U2 a = Ahrs.State.U2 b ->
  Ahrs.State.U3 a = Ahrs.State.U3 b ->
  Ahrs.State.Z1 a = Ahrs.State.Z1 b ->
  Ahrs.State.Z2 a = Ahrs.State.Z2 b ->
  Ahrs.State.Z3 a = Ahrs.State.Z3 b ->
  Ahrs.State.E0 a = Ahrs.State.E0 b ->
  Ahrs.State.E1 a = Ahrs.State.E1 b ->
  Ahrs.State.E2 a = Ahrs.State.E2 b ->
  Ahrs.State.E3 a = Ahrs.State.E3 b ->
  Ahrs.State.H1 a = Ahrs.State.H1 b ->
  Ahrs.State.H2 a = Ahrs.State.H2 b ->
  Ahrs.State.H3 a = Ahrs.State.H3 b ->
  Ahrs.State.N1 a = Ahrs.State.N1 b ->
  Ahrs.State.N2 a = Ahrs.State.N2 b ->
  Ahrs.State.N3 a = Ahrs.State.N3 b ->
  Ahrs.State.V1 a = Ahrs.State.V1 b ->
  Ahrs.State.V2 a = Ahrs.State.V2 b ->
  Ahrs.State.V3 a = Ahrs.State.V3 b ->
  Ahrs.State.C1 a = Ahrs.State.C1 b ->
  Ahrs.State.C2 a = Ahrs.State.C2 b ->
  Ahrs.State.C3 a = Ahrs.State.C3 b ->
  Ahrs.State.F0 a = Ahrs.State.F0 b ->
  Ahrs.State.F1 a = Ahrs.State.F1 b ->
  Ahrs.State.F2 a = Ahrs.State.F2 b ->
  Ahrs.State.F3 a = Ahrs.State.F3 b ->
  Ahrs.State.D1 a = Ahrs.State.D1 b ->
  Ahrs.State.D2 a = Ahrs.State.D2 b ->
  Ahrs.State.D3 a = Ahrs.State.D3 b ->
  Ahrs.State.L1 a = Ahrs.State.L1 b ->
  Ahrs.State.L2 a = Ahrs.State.L2 b ->
  Ahrs.State.L3 a = Ahrs.State.L3 b ->
  Ahrs.State.T a = Ahrs.State.T b ->
  Ahrs.State.M a = Ahrs.State.M b ->
  Ahrs.State.N a = Ahrs.State.N b ->
  Ahrs.State.e11 a = Ahrs.State.e11 b ->
  Ahrs.State.e12 a = Ahrs.State.e12 b ->
  Ahrs.State.e13 a = Ahrs.State.e13 b ->
  Ahrs.State.e21 a = Ahrs.State.e21 b ->
  Ahrs.State.e22 a = Ahrs.State.e22 b ->
  Ahrs.State.e23 a = Ahrs.State.e23 b ->
  Ahrs.State.e31 a = Ahrs.State.e31 b ->
  Ahrs.State.e32 a = Ahrs.State.e32 b ->
  Ahrs.State.e33 a = Ahrs.State.e33 b ->
  Ahrs.State.f11 a = Ahrs.State.f11 b ->
  Ahrs.State.f12 a = Ahrs.State.f12 b ->
  Ahrs.State.f13 a = Ahrs.State.f13 b ->
  Ahrs.State.f21 a = Ahrs.State.f21 b ->
  Ahrs.State.f22 a = Ahrs.State.f22 b ->
  Ahrs.State.f23 a = Ahrs.State.f23 b ->
  Ahrs.State.f31 a = Ahrs.State.f31 b ->
  Ahrs.State.f32 a = Ahrs.State.f32 b ->
  Ahrs.State.f33 a = Ahrs.State.f33 b ->
  a = b.
Proof.
  destruct a, b;
    cbn [Ahrs.State.U1 Ahrs.State.U2 Ahrs.State.U3 Ahrs.State.Z1 Ahrs.State.Z2 Ahrs.State.Z3 Ahrs.State.E0 Ahrs.State.E1 Ahrs.State.E2 Ahrs.State.E3 Ahrs.State.H1 Ahrs.State.H2 Ahrs.State.H3 Ahrs.State.N1 Ahrs.State.N2 Ahrs.State.N3 Ahrs.State.V1 Ahrs.State.V2 Ahrs.State.V3 Ahrs.State.C1 Ahrs.State.C2 Ahrs.State.C3 Ahrs.State.F0 Ahrs.State.F1 Ahrs.State.F2 Ahrs.State.F3 Ahrs.State.D1 Ahrs.State.D2 Ahrs.State.D3 Ahrs.State.L1 Ahrs.State.L2 Ahrs.State.L3 Ahrs.State.T Ahrs.State.M Ahrs.State.N Ahrs.State.e11 Ahrs.State.e12 Ahrs.State.e13 Ahrs.State.e21 Ahrs.State.e22 Ahrs.State.e23 Ahrs.State.e31 Ahrs.State.e32 Ahrs.State.e33 Ahrs.State.f11 Ahrs.State.f12 Ahrs.State.f13 Ahrs.State.f21 Ahrs.State.f22 Ahrs.State.f23 Ahrs.State.f31 Ahrs.State.f32 Ahrs.State.f33].
  intros; subst; reflexivity.
Qed.

(** A state whose quaternions have length 1 and whose caches hold the
    fragments [normalize] writes is a fixed point of [normalize]. *)
Lemma normalize_fixed (s : Ahrs.State.t) :
  normE2 s = 1 -> normF2 s = 1 ->
  (let q0 := Ahrs.State.E0 s in let q1 := Ahrs.State.E1 s in
   let q2 := Ahrs.State.E2 s in let q3 := Ahrs.State.E3 s in
   Ahrs.State.e11 s = 2 * (q0 * q0 + q1 * q1 - 0.5) /\
   Ahrs.State.e13 s = 2 * (- q0 * q2 + q1 * q3) /\
   Ahrs.State.e21 s = 2 * (- q0 * q3 + q2 * q1) /\
   Ahrs.State.e22 s = 2 * (q0 * q0 + q2 * q2 - 0.5) /\
   Ahrs.State.e23 s = 2 * (q0 * q1 + q2 * q3) /\
   Ahrs.State.e31 s = 2 * (q0 * q2 + q3 * q1) /\
   Ahrs.State.e32 s = 2 * (- q0 * q1 + q3 * q2) /\
   Ahrs.State.e33 s = 2 * (q0 * q0 + q3 * q3 - 0.5)) ->
  fij s = fragments (Ahrs.State.F0 s) (Ahrs.State.F1 s)
                    (Ahrs.State.F2 s) (Ahrs.State.F3 s) ->
  Ahrs.normalize s = s.
Proof.
  intros HE HF He Hf. cbv zeta in He.
  destruct He as (A11 & A13 & A21 & A22 & A23 & A31 & A32 & A33).
  unfold fragments in Hf. apply fij_entries in Hf.
  destruct Hf
    as (B11 & B12 & B13 & B21 & B22 & B23 & B31 & B32 & B33).
  pose proof (normalize_E s) as NE. cbv zeta in NE.
  rewrite HE, sqrt_1 in NE. destruct NE as (Q0 & Q1 & Q2 & Q3).
  pose proof (normalize_F s) as NF. cbv zeta in NF.
  rewrite HF, sqrt_1 in NF. destruct NF as (P0 & P1 & P2 & P3).
  replace (Ahrs.State.E0 s / 1) with (Ahrs.State.E0 s) in Q0 by field.
  replace (Ahrs.State.E1 s / 1) with (Ahrs.State.E1 s) in Q1 by field.
  replace (Ahrs.State.E2 s / 1) with (Ahrs.State.E2 s) in Q2 by field.
  replace (Ahrs.State.E3 s / 1) with (Ahrs.State.E3 s) in Q3 by field.
  replace (Ahrs.State.F0 s / 1) with (Ahrs.State.F0 s) in P0 by field.
  replace (Ahrs.State.F1 s / 1) with (Ahrs.State.F1 s) in P1 by field.
  replace (Ahrs.State.F2 s / 1) with (Ahrs.State.F2 s) in P2 by field.
  replace (Ahrs.State.F3 s / 1) with (Ahrs.State.F3 s) in P3 by field.
  pose proof (normalize_eij s) as Ce. cbv zeta in Ce.
  rewrite Q0, Q1, Q2, Q3 in Ce.
  destruct Ce as (C11 & C12 & C13 & C21 & C22 & C23 & C31 & C32 & C33).
  pose proof (normalize_fij s) as Cf. cbv zeta in Cf.
  rewrite P0, P1, P2, P3 in Cf.
  unfold fragments in Cf. apply fij_entries in Cf.
  destruct Cf
    as (D11 & D12 & D13 & D21 & D22 & D23 & D31 & D32 & D33).
  pose proof (normalize_keeps s) as K. cbv zeta in K.
  destruct K as ((? & ? & ?) & (? & ? & ?) & (? & ? & ?) & (? & ? & ?)
                 & (? & ? & ?) & (? & ? & ?) & (? & ? & ?) & (? & ? & ?)
                 & ? & ? & ?).
  apply state_ext; try assumption; congruence.
Qed.

(** X1.  [normalize] is idempotent: once the two quaternions have been
    divided by their (non-zero) lengths, a second [normalize] changes
    nothing, neither a quaternion nor a cached fragment. *)
Theorem normalize_idempotent (s : Ahrs.State.t) :
  normE2 s <> 0 -> normF2 s <> 0 ->
  Ahrs.normalize (Ahrs.normalize s) = Ahrs.normalize s.
Proof.
  intros HE HF.
  destruct (normalize_unit s) as [UE UF].
  pose proof (normalize_eij s) as He. cbv zeta in He.
  destruct He as (A11 & _ & A13 & A21 & A22 & A23 & A31 & A32 & A33).
  apply normalize_fixed; [ auto | auto | | ].
  - cbv zeta. repeat split; assumption.
  - pose proof (normalize_fij s) as Hf. cbv zeta in Hf. exact Hf.
Qed.

Lemma normalize_idempotent_witness :
  normE2 s_roll <> 0 /\ normF2 s_roll <> 0 /\
  Ahrs.normalize (Ahrs.normalize s_roll) = Ahrs.normalize s_roll.
Proof.
  assert (HE : normE2 s_roll <> 0) by (unfold normE2, s_roll; cbn; lra).
  assert (HF : normF2 s_roll <> 0) by (unfold normF2, s_roll; cbn; lra).
  split; [exact HE | split; [exact HF | ]].
  exact (normalize_idempotent s_roll HE HF).
Defined.

(** ** [Initialize], for every first measurement *)

Lemma Hypot_bounds (p q : R) :
  0 <= Ahrs.Hypot p q /\ Ahrs.Hypot p q * Ahrs.Hypot p q = p * p + q * q /\
  - Ahrs.Hypot p q <= p <= Ahrs.Hypot p q.
Proof.
  unfold Ahrs.Hypot.
  assert (H0 : 0 <= p * p + q * q) by nra.
  pose proof (sqrt_pos (p * p + q * q)) as Hp.
  pose proof (sqrt_sqrt _ H0) as Hs.
  repeat split; try assumption; nra.
Qed.

(** The scalars the blocks of [Initialize] read and write. *)
Lemma initCovariances_fields (s : Ahrs.State.t) :
  let s' := Ahrs.initCovariances s in
  quatE s' = quatE s /\ quatF s' = quatF s /\
  (Ahrs.State.U1 s' = Ahrs.State.U1 s /\ Ahrs.State.U2 s' = Ahrs.State.U2 s /\
   Ahrs.State.U3 s' = Ahrs.State.U3 s) /\
  (Ahrs.State.V1 s' = Ahrs.State.V1 s /\ Ahrs.State.V2 s' = Ahrs.State.V2 s /\
   Ahrs.State.V3 s' = Ahrs.State.V3 s) /\
  (Ahrs.State.N1 s' = Ahrs.State.N1 s /\ Ahrs.State.N2 s' = Ahrs.State.N2 s /\
   Ahrs.State.N3 s' = Ahrs.State.N3 s) /\
  Ahrs.State.e12 s' = Ahrs.State.e12 s.
Proof. repeat split; reflexivity. Qed.

Lemma initAirspeed_fields (m : Ahrs.Measurement.t) (s : Ahrs.State.t) :
  let s' := Ahrs.initAirspeed m s in
  quatE s' = quatE s /\ quatF s' = quatF s /\
  (Ahrs.State.U1 s'
   = (if Ahrs.Measurement.WValid m
      then Ahrs.Hypot (Ahrs.Measurement.W1 m) (Ahrs.Measurement.W2 m)
      else Ahrs.State.U1 s) /\
   Ahrs.State.U2 s' = Ahrs.State.U2 s /\
   Ahrs.State.U3 s' = Ahrs.State.U3 s) /\
  (Ahrs.State.V1 s' = Ahrs.State.V1 s /\ Ahrs.State.V2 s' = Ahrs.State.V2 s /\
   Ahrs.State.V3 s' = Ahrs.State.V3 s) /\
  (Ahrs.State.N1 s' = Ahrs.State.N1 s /\ Ahrs.State.N2 s' = Ahrs.State.N2 s /\
   Ahrs.State.N3 s' = Ahrs.State.N3 s) /\
  Ahrs.State.e12 s' = Ahrs.State.e12 s.
Proof.
  unfold Ahrs.initAirspeed.
  destruct (Ahrs.Measurement.WValid m); repeat split; reflexivity.
Qed.

Lemma initHeading_fields (m : Ahrs.Measurement.t) (s : Ahrs.State.t) :
  let s' := Ahrs.initHeading m s in
  let u := Ahrs.State.U1 s in
  let w := Ahrs.Measurement.W1 m in
  let track := andb (Ahrs.Measurement.WValid m) (Ahrs.gtb u 5) in
  quatE s'
  = ((if track then sqrt ((u + w) / (2 * u)) else 1),
     Ahrs.State.E1 s, Ahrs.State.E2 s,
     (if track
      then if Ahrs.gtb (Ahrs.Measurement.W2 m) 0
           then sqrt ((u - w) / (2 * u)) * -1
           else sqrt ((u - w) / (2 * u))
      else Ahrs.State.E3 s)) /\
  quatF s' = quatF s /\
  (Ahrs.State.U1 s' = Ahrs.State.U1 s /\ Ahrs.State.U2 s' = Ahrs.State.U2 s /\
   Ahrs.State.U3 s' = Ahrs.State.U3 s) /\
  (Ahrs.State.V1 s' = Ahrs.State.V1 s /\ Ahrs.State.V2 s' = Ahrs.State.V2 s /\
   Ahrs.State.V3 s' = Ahrs.State.V3 s) /\
  (Ahrs.State.N1 s' = Ahrs.State.N1 s /\ Ahrs.State.N2 s' = Ahrs.State.N2 s /\
   Ahrs.State.N3 s' = Ahrs.State.N3 s) /\
  Ahrs.State.e12 s' = Ahrs.State.e12 s.
Proof.
  unfold Ahrs.initHeading.
  destruct (andb (Ahrs.Measurement.WValid m) (Ahrs.gtb (Ahrs.State.U1 s) 5)).
  - destruct (Ahrs.gtb (Ahrs.Measurement.W2 m) 0); repeat split; reflexivity.
  - repeat split; reflexivity.
Qed.

Lemma initField_fields (m : Ahrs.Measurement.t) (s : Ahrs.State.t) :
  let s' := Ahrs.initField m s in
  quatE s' = quatE s /\ quatF s' = quatF s /\
  (Ahrs.State.U1 s' = Ahrs.State.U1 s /\ Ahrs.State.U2 s' = Ahrs.State.U2 s /\
   Ahrs.State.U3 s' = Ahrs.State.U3 s) /\
  (Ahrs.State.V1 s' = Ahrs.State.V1 s /\ Ahrs.State.V2 s' = Ahrs.State.V2 s /\
   Ahrs.State.V3 s' = Ahrs.State.V3 s) /\
  Ahrs.State.e12 s' = Ahrs.State.e12 s.
Proof.
  unfold Ahrs.initField.
  destruct (Ahrs.Measurement.MValid m); repeat split; reflexivity.
Qed.

(** The state of [Initialize] just before its [s.normalize()]. *)
Lemma Initialize_before_normalize (m : Ahrs.Measurement.t) :
  let u := if Ahrs.Measurement.WValid m
           then Ahrs.Hypot (Ahrs.Measurement.W1 m) (Ahrs.Measurement.W2 m)
           else 0 in
  let track := andb (Ahrs.Measurement.WValid m) (Ahrs.gtb u 5) in
  let w := Ahrs.Measurement.W1 m in
  exists s4 : Ahrs.State.t,
    Ahrs.Initialize m = Ahrs.initField m (Ahrs.normalize s4) /\
    quatE s4
    = ((if track then sqrt ((u + w) / (2 * u)) else 1), 0, 0,
       (if track
        then if Ahrs.gtb (Ahrs.Measurement.W2 m) 0
             then sqrt ((u - w) / (2 * u)) * -1
             else sqrt ((u - w) / (2 * u))
        else 0)) /\
    quatF s4 = (1, 0, 0, 0) /\
    (Ahrs.State.U1 s4 = u /\ Ahrs.State.U2 s4 = 0 /\ Ahrs.State.U3 s4 = 0) /\
    (Ahrs.State.V1 s4 = 0 /\ Ahrs.State.V2 s4 = 0 /\ Ahrs.State.V3 s4 = 0) /\
    (Ahrs.State.N1 s4 = 0 /\ Ahrs.State.N2 s4 = 0 /\ Ahrs.State.N3 s4 = 0) /\
    Ahrs.State.e12 s4 = 0.
Proof.
  intros u track w.
  unfold Ahrs.Initialize. cbv zeta.
  pose proof (initCovariances_fields Ahrs.State.zero) as A. cbv zeta in A.
  set (s1 := Ahrs.initCovariances Ahrs.State.zero) in *.
  pose proof (initAirspeed_fields m s1) as B. cbv zeta in B.
  set (s2 := Ahrs.initAirspeed m s1) in *.
  pose proof (initHeading_fields m s2) as C. cbv zeta in C.
  set (s3 := Ahrs.initHeading m s2) in *.
  clearbody s3 s2 s1.
  destruct A as (AE & AF & (AU1 & AU2 & AU3) & (AV1 & AV2 & AV3)
                 & (AN1 & AN2 & AN3) & Ae).
  destruct B as (BE & BF & (BU1 & BU2 & BU3) & (BV1 & BV2 & BV3)
                 & (BN1 & BN2 & BN3) & Be).
  destruct C as (CE & CF & (CU1 & CU2 & CU3) & (CV1 & CV2 & CV3)
                 & (CN1 & CN2 & CN3) & Ce).
  cbn in AU1, AU2, AU3, AV1, AV2, AV3, AN1, AN2, AN3, Ae.
  unfold quatE in AE, BE. unfold quatF in AF, BF, CF.
  cbn in AE, AF.
  rewrite AE in BE. rewrite AF in BF. rewrite BF in CF.
  apply quatE_inj_tuple in BE. destruct BE as (E0 & E1 & E2 & E3).
  injection CF as F0 F1 F2 F3.
  assert (U : Ahrs.State.U1 s2 = u).
  { rewrite BU1. subst u. rewrite AU1. reflexivity. }
  rewrite U, E1, E2, E3 in CE. fold track w in CE.
  exists (Ahrs.State.withF s3 1 (Ahrs.State.F1 s3) (Ahrs.State.F2 s3)
                           (Ahrs.State.F3 s3)).
  split; [reflexivity | ].
  split; [exact CE | ].
  split; [unfold quatF; cbn; rewrite F1, F2, F3; reflexivity | ].
  cbn. repeat split; congruence.
Qed.

(** The heading quaternion [Initialize] takes from a track has length 1. *)
Lemma track_quaternion_unit (u w : R) (neg : bool) :
  0 < u -> - u <= w <= u ->
  let q0 := sqrt ((u + w) / (2 * u)) in
  let q3 := if neg then sqrt ((u - w) / (2 * u)) * -1
            else sqrt ((u - w) / (2 * u)) in
  q0 * q0 + 0 * 0 + 0 * 0 + q3 * q3 = 1.
Proof.
  intros Hu Hw q0 q3.
  assert (Ha : 0 <= (u + w) / (2 * u)).
  { apply Rmult_le_pos; [lra | ]. left. apply Rinv_0_lt_compat. lra. }
  assert (Hb : 0 <= (u - w) / (2 * u)).
  { apply Rmult_le_pos; [lra | ]. left. apply Rinv_0_lt_compat. lra. }
  assert (S0 : q0 * q0 = (u + w) / (2 * u)) by (apply sqrt_sqrt; exact Ha).
  assert (S3 : q3 * q3 = (u - w) / (2 * u)).
  { subst q3. destruct neg.
    - transitivity (sqrt ((u - w) / (2 * u)) * sqrt ((u - w) / (2 * u)));
        [ring | apply sqrt_sqrt; exact Hb].
    - apply sqrt_sqrt; exact Hb. }
  rewrite S3. replace (q0 * q0 + 0 * 0 + 0 * 0) with (q0 * q0) by ring.
  rewrite S0. field. lra.
Qed.

(** Before its [normalize], [Initialize] holds two unit quaternions. *)
Lemma Initialize_before_normalize_unit (m : Ahrs.Measurement.t)
      (s4 : Ahrs.State.t) :
  let u := if Ahrs.Measurement.WValid m
           then Ahrs.Hypot (Ahrs.Measurement.W1 m) (Ahrs.Measurement.W2 m)
           else 0 in
  let track := andb (Ahrs.Measurement.WValid m) (Ahrs.gtb u 5) in
  let w := Ahrs.Measurement.W1 m in
  quatE s4
  = ((if track then sqrt ((u + w) / (2 * u)) else 1), 0, 0,
     (if track
      then if Ahrs.gtb (Ahrs.Measurement.W2 m) 0
           then sqrt ((u - w) / (2 * u)) * -1
           else sqrt ((u - w) / (2 * u))
      else 0)) ->
  quatF s4 = (1, 0, 0, 0) ->
  normE2 s4 = 1 /\ normF2 s4 = 1.
Proof.
  intros u track w HE HF.
  apply quatE_inj_tuple in HE. destruct HE as (E0 & E1 & E2 & E3).
  unfold quatF in HF. injection HF as F0 F1 F2 F3.
  split.
  - unfold normE2. rewrite E0, E1, E2, E3.
    destruct track eqn:Ht.
    + subst track. apply andb_prop in Ht. destruct Ht as [Hv Hg].
      subst u. rewrite Hv in *.
      unfold Ahrs.gtb in Hg.
      destruct (Rlt_dec 5 (Ahrs.Hypot (Ahrs.Measurement.W1 m)
                                      (Ahrs.Measurement.W2 m)))
        as [H5 | ]; [ | discriminate].
      destruct (Hypot_bounds (Ahrs.Measurement.W1 m) (Ahrs.Measurement.W2 m))
        as (_ & _ & Hb).
      apply (track_quaternion_unit _ w
               (Ahrs.gtb (Ahrs.Measurement.W2 m) 0)); [lra | exact Hb].
    + ring.
  - unfold normF2. rewrite F0, F1, F2, F3. ring.
Qed.

(** The two quaternions of the state [Initialize] returns have length 1. *)
Lemma Initialize_unit (m : Ahrs.Measurement.t) :
  normE2 (Ahrs.Initialize m) = 1 /\ normF2 (Ahrs.Initialize m) = 1.
Proof.
  destruct (Initialize_before_normalize m) as (s4 & Hi & HE & HF & _).
  cbv zeta in HE.
  destruct (Initialize_before_normalize_unit m s4 HE HF) as [UE UF].
  rewrite Hi.
  destruct (initField_fields m (Ahrs.normalize s4)) as (FE & FF & _).
  rewrite (normE2_quatE _ _ FE), (normF2_quatF _ _ FF).
  destruct (normalize_unit s4) as [NE NF].
  split; [apply NE | apply NF]; lra.
Qed.

(** X2.  Whatever the first measurement holds, [Initialize] returns a state
    whose two quaternions have length 1: the heading taken from a GPS
    track, and the identity [(1, 0, 0, 0)] otherwise. *)
Theorem Initialize_unit_quaternions (m : Ahrs.Measurement.t) :
  normE2 (Ahrs.Initialize m) = 1 /\ normF2 (Ahrs.Initialize m) = 1.
Proof. exact (Initialize_unit m). Qed.

(** The products of the two components of the heading quaternion. *)
Lemma track_quaternion_products (u w1 w2 : R) :
  0 < u -> u * u = w1 * w1 + w2 * w2 ->
  let q0 := sqrt ((u + w1) / (2 * u)) in
  let q3 := if Ahrs.gtb w2 0 then sqrt ((u - w1) / (2 * u)) * -1
            else sqrt ((u - w1) / (2 * u)) in
  q0 * q0 = (u + w1) / (2 * u) /\ q0 * q3 = - w2 / (2 * u).
Proof.
  intros Hu Hq q0 q3.
  assert (Hw : - u <= w1 <= u) by nra.
  assert (Hi : 0 < / (2 * u)) by (apply Rinv_0_lt_compat; lra).
  assert (Ha : 0 <= (u + w1) / (2 * u))
    by (apply Rmult_le_pos; [lra | lra]).
  assert (Hb : 0 <= (u - w1) / (2 * u))
    by (apply Rmult_le_pos; [lra | lra]).
  split; [apply sqrt_sqrt; exact Ha | ].
  assert (Hab : (u + w1) / (2 * u) * ((u - w1) / (2 * u))
                = (w2 / (2 * u)) * (w2 / (2 * u))).
  { field_simplify_eq; [nra | lra]. }
  assert (Hs : sqrt ((u + w1) / (2 * u)) * sqrt ((u - w1) / (2 * u))
               = Rabs (w2 / (2 * u))).
  { rewrite <- sqrt_mult by assumption. rewrite Hab.
    apply sqrt_Rsqr_abs. }
  subst q0 q3. unfold Ahrs.gtb.
  destruct (Rlt_dec 0 w2) as [Hp | Hn].
  - rewrite Rabs_pos_eq in Hs
      by (apply Rmult_le_pos; [lra | lra]).
    transitivity (- (sqrt ((u + w1) / (2 * u))
                     * sqrt ((u - w1) / (2 * u)))); [ring | ].
    rewrite Hs. field. lra.
  - rewrite Rabs_left1 in Hs.
    + rewrite Hs. field. lra.
    + unfold Rdiv. nra.
Qed.

(** What [normalize] leaves of a state whose quaternion E has length 1:
    the quaternion itself, and the fragments of it in the earth cache. *)
Lemma normalize_unit_E (s : Ahrs.State.t) :
  normE2 s = 1 ->
  let s' := Ahrs.normalize s in
  let q0 := Ahrs.State.E0 s in let q1 := Ahrs.State.E1 s in
  let q2 := Ahrs.State.E2 s in let q3 := Ahrs.State.E3 s in
  quatE s' = quatE s /\
  Ahrs.State.e11 s' = 2 * (q0 * q0 + q1 * q1 - 0.5) /\
  Ahrs.State.e12 s' = Ahrs.State.e12 s /\
  Ahrs.State.e13 s' = 2 * (- q0 * q2 + q1 * q3) /\
  Ahrs.State.e21 s' = 2 * (- q0 * q3 + q2 * q1) /\
  Ahrs.State.e22 s' = 2 * (q0 * q0 + q2 * q2 - 0.5) /\
  Ahrs.State.e23 s' = 2 * (q0 * q1 + q2 * q3) /\
  Ahrs.State.e31 s' = 2 * (q0 * q2 + q3 * q1) /\
  Ahrs.State.e32 s' = 2 * (- q0 * q1 + q3 * q2) /\
  Ahrs.State.e33 s' = 2 * (q0 * q0 + q3 * q3 - 0.5).
Proof.
  intros HE s' q0 q1 q2 q3. subst s' q0 q1 q2 q3.
  pose proof (normalize_E s) as NE. cbv zeta in NE.
  rewrite HE, sqrt_1 in NE. destruct NE as (Q0 & Q1 & Q2 & Q3).
  replace (Ahrs.State.E0 s / 1) with (Ahrs.State.E0 s) in Q0 by field.
  replace (Ahrs.State.E1 s / 1) with (Ahrs.State.E1 s) in Q1 by field.
  replace (Ahrs.State.E2 s / 1) with (Ahrs.State.E2 s) in Q2 by field.
  replace (Ahrs.State.E3 s / 1) with (Ahrs.State.E3 s) in Q3 by field.
  pose proof (normalize_eij s) as Ce. cbv zeta in Ce.
  rewrite Q0, Q1, Q2, Q3 in Ce.
  split; [unfold quatE; rewrite Q0, Q1, Q2, Q3; reflexivity | exact Ce].
Qed.

(** The ground speed [PredictMeasurement] predicts. *)
Lemma PredictMeasurement_W (s : Ahrs.State.t) :
  let s' := Ahrs.normalize s in
  let z := snd (Ahrs.PredictMeasurement s) in
  Ahrs.Measurement.W1 z
  = Ahrs.State.e11 s' * Ahrs.State.U1 s' + Ahrs.State.e12 s' * Ahrs.State.U2 s'
    + Ahrs.State.e13 s' * Ahrs.State.U3 s' + Ahrs.State.V1 s' /\
  Ahrs.Measurement.W2 z
  = Ahrs.State.e21 s' * Ahrs.State.U1 s' + Ahrs.State.e22 s' * Ahrs.State.U2 s'
    + Ahrs.State.e23 s' * Ahrs.State.U3 s' + Ahrs.State.V2 s' /\
  Ahrs.Measurement.W3 z
  = Ahrs.State.e31 s' * Ahrs.State.U1 s' + Ahrs.State.e32 s' * Ahrs.State.U2 s'
    + Ahrs.State.e33 s' * Ahrs.State.U3 s' + Ahrs.State.V3 s' /\
  (Ahrs.Measurement.U1 z = Ahrs.State.U1 s' /\
   Ahrs.Measurement.U2 z = Ahrs.State.U2 s' /\
   Ahrs.Measurement.U3 z = Ahrs.State.U3 s').
Proof. repeat split; reflexivity. Qed.

(** The fields of the state [Initialize] returns, in terms of the state
    before its [normalize]. *)
Lemma Initialize_fields (m : Ahrs.Measurement.t) :
  let u := if Ahrs.Measurement.WValid m
           then Ahrs.Hypot (Ahrs.Measurement.W1 m) (Ahrs.Measurement.W2 m)
           else 0 in
  let track := andb (Ahrs.Measurement.WValid m) (Ahrs.gtb u 5) in
  let w := Ahrs.Measurement.W1 m in
  let q0 := if track then sqrt ((u + w) / (2 * u)) else 1 in
  let q3 := if track
            then if Ahrs.gtb (Ahrs.Measurement.W2 m) 0
                 then sqrt ((u - w) / (2 * u)) * -1
                 else sqrt ((u - w) / (2 * u))
            else 0 in
  let x := Ahrs.Initialize m in
  quatE x = (q0, 0, 0, q3) /\
  quatF x = (1, 0, 0, 0) /\
  (Ahrs.State.U1 x = u /\ Ahrs.State.U2 x = 0 /\ Ahrs.State.U3 x = 0) /\
  (Ahrs.State.V1 x = 0 /\ Ahrs.State.V2 x = 0 /\ Ahrs.State.V3 x = 0) /\
  Ahrs.State.e12 x = 0 /\
  (Ahrs.State.e11 x = 2 * (q0 * q0 + 0 * 0 - 0.5) /\
   Ahrs.State.e13 x = 2 * (- q0 * 0 + 0 * q3) /\
   Ahrs.State.e21 x = 2 * (- q0 * q3 + 0 * 0) /\
   Ahrs.State.e22 x = 2 * (q0 * q0 + 0 * 0 - 0.5) /\
   Ahrs.State.e23 x = 2 * (q0 * 0 + 0 * q3) /\
   Ahrs.State.e31 x = 2 * (q0 * 0 + q3 * 0) /\
   Ahrs.State.e32 x = 2 * (- q0 * 0 + q3 * 0) /\
   Ahrs.State.e33 x = 2 * (q0 * q0 + q3 * q3 - 0.5)).
Proof.
  intros u track w q0 q3 x.
  destruct (Initialize_before_normalize m)
    as (s4 & Hi & HE & HF & (U1 & U2 & U3) & (V1 & V2 & V3) & _ & He).
  cbv zeta in HE. fold u track w in HE, U1. fold q0 q3 in HE.
  destruct (Initialize_before_normalize_unit m s4 HE HF) as [UE UF].
  pose proof (normalize_unit_E s4 UE) as NE. cbv zeta in NE.
  destruct NE as (NQ & N11 & N12 & N13 & N21 & N22 & N23 & N31 & N32 & N33).
  pose proof (normalize_F s4) as NF. cbv zeta in NF.
  rewrite UF, sqrt_1 in NF. destruct NF as (P0 & P1 & P2 & P3).
  pose proof (normalize_keeps s4) as K. cbv zeta in K.
  destruct K as ((KU1 & KU2 & KU3) & _ & _ & _ & (KV1 & KV2 & KV3) & _).
  destruct (initField_fields m (Ahrs.normalize s4))
    as (FE & FF & (FU1 & FU2 & FU3) & (FV1 & FV2 & FV3) & Fe).
  assert (F11 : Ahrs.State.e11 (Ahrs.initField m (Ahrs.normalize s4))
                = Ahrs.State.e11 (Ahrs.normalize s4))
    by (unfold Ahrs.initField; destruct (Ahrs.Measurement.MValid m);
        reflexivity).
  assert (F13 : Ahrs.State.e13 (Ahrs.initField m (Ahrs.normalize s4))
                = Ahrs.State.e13 (Ahrs.normalize s4))
    by (unfold Ahrs.initField; destruct (Ahrs.Measurement.MValid m);
        reflexivity).
  assert (F21 : Ahrs.State.e21 (Ahrs.initField m (Ahrs.normalize s4))
                = Ahrs.State.e21 (Ahrs.normalize s4))
    by (unfold Ahrs.initField; destruct (Ahrs.Measurement.MValid m);
        reflexivity).
  assert (F22 : Ahrs.State.e22 (Ahrs.initField m (Ahrs.normalize s4))
                = Ahrs.State.e22 (Ahrs.normalize s4))
    by (unfold Ahrs.initField; destruct (Ahrs.Measurement.MValid m);
        reflexivity).
  assert (F23 : Ahrs.State.e23 (Ahrs.initField m (Ahrs.normalize s4))
                = Ahrs.State.e23 (Ahrs.normalize s4))
    by (unfold Ahrs.initField; destruct (Ahrs.Measurement.MValid m);
        reflexivity).
  assert (F31 : Ahrs.State.e31 (Ahrs.initField m (Ahrs.normalize s4))
                = Ahrs.State.e31 (Ahrs.normalize s4))
    by (unfold Ahrs.initField; destruct (Ahrs.Measurement.MValid m);
        reflexivity).
  assert (F32 : Ahrs.State.e32 (Ahrs.initField m (Ahrs.normalize s4))
                = Ahrs.State.e32 (Ahrs.normalize s4))
    by (unfold Ahrs.initField; destruct (Ahrs.Measurement.MValid m);
        reflexivity).
  assert (F33 : Ahrs.State.e33 (Ahrs.initField m (Ahrs.normalize s4))
                = Ahrs.State.e33 (Ahrs.normalize s4))
    by (unfold Ahrs.initField; destruct (Ahrs.Measurement.MValid m);
        reflexivity).
  apply quatE_inj_tuple in HE. destruct HE as (E0 & E1 & E2 & E3).
  unfold quatF in HF. injection HF as G0 G1 G2 G3.
  subst x. rewrite Hi.
  split; [rewrite FE, NQ; unfold quatE; rewrite E0, E1, E2, E3; reflexivity | ].
  split.
  { rewrite FF. unfold quatF. rewrite P0, P1, P2, P3, G0, G1, G2, G3.
    f_equal; [f_equal; [f_equal | ] | ]; field. }
  split; [repeat split; congruence | ].
  split; [repeat split; congruence | ].
  split; [congruence | ].
  rewrite F11, F13, F21, F22, F23, F31, F32, F33.
  rewrite N11, N13, N21, N22, N23, N31, N32, N33.
  rewrite E0, E1, E2, E3.
  repeat split; reflexivity.
Qed.

(** The field [Initialize] stores: the first magnetometer reading taken
    through the earth cache, or nothing. *)
Lemma Initialize_N (m : Ahrs.Measurement.t) :
  let x := Ahrs.Initialize m in
  (Ahrs.State.N1 x, Ahrs.State.N2 x, Ahrs.State.N3 x)
  = if Ahrs.Measurement.MValid m
    then (Ahrs.Measurement.M1 m * Ahrs.State.e11 x
          + Ahrs.Measurement.M2 m * Ahrs.State.e12 x
          + Ahrs.Measurement.M3 m * Ahrs.State.e13 x,
          Ahrs.Measurement.M1 m * Ahrs.State.e21 x
          + Ahrs.Measurement.M2 m * Ahrs.State.e22 x
          + Ahrs.Measurement.M3 m * Ahrs.State.e23 x,
          Ahrs.Measurement.M1 m * Ahrs.State.e31 x
          + Ahrs.Measurement.M2 m * Ahrs.State.e32 x
          + Ahrs.Measurement.M3 m * Ahrs.State.e33 x)
    else (0, 0, 0).
Proof.
  intro x. subst x.
  destruct (Initialize_before_normalize m)
    as (s4 & Hi & _ & _ & _ & _ & (N1 & N2 & N3) & _).
  rewrite Hi.
  pose proof (normalize_keeps s4) as K. cbv zeta in K.
  destruct K as (_ & _ & _ & (KN1 & KN2 & KN3) & _).
  set (y := Ahrs.normalize s4) in *. clearbody y.
  unfold Ahrs.initField.
  destruct (Ahrs.Measurement.MValid m).
  - reflexivity.
  - rewrite KN1, KN2, KN3, N1, N2, N3. reflexivity.
Qed.

(** X3.  A state initialized from a valid GPS track faster than 5 kt
    predicts that very track: [PredictMeasurement] on the state of
    [Initialize] returns the measured horizontal ground speed (W1, W2),
    no vertical speed, and the ground speed as airspeed along the nose. *)
Theorem Initialize_predicts_track (m : Ahrs.Measurement.t) :
  Ahrs.Measurement.WValid m = true ->
  5 < Ahrs.Hypot (Ahrs.Measurement.W1 m) (Ahrs.Measurement.W2 m) ->
  let z := snd (Ahrs.PredictMeasurement (Ahrs.Initialize m)) in
  Ahrs.Measurement.W1 z = Ahrs.Measurement.W1 m /\
  Ahrs.Measurement.W2 z = Ahrs.Measurement.W2 m /\
  Ahrs.Measurement.W3 z = 0 /\
  Ahrs.Measurement.U1 z
  = Ahrs.Hypot (Ahrs.Measurement.W1 m) (Ahrs.Measurement.W2 m) /\
  Ahrs.Measurement.U2 z = 0 /\ Ahrs.Measurement.U3 z = 0.
Proof.
  intros HW H5 z. subst z.
  pose proof (Initialize_fields m) as I. cbv zeta in I.
  rewrite HW, (gtb_true _ _ H5) in I. cbn [andb] in I.
  destruct I as (IE & _ & (U1 & U2 & U3) & (V1 & V2 & V3) & _ & _).
  destruct (Initialize_unit m) as [UE _].
  set (x := Ahrs.Initialize m) in *. clearbody x.
  pose proof (normalize_unit_E x UE) as NE. cbv zeta in NE.
  destruct NE as (_ & N11 & _ & N13 & N21 & N22 & N23 & N31 & N32 & N33).
  pose proof (normalize_keeps x) as K. cbv zeta in K.
  destruct K as ((KU1 & KU2 & KU3) & _ & _ & _ & (KV1 & KV2 & KV3) & _).
  pose proof (PredictMeasurement_W x) as P. cbv zeta in P.
  destruct P as (P1 & P2 & P3 & (Q1 & Q2 & Q3)).
  rewrite P1, P2, P3, Q1, Q2, Q3.
  rewrite KU1, KU2, KU3, KV1, KV2, KV3, U1, U2, U3, V1, V2, V3.
  rewrite N11, N21, N31.
  apply quatE_inj_tuple in IE. destruct IE as (E0 & E1 & E2 & E3).
  rewrite E0, E1, E2, E3.
  set (u := Ahrs.Hypot (Ahrs.Measurement.W1 m) (Ahrs.Measurement.W2 m)) in *.
  destruct (Hypot_bounds (Ahrs.Measurement.W1 m) (Ahrs.Measurement.W2 m))
    as (_ & Hsq & _).
  fold u in Hsq.
  assert (Hu : 0 < u) by lra.
  destruct (track_quaternion_products u (Ahrs.Measurement.W1 m)
              (Ahrs.Measurement.W2 m) Hu Hsq) as [S0 S3].
  cbv zeta in S0, S3.
  set (q0 := sqrt ((u + Ahrs.Measurement.W1 m) / (2 * u))) in *.
  set (q3 := if Ahrs.gtb (Ahrs.Measurement.W2 m) 0
             then sqrt ((u - Ahrs.Measurement.W1 m) / (2 * u)) * -1
             else sqrt ((u - Ahrs.Measurement.W1 m) / (2 * u))) in *.
  clearbody q0 q3.
  repeat split; try reflexivity.
  - replace (2 * (q0 * q0 + 0 * 0 - 0.5) * u
             + Ahrs.State.e12 (Ahrs.normalize x) * 0
             + Ahrs.State.e13 (Ahrs.normalize x) * 0 + 0)
      with ((2 * (q0 * q0) - 1) * u) by lra.
    rewrite S0. field. lra.
  - replace (2 * (- q0 * q3 + 0 * 0) * u
             + Ahrs.State.e22 (Ahrs.normalize x) * 0
             + Ahrs.State.e23 (Ahrs.normalize x) * 0 + 0)
      with (-2 * (q0 * q3) * u) by lra.
    rewrite S3. field. lra.
  - lra.
Qed.

Lemma Initialize_predicts_track_witness :
  Ahrs.Measurement.WValid m_track = true /\
  5 < Ahrs.Hypot (Ahrs.Measurement.W1 m_track) (Ahrs.Measurement.W2 m_track) /\
  (let z := snd (Ahrs.PredictMeasurement (Ahrs.Initialize m_track)) in
   Ahrs.Measurement.W1 z = Ahrs.Measurement.W1 m_track /\
   Ahrs.Measurement.W2 z = Ahrs.Measurement.W2 m_track /\
   Ahrs.Measurement.W3 z = 0 /\
   Ahrs.Measurement.U1 z
   = Ahrs.Hypot (Ahrs.Measurement.W1 m_track) (Ahrs.Measurement.W2 m_track) /\
   Ahrs.Measurement.U2 z = 0 /\ Ahrs.Measurement.U3 z = 0).
Proof.
  assert (H5 : 5 < Ahrs.Hypot (Ahrs.Measurement.W1 m_track)
                              (Ahrs.Measurement.W2 m_track)).
  { replace (Ahrs.Hypot (Ahrs.Measurement.W1 m_track)
                        (Ahrs.Measurement.W2 m_track)) with 25; [lra | ].
    symmetry. unfold Ahrs.Hypot. apply sqrt_of_square; [lra | ].
    simpl. lra. }
  split; [reflexivity | split; [exact H5 | ]].
  exact (Initialize_predicts_track m_track eq_refl H5).
Defined.

(** X4.  Without a usable track (no valid GPS speed, or a ground speed of
    at most 5 kt) [Initialize] assumes the aircraft points east and the
    sensor points forward: both quaternions are the identity, and a valid
    first magnetometer reading is stored as the earth's field as it is. *)
Theorem Initialize_without_track (m : Ahrs.Measurement.t) :
  Ahrs.Measurement.WValid m = false \/
  Ahrs.Hypot (Ahrs.Measurement.W1 m) (Ahrs.Measurement.W2 m) <= 5 ->
  let x := Ahrs.Initialize m in
  quatE x = (1, 0, 0, 0) /\ quatF x = (1, 0, 0, 0) /\
  (Ahrs.State.N1 x, Ahrs.State.N2 x, Ahrs.State.N3 x)
  = (if Ahrs.Measurement.MValid m
     then (Ahrs.Measurement.M1 m, Ahrs.Measurement.M2 m,
           Ahrs.Measurement.M3 m)
     else (0, 0, 0)).
Proof.
  intros H x. subst x.
  pose proof (Initialize_fields m) as I. cbv zeta in I.
  assert (Ht : andb (Ahrs.Measurement.WValid m)
                 (Ahrs.gtb
                    (if Ahrs.Measurement.WValid m
                     then Ahrs.Hypot (Ahrs.Measurement.W1 m)
                                     (Ahrs.Measurement.W2 m)
                     else 0) 5) = false).
  { destruct H as [H | H].
    - rewrite H. reflexivity.
    - destruct (Ahrs.Measurement.WValid m); [ | reflexivity].
      cbn [andb]. apply gtb_false. exact H. }
  rewrite Ht in I.
  destruct I as (IE & IF & _ & _ & e12 & (e11 & e13 & e21 & e22 & e23
                                          & e31 & e32 & e33)).
  split; [exact IE | split; [exact IF | ]].
  pose proof (Initialize_N m) as N. cbv zeta in N. rewrite N.
  destruct (Ahrs.Measurement.MValid m); [ | reflexivity].
  rewrite e11, e12, e13, e21, e22, e23, e31, e32, e33.
  f_equal; [f_equal | ]; lra.
Qed.

Lemma Initialize_without_track_witness :
  (Ahrs.Measurement.WValid m_valid = false \/
   Ahrs.Hypot (Ahrs.Measurement.W1 m_valid) (Ahrs.Measurement.W2 m_valid)
   <= 5) /\
  (let x := Ahrs.Initialize m_valid in
   quatE x = (1, 0, 0, 0) /\ quatF x = (1, 0, 0, 0) /\
   (Ahrs.State.N1 x, Ahrs.State.N2 x, Ahrs.State.N3 x)
   = (if Ahrs.Measurement.MValid m_valid
      then (Ahrs.Measurement.M1 m_valid, Ahrs.Measurement.M2 m_valid,
            Ahrs.Measurement.M3 m_valid)
      else (0, 0, 0))).
Proof.
  assert (H : Ahrs.Measurement.WValid m_valid = false \/
              Ahrs.Hypot (Ahrs.Measurement.W1 m_valid)
                         (Ahrs.Measurement.W2 m_valid) <= 5).
  { right. unfold Ahrs.Hypot. simpl.
    replace (0 * 0 + 0 * 0) with 0 by ring. rewrite sqrt_0. lra. }
  split; [exact H | ].
  exact (Initialize_without_track m_valid H).
Defined.

(** ** [Predict] over time *)

Lemma G_nonzero : Ahrs.G <> 0.
Proof. unfold Ahrs.G. lra. Qed.

(** X5.  Airspeed prediction composes over time: predicting to [t1] and
    then to [t2] leaves the same airspeed [U] and the same time stamp as
    predicting to [t2] at once (the acceleration [Z] is constant between
    updates). *)
Theorem Predict_airspeed_composes (s : Ahrs.State.t) (t1 t2 : R) :
  let a := Ahrs.Predict (Ahrs.Predict s t1) t2 in
  let b := Ahrs.Predict s t2 in
  Ahrs.State.U1 a = Ahrs.State.U1 b /\
  Ahrs.State.U2 a = Ahrs.State.U2 b /\
  Ahrs.State.U3 a = Ahrs.State.U3 b /\
  Ahrs.State.T a = Ahrs.State.T b.
Proof.
  pose proof (Predict_rest (Ahrs.Predict s t1) t2) as A. cbv zeta in A.
  pose proof (Predict_rest s t1) as B. cbv zeta in B.
  pose proof (Predict_rest s t2) as C. cbv zeta in C.
  destruct A as ((A1 & A2 & A3) & AT & _).
  destruct B as ((B1 & B2 & B3) & BT & _ & (Z1 & Z2 & Z3) & _).
  destruct C as ((C1 & C2 & C3) & CT & _).
  set (p := Ahrs.Predict s t1) in *.
  set (a := Ahrs.Predict p t2) in *.
  set (b := Ahrs.Predict s t2) in *.
  clearbody a b p. cbv zeta.
  rewrite A1, A2, A3, AT, C1, C2, C3, CT, BT, B1, B2, B3, Z1, Z2, Z3.
  pose proof G_nonzero.
  repeat split; field; assumption.
Qed.

(** [calcJacobianState] hands back the receiver with E advanced once. *)
Lemma calcJacobianState_state (s : Ahrs.State.t) (t : R) :
  fst (Ahrs.calcJacobianState s t)
  = Ahrs.advanceE s (t - Ahrs.State.T s).
Proof. reflexivity. Qed.

Lemma advanceE_keeps (s : Ahrs.State.t) (dt : R) :
  Ahrs.State.T (Ahrs.advanceE s dt) = Ahrs.State.T s /\
  Ahrs.State.M (Ahrs.advanceE s dt) = Ahrs.State.M s /\
  Ahrs.State.N (Ahrs.advanceE s dt) = Ahrs.State.N s.
Proof. repeat split; reflexivity. Qed.

(** The covariance [Predict] leaves: F.M.F^T + dt.N, with F the Jacobian
    of [calcJacobianState]. *)
Lemma Predict_M (s : Ahrs.State.t) (t : R) :
  let f := snd (Ahrs.calcJacobianState s t) in
  Ahrs.State.M (Ahrs.Predict s t)
  = Sum (Product f (Product (Ahrs.State.M s) (Transpose f)))
        (Scaled (Ahrs.State.N s) (t - Ahrs.State.T s)) /\
  Ahrs.State.N (Ahrs.Predict s t) = Ahrs.State.N s.
Proof.
  intro f. subst f.
  pose proof (calcJacobianState_state s t) as HS.
  destruct (advanceE_keeps s (t - Ahrs.State.T s)) as (KT & KM & KN).
  rewrite <- HS in KT, KM, KN.
  unfold Ahrs.Predict.
  destruct (Ahrs.calcJacobianState s t) as [s1 f].
  cbn [fst snd] in *. clear HS.
  rewrite <- KT, <- KM, <- KN. clear KT KM KN.
  split; reflexivity.
Qed.

(** ** The field and the magnetometer bias in a running filter *)

Lemma fieldIndex_cases (i : nat) :
  fieldIndex i = true ->
  i = 13%nat \/ i = 14%nat \/ i = 15%nat \/
  i = 29%nat \/ i = 30%nat \/ i = 31%nat.
Proof.
  unfold fieldIndex. intro H.
  apply orb_prop in H. destruct H as [H | H];
    apply andb_prop in H; destruct H as [A B];
    apply Nat.leb_le in A; apply Nat.leb_le in B; lia.
Qed.

Lemma fieldIndex_below (i : nat) : fieldIndex i = true -> (i < 32)%nat.
Proof. intro H. apply fieldIndex_cases in H. lia. Qed.

(** No entry of the measurement Jacobian lies in a column of N or L: the
    magnetometer rows that would fill them are commented out in the
    source. *)
Lemma calcJacobianMeasurement_field_columns (s : Ahrs.State.t) (k j : nat) :
  fieldIndex j = true -> Get (Ahrs.calcJacobianMeasurement s) k j = 0.
Proof.
  intro Hj. unfold Ahrs.calcJacobianMeasurement. cbv zeta.
  repeat (rewrite elem_Set_other
            by (intro Hc; injection Hc as -> ->; discriminate Hj)).
  reflexivity.
Qed.

Lemma calcJacobianMeasurement_shape (s : Ahrs.State.t) :
  rows (Ahrs.calcJacobianMeasurement s) = 15%nat /\
  cols (Ahrs.calcJacobianMeasurement s) = 32%nat.
Proof. split; reflexivity. Qed.

(** The state Jacobian is the identity in the rows and in the columns of
    N and L. *)
Lemma calcJacobianState_field (s : Ahrs.State.t) (t : R) (i j : nat) :
  fieldIndex i = true \/ fieldIndex j = true ->
  Get (snd (Ahrs.calcJacobianState s t)) i j
  = if Nat.eqb i j then 1 else 0.
Proof.
  intro H. unfold Ahrs.calcJacobianState. cbv zeta. cbn [snd].
  repeat (rewrite elem_Set_other
            by (intro Hc; injection Hc as -> ->;
                destruct H as [H | H]; discriminate H)).
  reflexivity.
Qed.

Lemma calcJacobianState_shape (s : Ahrs.State.t) (t : R) :
  rows (snd (Ahrs.calcJacobianState s t)) = 32%nat /\
  cols (snd (Ahrs.calcJacobianState s t)) = 32%nat.
Proof. split; reflexivity. Qed.

(** What [Update] leaves, by the outcome of the inversion. *)
Lemma Update_state (Inverse : DenseMatrix -> option DenseMatrix)
      (s : Ahrs.State.t) (m : Ahrs.Measurement.t) :
  let s1 := Ahrs.normalize s in
  let z := snd (Ahrs.PredictMeasurement s) in
  let h := Ahrs.calcJacobianMeasurement s1 in
  let g := Ahrs.gate m (Ahrs.innovation m z) in
  Ahrs.state (Ahrs.Update Inverse s m)
  = match Inverse (innovationCovariance s m) with
    | None => s1
    | Some m2 =>
        let kk := Product (Ahrs.State.M s1) (Product (Transpose h) m2) in
        Ahrs.normalize
          (Ahrs.correct s1 (Ahrs.Measurement.withM m (snd g)) kk h
                        (Product kk (fst g)))
    end.
Proof.
  cbv zeta. unfold Ahrs.Update, innovationCovariance.
  rewrite <- (PredictMeasurement_state s).
  destruct (Ahrs.PredictMeasurement s) as [s1 z].
  cbn [fst snd].
  destruct (Ahrs.gate m (Ahrs.innovation m z)) as [y mM].
  cbv zeta. cbn [Ahrs.Measurement.withM Ahrs.Measurement.M fst snd].
  destruct (Inverse _); reflexivity.
Qed.

(** What [correct] and [normalize] do to N, L and the covariances. *)
Lemma correct_field (s : Ahrs.State.t) (m : Ahrs.Measurement.t)
      (kk h su : DenseMatrix) :
  let s' := Ahrs.correct s m kk h su in
  (Ahrs.State.N1 s' = Ahrs.State.N1 s + Get su 13 0 /\
   Ahrs.State.N2 s' = Ahrs.State.N2 s + Get su 14 0 /\
   Ahrs.State.N3 s' = Ahrs.State.N3 s + Get su 15 0) /\
  (Ahrs.State.L1 s' = Ahrs.State.L1 s + Get su 29 0 /\
   Ahrs.State.L2 s' = Ahrs.State.L2 s + Get su 30 0 /\
   Ahrs.State.L3 s' = Ahrs.State.L3 s + Get su 31 0) /\
  Ahrs.State.M s'
  = Product (Difference (Eye 32) (Product kk h)) (Ahrs.State.M s) /\
  Ahrs.State.N s' = Ahrs.State.N s.
Proof. repeat split; reflexivity. Qed.

(** With N and L decoupled in the covariance, the Kalman gain has no
    entry in their rows. *)
Lemma gain_field_rows (A h m2 : DenseMatrix) (i c : nat) :
  cols A = 32%nat -> fieldDecoupled A ->
  (forall k j, fieldIndex j = true -> elem h k j = 0) ->
  fieldIndex i = true ->
  elem (Product A (Product (Transpose h) m2)) i c = 0.
Proof.
  intros Hc Hd Hh Hi. unfold Product, Transpose. cbn [elem rows cols].
  rewrite Hc. apply dot_zero. intros j Hj.
  destruct (fieldIndex j) eqn:Fj.
  - rewrite (dot_zero (rows h))
      by (intros k _; rewrite (Hh k j Fj); ring).
    ring.
  - rewrite (Hd i j Hi Hj Fj). ring.
Qed.

(** One [Update] keeps N and L, and keeps them decoupled. *)
Lemma Update_field (Inverse : DenseMatrix -> option DenseMatrix)
      (s : Ahrs.State.t) (m : Ahrs.Measurement.t) :
  cols (Ahrs.State.M s) = 32%nat ->
  fieldDecoupled (Ahrs.State.M s) ->
  let s' := Ahrs.state (Ahrs.Update Inverse s m) in
  ((Ahrs.State.N1 s' = Ahrs.State.N1 s /\ Ahrs.State.N2 s' = Ahrs.State.N2 s /\
    Ahrs.State.N3 s' = Ahrs.State.N3 s) /\
   (Ahrs.State.L1 s' = Ahrs.State.L1 s /\ Ahrs.State.L2 s' = Ahrs.State.L2 s /\
    Ahrs.State.L3 s' = Ahrs.State.L3 s)) /\
  cols (Ahrs.State.M s') = 32%nat /\
  fieldDecoupled (Ahrs.State.M s') /\
  Ahrs.State.N s' = Ahrs.State.N s.
Proof.
  intros Hc Hd s'. subst s'.
  pose proof (Update_state Inverse s m) as HU. cbv zeta in HU.
  rewrite HU. clear HU.
  pose proof (normalize_keeps s) as K. cbv zeta in K.
  destruct K as (_ & _ & _ & (N1 & N2 & N3) & _ & _ & _ & (L1 & L2 & L3)
                 & _ & KM & KN).
  set (s1 := Ahrs.normalize s) in *.
  destruct (Inverse (innovationCovariance s m)) as [m2 | ].
  - set (h := Ahrs.calcJacobianMeasurement s1).
    set (g := Ahrs.gate m (Ahrs.innovation m (snd (Ahrs.PredictMeasurement s)))).
    set (kk := Product (Ahrs.State.M s1) (Product (Transpose h) m2)).
    assert (Hk : forall i c, fieldIndex i = true -> elem kk i c = 0).
    { intros i c Hi. subst kk.
      apply gain_field_rows;
        [ rewrite KM; exact Hc | rewrite KM; exact Hd | | exact Hi ].
      intros k j Hj. exact (calcJacobianMeasurement_field_columns s1 k j Hj). }
    assert (Hs : forall i, fieldIndex i = true ->
                           Get (Product kk (fst g)) i 0 = 0).
    { intros i Hi. unfold Get. apply Product_zero_row.
      intro k. apply Hk. exact Hi. }
    pose proof (correct_field s1 (Ahrs.Measurement.withM m (snd g)) kk h
                  (Product kk (fst g))) as C. cbv zeta in C.
    set (s2 := Ahrs.correct s1 (Ahrs.Measurement.withM m (snd g)) kk h
                            (Product kk (fst g))) in *.
    destruct C as ((C1 & C2 & C3) & (D1 & D2 & D3) & CM & CN).
    rewrite !Hs in C1, C2, C3, D1, D2, D3 by reflexivity.
    pose proof (normalize_keeps s2) as K2. cbv zeta in K2.
    destruct K2 as (_ & _ & _ & (P1 & P2 & P3) & _ & _ & _ & (Q1 & Q2 & Q3)
                    & _ & K2M & K2N).
    clearbody s2 s1 kk.
    split; [ | split; [ | split ] ].
    + rewrite P1, P2, P3, Q1, Q2, Q3, C1, C2, C3, D1, D2, D3.
      rewrite N1, N2, N3, L1, L2, L3. repeat split; ring.
    + rewrite K2M, CM. cbn [cols Product]. rewrite KM. exact Hc.
    + rewrite K2M, CM. intros i j Hi Hj Fj.
      unfold Product, Difference, Eye. cbn [elem rows cols].
      rewrite (dot_single 32 i).
      * rewrite Nat.eqb_refl.
        rewrite (dot_zero (cols kk))
          by (intros k _; rewrite (Hk i k Hi); ring).
        rewrite KM, (Hd i j Hi Hj Fj). ring.
      * apply fieldIndex_below. exact Hi.
      * intros k Hk' Hne.
        rewrite (dot_zero (cols kk))
          by (intros k0 _; rewrite (Hk i k0 Hi); ring).
        destruct (Nat.eqb_spec i k); [congruence | ring].
    + rewrite K2N, CN, KN. reflexivity.
  - clearbody s1.
    split; [ | split; [ | split ] ].
    + repeat split; assumption.
    + rewrite KM. exact Hc.
    + rewrite KM. exact Hd.
    + exact KN.
Qed.

(** One [Predict] keeps N and L decoupled in the covariance. *)
Lemma Predict_field (s : Ahrs.State.t) (t : R) :
  cols (Ahrs.State.M s) = 32%nat ->
  fieldDecoupled (Ahrs.State.M s) ->
  fieldDecoupled (Ahrs.State.N s) ->
  let s' := Ahrs.Predict s t in
  cols (Ahrs.State.M s') = 32%nat /\
  fieldDecoupled (Ahrs.State.M s') /\
  Ahrs.State.N s' = Ahrs.State.N s.
Proof.
  intros Hc Hd Hn s'. subst s'.
  pose proof (Predict_M s t) as P. cbv zeta in P. destruct P as [PM PN].
  destruct (calcJacobianState_shape s t) as [Fr Fc].
  pose proof (calcJacobianState_field s t) as Fe.
  set (f := snd (Ahrs.calcJacobianState s t)) in *. clearbody f.
  set (p := Ahrs.Predict s t) in *. clearbody p.
  rewrite PM, PN.
  split; [ | split; [ | reflexivity ] ].
  - cbn [cols Sum Product Transpose]. exact Fr.
  - intros i j Hi Hj Fj.
    unfold Sum, Product, Transpose, Scaled. cbn [elem rows cols].
    rewrite Fc, Hc.
    rewrite (Hn i j Hi Hj Fj).
    rewrite (dot_single 32 i).
    + assert (Fii : elem f i i = 1).
      { pose proof (Fe i i (or_introl Hi)) as E. unfold Get in E.
        rewrite E, Nat.eqb_refl. reflexivity. }
      rewrite Fii.
      rewrite (dot_zero 32); [ring | ].
      intros b Hb.
      destruct (fieldIndex b) eqn:Fb.
      * pose proof (Fe j b (or_intror Fb)) as E. unfold Get in E.
        rewrite E.
        destruct (Nat.eqb_spec j b) as [-> | ]; [congruence | ring].
      * rewrite (Hd i b Hi Hb Fb). ring.
    + apply fieldIndex_below. exact Hi.
    + intros k Hk Hne.
      pose proof (Fe i k (or_introl Hi)) as E. unfold Get in E.
      rewrite E.
      destruct (Nat.eqb_spec i k); [congruence | ring].
Qed.

(** The square of a diagonal matrix has no entry off the diagonal. *)
Lemma Diagonal_square_offdiagonal (d : list R) (i j : nat) :
  i <> j -> elem (Product (Diagonal d) (Diagonal d)) i j = 0.
Proof.
  intro Hne. unfold Product, Diagonal. cbn [elem rows cols].
  apply dot_zero. intros k _.
  destruct (Nat.eqb_spec i k) as [-> | ]; [ | ring].
  destruct (Nat.eqb_spec k j); [congruence | ring].
Qed.

Lemma Set_diagonal_offdiagonal (A : DenseMatrix) (k : nat) (v : R)
      (i j : nat) :
  i <> j -> elem (Set_ A k k v) i j = elem A i j.
Proof.
  intro Hne. apply (elem_Set_other A k k i j v).
  intro Hc. injection Hc as -> ->. congruence.
Qed.

(** The covariances [Initialize] builds are diagonal, 32 columns wide. *)
Lemma Initialize_covariances (m : Ahrs.Measurement.t) :
  let x := Ahrs.Initialize m in
  cols (Ahrs.State.M x) = 32%nat /\
  (forall i j, i <> j -> elem (Ahrs.State.M x) i j = 0) /\
  (forall i j, i <> j -> elem (Ahrs.State.N x) i j = 0).
Proof.
  unfold Ahrs.Initialize. cbv zeta.
  set (s1 := Ahrs.initCovariances Ahrs.State.zero).
  assert (A : cols (Ahrs.State.M s1) = 32%nat /\
              (forall i j, i <> j -> elem (Ahrs.State.M s1) i j = 0) /\
              (forall i j, i <> j -> elem (Ahrs.State.N s1) i j = 0)).
  { split; [reflexivity | split]; intros i j Hne;
      apply Diagonal_square_offdiagonal; exact Hne. }
  clearbody s1.
  set (s2 := Ahrs.initAirspeed m s1).
  assert (B : cols (Ahrs.State.M s2) = 32%nat /\
              (forall i j, i <> j -> elem (Ahrs.State.M s2) i j = 0) /\
              (forall i j, i <> j -> elem (Ahrs.State.N s2) i j = 0)).
  { destruct A as (A1 & A2 & A3). subst s2. unfold Ahrs.initAirspeed.
    destruct (Ahrs.Measurement.WValid m).
    - split; [exact A1 | split]; intros i j Hne.
      + cbn [Ahrs.State.M Ahrs.State.withM Ahrs.State.withU].
        rewrite !Set_diagonal_offdiagonal by exact Hne.
        apply A2. exact Hne.
      + apply A3. exact Hne.
    - auto. }
  clear A. clearbody s2.
  set (s3 := Ahrs.initHeading m s2).
  assert (C : cols (Ahrs.State.M s3) = 32%nat /\
              (forall i j, i <> j -> elem (Ahrs.State.M s3) i j = 0) /\
              (forall i j, i <> j -> elem (Ahrs.State.N s3) i j = 0)).
  { destruct B as (B1 & B2 & B3). subst s3. unfold Ahrs.initHeading.
    destruct (andb (Ahrs.Measurement.WValid m)
                   (Ahrs.gtb (Ahrs.State.U1 s2) 5)).
    - destruct (Ahrs.gtb (Ahrs.Measurement.W2 m) 0);
        (split; [exact B1 | split]; intros i j Hne;
         [ cbn [Ahrs.State.M Ahrs.State.withM Ahrs.State.withE];
           rewrite !Set_diagonal_offdiagonal by exact Hne;
           apply B2; exact Hne
         | apply B3; exact Hne ]).
    - split; [exact B1 | split]; intros i j Hne; [apply B2 | apply B3];
        exact Hne. }
  clear B. clearbody s3.
  set (s4 := Ahrs.State.withF s3 1 (Ahrs.State.F1 s3) (Ahrs.State.F2 s3)
                              (Ahrs.State.F3 s3)).
  pose proof (normalize_keeps s4) as K. cbv zeta in K.
  destruct K as (_ & _ & _ & _ & _ & _ & _ & _ & _ & KM & KN).
  change (Ahrs.State.M s4) with (Ahrs.State.M s3) in KM.
  change (Ahrs.State.N s4) with (Ahrs.State.N s3) in KN.
  set (s5 := Ahrs.normalize s4) in *. clearbody s5. clear s4.
  assert (FM : Ahrs.State.M (Ahrs.initField m s5) = Ahrs.State.M s5)
    by (unfold Ahrs.initField; destruct (Ahrs.Measurement.MValid m);
        reflexivity).
  assert (FN : Ahrs.State.N (Ahrs.initField m s5) = Ahrs.State.N s5)
    by (unfold Ahrs.initField; destruct (Ahrs.Measurement.MValid m);
        reflexivity).
  rewrite FM, FN, KM, KN. exact C.
Qed.

(** The blocks of [Initialize] do not write the magnetometer bias. *)
Lemma initAirspeed_L (m : Ahrs.Measurement.t) (s : Ahrs.State.t) :
  let s' := Ahrs.initAirspeed m s in
  Ahrs.State.L1 s' = Ahrs.State.L1 s /\ Ahrs.State.L2 s' = Ahrs.State.L2 s /\
  Ahrs.State.L3 s' = Ahrs.State.L3 s.
Proof.
  unfold Ahrs.initAirspeed.
  destruct (Ahrs.Measurement.WValid m); repeat split; reflexivity.
Qed.

Lemma initHeading_L (m : Ahrs.Measurement.t) (s : Ahrs.State.t) :
  let s' := Ahrs.initHeading m s in
  Ahrs.State.L1 s' = Ahrs.State.L1 s /\ Ahrs.State.L2 s' = Ahrs.State.L2 s /\
  Ahrs.State.L3 s' = Ahrs.State.L3 s.
Proof.
  unfold Ahrs.initHeading.
  destruct (andb (Ahrs.Measurement.WValid m) (Ahrs.gtb (Ahrs.State.U1 s) 5));
    [destruct (Ahrs.gtb (Ahrs.Measurement.W2 m) 0) | ];
    repeat split; reflexivity.
Qed.

Lemma initField_L (m : Ahrs.Measurement.t) (s : Ahrs.State.t) :
  let s' := Ahrs.initField m s in
  Ahrs.State.L1 s' = Ahrs.State.L1 s /\ Ahrs.State.L2 s' = Ahrs.State.L2 s /\
  Ahrs.State.L3 s' = Ahrs.State.L3 s.
Proof.
  unfold Ahrs.initField.
  destruct (Ahrs.Measurement.MValid m); repeat split; reflexivity.
Qed.

(** [Initialize] leaves the magnetometer bias at zero. *)
Lemma Initialize_L (m : Ahrs.Measurement.t) :
  let x := Ahrs.Initialize m in
  Ahrs.State.L1 x = 0 /\ Ahrs.State.L2 x = 0 /\ Ahrs.State.L3 x = 0.
Proof.
  unfold Ahrs.Initialize. cbv zeta.
  assert (A : Ahrs.State.L1 (Ahrs.initCovariances Ahrs.State.zero) = 0 /\
              Ahrs.State.L2 (Ahrs.initCovariances Ahrs.State.zero) = 0 /\
              Ahrs.State.L3 (Ahrs.initCovariances Ahrs.State.zero) = 0)
    by (repeat split; reflexivity).
  set (s1 := Ahrs.initCovariances Ahrs.State.zero) in *. clearbody s1.
  pose proof (initAirspeed_L m s1) as B. cbv zeta in B.
  set (s2 := Ahrs.initAirspeed m s1) in *. clearbody s2.
  pose proof (initHeading_L m s2) as C. cbv zeta in C.
  set (s3 := Ahrs.initHeading m s2) in *. clearbody s3.
  assert (D : Ahrs.State.L1 (Ahrs.State.withF s3 1 (Ahrs.State.F1 s3)
                               (Ahrs.State.F2 s3) (Ahrs.State.F3 s3))
              = Ahrs.State.L1 s3 /\
              Ahrs.State.L2 (Ahrs.State.withF s3 1 (Ahrs.State.F1 s3)
                               (Ahrs.State.F2 s3) (Ahrs.State.F3 s3))
              = Ahrs.State.L2 s3 /\
              Ahrs.State.L3 (Ahrs.State.withF s3 1 (Ahrs.State.F1 s3)
                               (Ahrs.State.F2 s3) (Ahrs.State.F3 s3))
              = Ahrs.State.L3 s3) by (repeat split; reflexivity).
  set (s4 := Ahrs.State.withF s3 1 (Ahrs.State.F1 s3) (Ahrs.State.F2 s3)
                              (Ahrs.State.F3 s3)) in *. clearbody s4.
  pose proof (normalize_keeps s4) as K. cbv zeta in K.
  destruct K as (_ & _ & _ & _ & _ & _ & _ & (K1 & K2 & K3) & _).
  set (s5 := Ahrs.normalize s4) in *. clearbody s5.
  pose proof (initField_L m s5) as F. cbv zeta in F.
  set (s6 := Ahrs.initField m s5) in *. clearbody s6.
  destruct A as (A1 & A2 & A3). destruct B as (B1 & B2 & B3).
  destruct C as (C1 & C2 & C3). destruct D as (D1 & D2 & D3).
  destruct F as (F1 & F2 & F3).
  repeat split; congruence.
Qed.

Lemma diagonal_fieldDecoupled (A : DenseMatrix) :
  (forall i j, i <> j -> elem A i j = 0) -> fieldDecoupled A.
Proof.
  intros H i j Hi _ Hj. apply H. intros ->. congruence.
Qed.

(** Every call keeps N and L, and keeps them decoupled. *)
Lemma runStep_field (Inverse : DenseMatrix -> option DenseMatrix)
      (s : Ahrs.State.t) (c : step) :
  cols (Ahrs.State.M s) = 32%nat ->
  fieldDecoupled (Ahrs.State.M s) ->
  fieldDecoupled (Ahrs.State.N s) ->
  let s' := runStep Inverse s c in
  ((Ahrs.State.N1 s' = Ahrs.State.N1 s /\ Ahrs.State.N2 s' = Ahrs.State.N2 s /\
    Ahrs.State.N3 s' = Ahrs.State.N3 s) /\
   (Ahrs.State.L1 s' = Ahrs.State.L1 s /\ Ahrs.State.L2 s' = Ahrs.State.L2 s /\
    Ahrs.State.L3 s' = Ahrs.State.L3 s)) /\
  cols (Ahrs.State.M s') = 32%nat /\
  fieldDecoupled (Ahrs.State.M s') /\
  fieldDecoupled (Ahrs.State.N s').
Proof.
  intros Hc Hd Hn. destruct c as [t | m]; cbn [runStep]; cbv zeta.
  - pose proof (Predict_field s t Hc Hd Hn) as P. cbv zeta in P.
    pose proof (Predict_rest s t) as R. cbv zeta in R.
    destruct R as (_ & _ & _ & _ & _ & RN & _ & _ & _ & RL).
    set (p := Ahrs.Predict s t) in *. clearbody p.
    destruct P as (P1 & P2 & P3).
    split; [split; assumption | ].
    split; [exact P1 | split; [exact P2 | rewrite P3; exact Hn]].
  - pose proof (Update_field Inverse s m Hc Hd) as U. cbv zeta in U.
    set (u := Ahrs.state (Ahrs.Update Inverse s m)) in *. clearbody u.
    destruct U as (U0 & U1 & U2 & U3).
    split; [exact U0 | ].
    split; [exact U1 | split; [exact U2 | rewrite U3; exact Hn]].
Qed.

Lemma runFilter_field (Inverse : DenseMatrix -> option DenseMatrix)
      (calls : list step) (s : Ahrs.State.t) :
  cols (Ahrs.State.M s) = 32%nat ->
  fieldDecoupled (Ahrs.State.M s) ->
  fieldDecoupled (Ahrs.State.N s) ->
  let s' := runFilter Inverse s calls in
  (Ahrs.State.N1 s' = Ahrs.State.N1 s /\ Ahrs.State.N2 s' = Ahrs.State.N2 s /\
   Ahrs.State.N3 s' = Ahrs.State.N3 s) /\
  (Ahrs.State.L1 s' = Ahrs.State.L1 s /\ Ahrs.State.L2 s' = Ahrs.State.L2 s /\
   Ahrs.State.L3 s' = Ahrs.State.L3 s).
Proof.
  revert s. induction calls as [ | c calls IH]; intros s Hc Hd Hn.
  - cbn. repeat split; reflexivity.
  - cbv zeta. unfold runFilter. cbn [fold_left].
    fold (runFilter Inverse (runStep Inverse s c) calls).
    pose proof (runStep_field Inverse s c Hc Hd Hn) as S. cbv zeta in S.
    set (s1 := runStep Inverse s c) in *. clearbody s1.
    destruct S as (((N1 & N2 & N3) & (L1 & L2 & L3)) & S1 & S2 & S3).
    pose proof (IH s1 S1 S2 S3) as I. cbv zeta in I.
    set (s2 := runFilter Inverse s1 calls) in *. clearbody s2.
    destruct I as ((M1 & M2 & M3) & (K1 & K2 & K3)).
    repeat split; congruence.
Qed.

(** X6.  A running filter never corrects the earth's field N nor the
    magnetometer bias L: after any sequence of [Predict] and [Update]
    calls on the state of [Initialize], whatever the measurements and
    whatever the matrix inversion returns, N is what [Initialize] stored
    and L is zero.  (The measurement Jacobian has no entry in their
    columns, and the covariance never correlates them with the rest.) *)
Theorem field_never_corrected (Inverse : DenseMatrix -> option DenseMatrix)
        (m0 : Ahrs.Measurement.t) (calls : list step) :
  let s0 := Ahrs.Initialize m0 in
  let s := runFilter Inverse s0 calls in
  (Ahrs.State.N1 s, Ahrs.State.N2 s, Ahrs.State.N3 s)
  = (Ahrs.State.N1 s0, Ahrs.State.N2 s0, Ahrs.State.N3 s0) /\
  (Ahrs.State.L1 s, Ahrs.State.L2 s, Ahrs.State.L3 s) = (0, 0, 0).
Proof.
  pose proof (Initialize_covariances m0) as C. cbv zeta in C.
  pose proof (Initialize_L m0) as L. cbv zeta in L.
  set (s0 := Ahrs.Initialize m0) in *. clearbody s0.
  destruct C as (C1 & C2 & C3). destruct L as (L1 & L2 & L3).
  pose proof (runFilter_field Inverse calls s0 C1
                (diagonal_fieldDecoupled _ C2)
                (diagonal_fieldDecoupled _ C3)) as F.
  cbv zeta in F |- *.
  set (s := runFilter Inverse s0 calls) in *. clearbody s.
  destruct F as ((N1 & N2 & N3) & (K1 & K2 & K3)).
  split; congruence.
Qed.

(** ** [Update] on the measurement the state predicts *)

(** Writing a zero into a matrix keeps a zero entry zero. *)
Lemma Set_zero_entry (A : DenseMatrix) (i j : nat) (v : R) (k c : nat) :
  v = 0 -> elem A k c = 0 -> elem (Set_ A i j v) k c = 0.
Proof.
  intros Hv HA. unfold Set_. cbn [elem].
  destruct (andb (Nat.eqb k i) (Nat.eqb c j)); assumption.
Qed.

(** When the measurement holds the predicted readings, the innovation is
    zero in every row, before and after the gates. *)
Lemma gate_agrees (m z : Ahrs.Measurement.t) (k : nat) :
  agrees m z ->
  elem (fst (Ahrs.gate m (Ahrs.innovation m z))) k 0 = 0.
Proof.
  intros ((U1 & U2 & U3) & (W1 & W2 & W3) & (A1 & A2 & A3)
          & (B1 & B2 & B3) & (M1 & M2 & M3)).
  unfold Ahrs.gate, Ahrs.innovation.
  rewrite U1, U2, U3, W1, W2, W3, A1, A2, A3, B1, B2, B3, M1, M2, M3.
  destruct (Ahrs.Measurement.UValid m), (Ahrs.Measurement.WValid m),
    (Ahrs.Measurement.SValid m), (Ahrs.Measurement.MValid m);
    cbv beta iota zeta; unfold fst;
    repeat (apply Set_zero_entry; [ring | ]); reflexivity.
Qed.

(** [correct] with a zero correction keeps the 32 scalars. *)
Lemma correct_zero (s : Ahrs.State.t) (m : Ahrs.Measurement.t)
      (kk h su : DenseMatrix) :
  (forall i, Get su i 0 = 0) ->
  scalars (Ahrs.correct s m kk h su) = scalars s.
Proof.
  intro H. unfold scalars, Ahrs.correct.
  cbn [Ahrs.State.U1 Ahrs.State.U2 Ahrs.State.U3
       Ahrs.State.Z1 Ahrs.State.Z2 Ahrs.State.Z3
       Ahrs.State.E0 Ahrs.State.E1 Ahrs.State.E2 Ahrs.State.E3
       Ahrs.State.H1 Ahrs.State.H2 Ahrs.State.H3
       Ahrs.State.N1 Ahrs.State.N2 Ahrs.State.N3
       Ahrs.State.V1 Ahrs.State.V2 Ahrs.State.V3
       Ahrs.State.C1 Ahrs.State.C2 Ahrs.State.C3
       Ahrs.State.F0 Ahrs.State.F1 Ahrs.State.F2 Ahrs.State.F3
       Ahrs.State.D1 Ahrs.State.D2 Ahrs.State.D3
       Ahrs.State.L1 Ahrs.State.L2 Ahrs.State.L3].
  rewrite !H. repeat (apply (f_equal2 cons); [ring | ]). reflexivity.
Qed.

Lemma scalars_norms (a b : Ahrs.State.t) :
  scalars a = scalars b -> normE2 a = normE2 b /\ normF2 a = normF2 b.
Proof.
  unfold scalars. intro H.
  injection H as U1 U2 U3 Z1 Z2 Z3 E0 E1 E2 E3 H1 H2 H3 N1 N2 N3
                 V1 V2 V3 C1 C2 C3 F0 F1 F2 F3.
  unfold normE2, normF2. rewrite E0, E1, E2, E3, F0, F1, F2, F3.
  split; reflexivity.
Qed.

(** X7.  A measurement that holds exactly what the state predicts does
    not move the estimate: after [Update] the 32 state scalars are those
    of the normalized state, whatever the validity flags, the noise
    matrix and the outcome of the inversion. *)
Theorem Update_without_innovation
        (Inverse : DenseMatrix -> option DenseMatrix)
        (s : Ahrs.State.t) (m : Ahrs.Measurement.t) :
  normE2 s <> 0 -> normF2 s <> 0 ->
  agrees m (snd (Ahrs.PredictMeasurement s)) ->
  scalars (Ahrs.state (Ahrs.Update Inverse s m))
  = scalars (Ahrs.normalize s).
Proof.
  intros HE HF Ha.
  pose proof (Update_state Inverse s m) as HU. cbv zeta in HU.
  rewrite HU. clear HU.
  destruct (normalize_unit s) as [UE UF].
  specialize (UE HE). specialize (UF HF).
  set (s1 := Ahrs.normalize s) in *.
  destruct (Inverse (innovationCovariance s m)) as [m2 | ];
    [ | reflexivity].
  set (z := snd (Ahrs.PredictMeasurement s)) in *.
  set (g := Ahrs.gate m (Ahrs.innovation m z)).
  set (h := Ahrs.calcJacobianMeasurement s1).
  set (kk := Product (Ahrs.State.M s1) (Product (Transpose h) m2)).
  assert (Hs : forall i, Get (Product kk (fst g)) i 0 = 0).
  { intro i. unfold Get. apply Product_zero_right.
    intro k. subst g. apply gate_agrees. exact Ha. }
  pose proof (correct_zero s1 (Ahrs.Measurement.withM m (snd g)) kk h
                (Product kk (fst g)) Hs) as C.
  set (s2 := Ahrs.correct s1 (Ahrs.Measurement.withM m (snd g)) kk h
                          (Product kk (fst g))) in *.
  clearbody s2 s1.
  destruct (scalars_norms s2 s1 C) as [NE NF].
  rewrite normalize_unit_scalars; [exact C | | ]; congruence.
Qed.

Lemma agrees_withM (z : Ahrs.Measurement.t) (noise : DenseMatrix) :
  agrees (Ahrs.Measurement.withM z noise) z.
Proof. repeat split; reflexivity. Qed.

Lemma Update_without_innovation_witness :
  scalars (Ahrs.state (Ahrs.Update exactInverse s_still m_predicted))
  = scalars (Ahrs.normalize s_still).
Proof.
  destruct s_still_unit as (UE & UF).
  apply (Update_without_innovation exactInverse s_still m_predicted).
  - rewrite UE. lra.
  - rewrite UF. lra.
  - exact (agrees_withM _ _).
Defined.

(** ** Further properties of the simulator *)

(** X8.  [ToQuaternion] returns a unit quaternion for every triple of
    angles. *)
Theorem ToQuaternion_unit (phi theta psi : R) :
  let '(q0, q1, q2, q3) := Sim.ToQuaternion phi theta psi in
  q0 * q0 + q1 * q1 + q2 * q2 + q3 * q3 = 1.
Proof.
  pose proof (ToQuaternion_products phi theta psi) as H.
  destruct (Sim.ToQuaternion phi theta psi) as [[[q0 q1] q2] q3].
  exact (proj1 H).
Qed.

Lemma half_turn (x : R) :
  cos ((x + 2 * PI - PI / 2) / 2) = - cos ((x - PI / 2) / 2) /\
  sin ((x + 2 * PI - PI / 2) / 2) = - sin ((x - PI / 2) / 2).
Proof.
  replace ((x + 2 * PI - PI / 2) / 2) with ((x - PI / 2) / 2 + PI) by field.
  split; [apply neg_cos | apply neg_sin].
Qed.

(** X9.  A full turn of the heading flips the sign of the quaternion, and
    [FromQuaternion] does not see the sign: q and -q, the two quaternions
    of one rotation, give the same three angles.  So the angles read back
    from ToQuaternion(phi, theta, psi + 2.pi) are those read back from
    ToQuaternion(phi, theta, psi). *)
Theorem heading_full_turn (phi theta psi : R) :
  let '(q0, q1, q2, q3) := Sim.ToQuaternion phi theta psi in
  Sim.ToQuaternion phi theta (psi + 2 * PI) = (- q0, - q1, - q2, - q3) /\
  Sim.FromQuaternion (- q0) (- q1) (- q2) (- q3)
  = Sim.FromQuaternion q0 q1 q2 q3.
Proof.
  destruct (Sim.ToQuaternion phi theta psi) as [[[q0 q1] q2] q3] eqn:Hq.
  split.
  - unfold Sim.ToQuaternion in *. cbv zeta in *. unfold Sim.pi in *.
    destruct (half_turn psi) as [Hc Hs]. rewrite Hc, Hs.
    injection Hq as <- <- <- <-.
    f_equal; [f_equal; [f_equal | ] | ]; ring.
  - unfold Sim.FromQuaternion. cbv zeta.
    replace (-2 * (- q0 * - q1 - - q2 * - q3))
      with (-2 * (q0 * q1 - q2 * q3)) by ring.
    replace (- q0 * - q0 - - q1 * - q1 - - q2 * - q2 + - q3 * - q3)
      with (q0 * q0 - q1 * q1 - q2 * q2 + q3 * q3) by ring.
    replace (2 * (- q0 * - q2 + - q3 * - q1))
      with (2 * (q0 * q2 + q3 * q1)) by ring.
    replace (- q0 * - q0 + - q1 * - q1 + - q2 * - q2 + - q3 * - q3)
      with (q0 * q0 + q1 * q1 + q2 * q2 + q3 * q3) by ring.
    replace (2 * (- q0 * - q3 - - q1 * - q2))
      with (2 * (q0 * q3 - q1 * q2)) by ring.
    replace (- q0 * - q0 + - q1 * - q1 - - q2 * - q2 - - q3 * - q3)
      with (q0 * q0 + q1 * q1 - q2 * q2 - q3 * q3) by ring.
    reflexivity.
Qed.

(** ** Situations with strictly increasing keyframe times *)

Lemma increasing_ascending (a : list R) : increasing a -> ascending a.
Proof.
  intros H i j Hij.
  destruct (Nat.eq_dec i j) as [-> | Hne]; [lra | ].
  left. apply H. lia.
Qed.

Lemma linear_at_left (s : Sim.Situation) (a : list R) (k : nat) :
  linear s a k (nth k (Sim.t s) 0) = nth k a 0.
Proof. unfold linear. cbv zeta. unfold Rdiv. ring. Qed.

Lemma linear_at_right (s : Sim.Situation) (a : list R) (k : nat) :
  nth k (Sim.t s) 0 < nth (S k) (Sim.t s) 0 ->
  linear s a k (nth (S k) (Sim.t s) 0) = nth (S k) a 0.
Proof. intro H. unfold linear. cbv zeta. field. lra. Qed.

(** A time bracketed by two segments lies on the keyframe they share, and
    both segments give the keyframe's value there. *)
Lemma linear_bracket (s : Sim.Situation) (a : list R) (ix k : nat) (t' : R) :
  increasing (Sim.t s) ->
  (S ix < List.length (Sim.t s))%nat -> (S k < List.length (Sim.t s))%nat ->
  nth ix (Sim.t s) 0 <= t' <= nth (S ix) (Sim.t s) 0 ->
  nth k (Sim.t s) 0 <= t' <= nth (S k) (Sim.t s) 0 ->
  linear s a ix t' = linear s a k t'.
Proof.
  intros Hinc Hi Hk Bi Bk.
  assert (Si : nth ix (Sim.t s) 0 < nth (S ix) (Sim.t s) 0)
    by (apply Hinc; lia).
  assert (Sk : nth k (Sim.t s) 0 < nth (S k) (Sim.t s) 0)
    by (apply Hinc; lia).
  destruct (lt_eq_lt_dec ix k) as [[Hlt | ->] | Hgt]; [ | reflexivity | ].
  - destruct (Nat.eq_dec (S ix) k) as [E | Hne].
    + subst k.
      assert (Et : t' = nth (S ix) (Sim.t s) 0) by lra.
      rewrite Et. rewrite linear_at_right by exact Si.
      rewrite linear_at_left. reflexivity.
    + assert (nth (S ix) (Sim.t s) 0 < nth k (Sim.t s) 0)
        by (apply Hinc; lia).
      lra.
  - destruct (Nat.eq_dec (S k) ix) as [E | Hne].
    + subst ix.
      assert (Et : t' = nth (S k) (Sim.t s) 0) by lra.
      rewrite Et. rewrite linear_at_left.
      rewrite linear_at_right by exact Sk. reflexivity.
    + assert (nth (S k) (Sim.t s) 0 < nth ix (Sim.t s) 0)
        by (apply Hinc; lia).
      lra.
Qed.

Lemma interpolated_bracket (s : Sim.Situation) (ix k : nat) (t' : R) :
  increasing (Sim.t s) ->
  (S ix < List.length (Sim.t s))%nat -> (S k < List.length (Sim.t s))%nat ->
  nth ix (Sim.t s) 0 <= t' <= nth (S ix) (Sim.t s) 0 ->
  nth k (Sim.t s) 0 <= t' <= nth (S k) (Sim.t s) 0 ->
  interpolated s ix t' = interpolated s k t'.
Proof.
  intros Hinc Hi Hk Bi Bk. unfold interpolated.
  rewrite !(fun a => linear_bracket s a ix k t' Hinc Hi Hk Bi Bk).
  reflexivity.
Qed.

Lemma segment_in_range (s : Sim.Situation) (k : nat) (t' : R) :
  increasing (Sim.t s) ->
  (S k < List.length (Sim.t s))%nat ->
  nth k (Sim.t s) 0 <= t' <= nth (S k) (Sim.t s) 0 ->
  firstTime s <= t' <= lastTime s.
Proof.
  intros Hinc Hk B. pose proof (increasing_ascending _ Hinc) as Hasc.
  unfold firstTime, lastTime.
  assert (nth 0 (Sim.t s) 0 <= nth k (Sim.t s) 0) by (apply Hasc; lia).
  assert (nth (S k) (Sim.t s) 0
          <= nth (List.length (Sim.t s) - 1) (Sim.t s) 0)
    by (apply Hasc; lia).
  lra.
Qed.

(** Between two adjacent keyframes [interpolate] returns the state
    interpolated between those two. *)
Lemma interpolate_segment (s : Sim.Situation) (k : nat) (t' : R) :
  wellFormed s -> increasing (Sim.t s) ->
  (S k < List.length (Sim.t s))%nat ->
  nth k (Sim.t s) 0 <= t' <= nth (S k) (Sim.t s) 0 ->
  Sim.interpolate s t' = Sim.Returns (interpolated s k t', None).
Proof.
  intros Hwf Hinc Hk B.
  pose proof (increasing_ascending _ Hinc) as Hasc.
  assert (H01 : nth 0 (Sim.t s) 0 < nth 1 (Sim.t s) 0) by (apply Hinc; lia).
  pose proof (segment_in_range s k t' Hinc Hk B) as Hin.
  destruct (interpolate_inside s t' Hwf ltac:(lia) Hasc H01 Hin)
    as (ix & Hi & Bi & _ & HI).
  rewrite HI. rewrite (interpolated_bracket s ix k t' Hinc Hi Hk Bi B).
  reflexivity.
Qed.

Lemma interpolated_at_left (s : Sim.Situation) (k : nat) :
  interpolated s k (nth k (Sim.t s) 0) = keyframe s k.
Proof.
  unfold interpolated, keyframe. rewrite !linear_at_left. reflexivity.
Qed.

Lemma interpolated_at_right (s : Sim.Situation) (k : nat) :
  nth k (Sim.t s) 0 < nth (S k) (Sim.t s) 0 ->
  interpolated s k (nth (S k) (Sim.t s) 0) = keyframe s (S k).
Proof.
  intro H. unfold interpolated, keyframe.
  rewrite !(fun a => linear_at_right s a k H). reflexivity.
Qed.

(** X10.  At a keyframe time [interpolate] returns the keyframe itself:
    its airspeed, wind and field, and the quaternions of its angles.  The
    Situation needs one entry per keyframe in every array, at least two
    keyframes, and strictly increasing times. *)
Theorem interpolate_at_keyframe (s : Sim.Situation) (k : nat) :
  wellFormed s -> increasing (Sim.t s) ->
  (2 <= List.length (Sim.t s))%nat -> (k < List.length (Sim.t s))%nat ->
  Sim.interpolate s (nth k (Sim.t s) 0) = Sim.Returns (keyframe s k, None).
Proof.
  intros Hwf Hinc Hlen Hk.
  destruct (Nat.eq_dec (S k) (List.length (Sim.t s))) as [Hlast | Hin].
  - destruct k as [ | j]; [lia | ].
    assert (Hlt : nth j (Sim.t s) 0 < nth (S j) (Sim.t s) 0)
      by (apply Hinc; lia).
    rewrite (interpolate_segment s j) by (first [assumption | lia | lra]).
    rewrite interpolated_at_right by exact Hlt. reflexivity.
  - assert (Hlt : nth k (Sim.t s) 0 < nth (S k) (Sim.t s) 0)
      by (apply Hinc; lia).
    rewrite (interpolate_segment s k) by (first [assumption | lia | lra]).
    rewrite interpolated_at_left. reflexivity.
Qed.

Lemma sitTurnDef_increasing : increasing (Sim.t Sim.sitTurnDef).
Proof.
  intros i j Hij. simpl in Hij.
  do 6 (destruct i as [ | i]; [
    do 6 (destruct j as [ | j]; [simpl; try lra; lia | ]); lia | ]).
  lia.
Qed.

Lemma interpolate_at_keyframe_witness :
  Sim.interpolate Sim.sitTurnDef (nth 2 (Sim.t Sim.sitTurnDef) 0)
  = Sim.Returns (keyframe Sim.sitTurnDef 2, None).
Proof.
  apply (interpolate_at_keyframe Sim.sitTurnDef 2).
  - exact sitTurnDef_wellFormed.
  - exact sitTurnDef_increasing.
  - simpl. lia.
  - simpl. lia.
Defined.

(** ** [derivative] inside a segment *)








(** ** Rotations in the simulator *)






(** ** [control] in steady flight *)







(** ** The sensor driver: integers and bus reads *)

Lemma int16_small (z : Z) : isInt16 z -> Mpu.int16 z = z.
Proof.
  unfold isInt16, Mpu.int16. intro H.
  rewrite Z.mod_small by lia. lia.
Qed.

Lemma int16_range (z : Z) : isInt16 (Mpu.int16 z).
Proof.
  unfold isInt16, Mpu.int16.
  pose proof (Z.mod_pos_bound (z + 32768) 65536 ltac:(lia)). lia.
Qed.

Lemma int32_small (z : Z) :
  (-2147483648 <= z <= 2147483647)%Z -> Mpu.int32 z = z.
Proof.
  unfold Mpu.int32. intro H. rewrite Z.mod_small by lia. lia.
Qed.

Lemma int64_small (z : Z) :
  (-9223372036854775808 <= z <= 9223372036854775807)%Z -> Mpu.int64 z = z.
Proof.
  unfold Mpu.int64. intro H. rewrite Z.mod_small by lia. lia.
Qed.

Lemma i2cRead2_ok (r : Mpu.reply) :
  Mpu.failed r = false ->
  Mpu.i2cRead2 r = Mpu.Returns (Mpu.int16 (fst r), None).
Proof.
  unfold Mpu.failed, Mpu.i2cRead2. destruct (snd r); [discriminate | reflexivity].
Qed.

Lemma i2cRead2_error (r : Mpu.reply) :
  Mpu.failed r = true -> Mpu.i2cRead2 r = Mpu.Panics.
Proof.
  unfold Mpu.failed, Mpu.i2cRead2. destruct (snd r); [reflexivity | discriminate].
Qed.

Lemma failed_cases (r : Mpu.reply) :
  Mpu.failed r = true \/ Mpu.failed r = false.
Proof. destruct (Mpu.failed r); auto. Qed.

(** The six reads of a turn: the words when the bus reports no error, a
    panic at the first error otherwise. *)
Lemma readGyroAccel_ok (t : Mpu.turn) :
  gyroAccelRead t ->
  Mpu.readGyroAccel t
  = Mpu.Returns (Some (Mpu.int16 (fst (Mpu.gyroX t)),
                       Mpu.int16 (fst (Mpu.gyroY t)),
                       Mpu.int16 (fst (Mpu.gyroZ t)),
                       Mpu.int16 (fst (Mpu.accelX t)),
                       Mpu.int16 (fst (Mpu.accelY t)),
                       Mpu.int16 (fst (Mpu.accelZ t)))).
Proof.
  unfold gyroAccelRead. intro H.
  repeat match goal with
         | H : Forall _ (_ :: _) |- _ =>
             let a := fresh "F" in
             apply Forall_cons_iff in H; destruct H as [a H]
         end.
  unfold Mpu.readGyroAccel.
  rewrite !i2cRead2_ok by assumption. reflexivity.
Qed.

Lemma readGyroAccel_error (t : Mpu.turn) :
  ~ gyroAccelRead t -> Mpu.readGyroAccel t = Mpu.Panics.
Proof.
  intro H. unfold Mpu.readGyroAccel.
  destruct (failed_cases (Mpu.gyroX t)) as [E | F1];
    [rewrite (i2cRead2_error _ E); reflexivity | ].
  rewrite (i2cRead2_ok _ F1). cbn [Mpu.bind snd fst].
  destruct (failed_cases (Mpu.gyroY t)) as [E | F2];
    [rewrite (i2cRead2_error _ E); reflexivity | ].
  rewrite (i2cRead2_ok _ F2). cbn [Mpu.bind snd fst].
  destruct (failed_cases (Mpu.gyroZ t)) as [E | F3];
    [rewrite (i2cRead2_error _ E); reflexivity | ].
  rewrite (i2cRead2_ok _ F3). cbn [Mpu.bind snd fst].
  destruct (failed_cases (Mpu.accelX t)) as [E | F4];
    [rewrite (i2cRead2_error _ E); reflexivity | ].
  rewrite (i2cRead2_ok _ F4). cbn [Mpu.bind snd fst].
  destruct (failed_cases (Mpu.accelY t)) as [E | F5];
    [rewrite (i2cRead2_error _ E); reflexivity | ].
  rewrite (i2cRead2_ok _ F5). cbn [Mpu.bind snd fst].
  destruct (failed_cases (Mpu.accelZ t)) as [E | F6];
    [rewrite (i2cRead2_error _ E); reflexivity | ].
  exfalso. apply H. unfold gyroAccelRead.
  repeat (apply Forall_cons; [assumption | ]). apply Forall_nil.
Qed.

Lemma readMag_error (R O V : Z) (m : Mpu.MPU9250) (t : Mpu.turn) :
  ~ magRead t -> Mpu.readMag R O V m t = Mpu.Panics.
Proof.
  intro H. unfold Mpu.readMag.
  destruct (failed_cases (Mpu.mag1 t)) as [E | F1];
    [rewrite (i2cRead2_error _ E); reflexivity | ].
  rewrite (i2cRead2_ok _ F1). cbn [Mpu.bind snd fst].
  destruct (failed_cases (Mpu.mag2 t)) as [E | F2];
    [rewrite (i2cRead2_error _ E); reflexivity | ].
  rewrite (i2cRead2_ok _ F2). cbn [Mpu.bind snd fst].
  destruct (failed_cases (Mpu.mag3 t)) as [E | F3];
    [rewrite (i2cRead2_error _ E); reflexivity | ].
  rewrite (i2cRead2_ok _ F3). cbn [Mpu.bind snd fst].
  destruct (failed_cases (Mpu.mag4 t)) as [E | F4];
    [rewrite (i2cRead2_error _ E); reflexivity | ].
  exfalso. apply H. unfold magRead.
  repeat (apply Forall_cons; [assumption | ]). apply Forall_nil.
Qed.

(** The magnetometer part of a turn when the bus reports no error: the
    data are added to the sums unless they are rejected. *)
Lemma readMag_ok (R O V : Z) (m : Mpu.MPU9250) (t : Mpu.turn) :
  magRead t ->
  Mpu.readMag R O V m t
  = Mpu.Returns
      (if magRejected R O V t then None
       else Some (Mpu.accumulateMag m
                    (Mpu.int16 (fst (Mpu.mag1 t)),
                     Mpu.int16 (fst (Mpu.mag2 t)),
                     Mpu.int16 (fst (Mpu.mag3 t))))).
Proof.
  unfold magRead. intro H.
  repeat match goal with
         | H : Forall _ (_ :: _) |- _ =>
             let a := fresh "F" in
             apply Forall_cons_iff in H; destruct H as [a H]
         end.
  unfold Mpu.readMag, magRejected.
  rewrite !i2cRead2_ok by assumption. cbn [Mpu.bind snd fst]. cbv zeta.
  destruct (andb _ _); [reflexivity | ].
  cbn [orb]. destruct (negb _); reflexivity.
Qed.

(** X14.  A bus error during a turn of the sampling loop does not reach
    the warnings the loop has for it: [i2cRead2] panics while it formats
    its error, so the turn panics at the first read that fails, on the
    gyro and accelerometer and, with the magnetometer in use, on the
    magnetometer. *)
Theorem readMPURaw_bus_error_panics (USEMAG : bool) (R O V : Z)
        (h : Mpu.handle) (t : Mpu.turn) :
  Mpu.held h = false ->
  (~ gyroAccelRead t ->
   Mpu.readMPURaw_turn USEMAG R O V h t = Mpu.Panics) /\
  (USEMAG = true -> gyroAccelRead t -> ~ magRead t ->
   Mpu.readMPURaw_turn USEMAG R O V h t = Mpu.Panics).
Proof.
  intro Hh. unfold Mpu.readMPURaw_turn, Mpu.Lock. rewrite Hh.
  cbn [Mpu.bind]. split.
  - intro H. rewrite (readGyroAccel_error t H). reflexivity.
  - intros -> Hg Hm. rewrite (readGyroAccel_ok t Hg). cbn [Mpu.bind].
    rewrite readMag_error by exact Hm. reflexivity.
Qed.

Lemma readMPURaw_bus_error_panics_witness :
  let t := Mpu.mkTurn (0%Z, None) (0%Z, Some "i/o timeout"%string)
                      (0%Z, None) (0%Z, None) (0%Z, None) (0%Z, None)
                      (0%Z, None) (0%Z, None) (0%Z, None) (0%Z, None) in
  let t' := Mpu.mkTurn (0%Z, None) (0%Z, None) (0%Z, None) (0%Z, None)
                       (0%Z, None) (0%Z, None)
                       (0%Z, None) (0%Z, None)
                       (0%Z, Some "i/o timeout"%string) (0%Z, None) in
  Mpu.readMPURaw_turn false 1 2 8 (Mpu.mkHandle mpu_idle false) t
  = Mpu.Panics /\
  Mpu.readMPURaw_turn true 1 2 8 (Mpu.mkHandle mpu_idle false) t'
  = Mpu.Panics.
Proof.
  intros t t'. split.
  - apply (proj1 (readMPURaw_bus_error_panics false 1 2 8
                    (Mpu.mkHandle mpu_idle false) t eq_refl)).
    unfold gyroAccelRead. intro H.
    apply Forall_cons_iff in H. destruct H as [_ H].
    apply Forall_cons_iff in H. destruct H as [H _]. discriminate H.
  - apply (proj2 (readMPURaw_bus_error_panics true 1 2 8
                    (Mpu.mkHandle mpu_idle false) t' eq_refl)).
    + reflexivity.
    + unfold gyroAccelRead. repeat constructor.
    + unfold magRead. intro H.
      apply Forall_cons_iff in H. destruct H as [_ H].
      apply Forall_cons_iff in H. destruct H as [_ H].
      apply Forall_cons_iff in H. destruct H as [H _]. discriminate H.
Defined.

(** ** The sampling loop and [Read] *)

(** One addition to a sum of the loop, while nothing wraps around. *)
Lemma accumulate_step (g x b c : Z) :
  (- c <= g <= c)%Z -> (0 <= c)%Z -> (c + 32768 <= 2147483647)%Z ->
  isInt16 (x - b) ->
  Mpu.int32 (g + Mpu.int16 (x - b)) = (g + (x - b))%Z /\
  (- (c + 32768) <= g + (x - b) <= c + 32768)%Z.
Proof.
  intros Hg Hc Hb Hx. rewrite (int16_small _ Hx).
  unfold isInt16 in Hx. split; [apply int32_small; lia | lia].
Qed.

(** A clean turn adds the six bias-corrected words to the sums, counts one
    sample and releases the mutex. *)
Lemma readMPURaw_turn_clean (USEMAG : bool) (R O V : Z) (h : Mpu.handle)
      (t : Mpu.turn) :
  Mpu.held h = false -> clean USEMAG R O V t ->
  exists m' : Mpu.MPU9250,
    Mpu.readMPURaw_turn USEMAG R O V h t
    = Mpu.Returns (Mpu.Continues (Mpu.mkHandle m' false)) /\
    Mpu.g1 m' = Mpu.int32 (Mpu.g1 (Mpu.fields h) + Mpu.int16 (Mpu.int16 (fst (Mpu.gyroX t)) - Mpu.g01 (Mpu.fields h))) /\
    Mpu.g2 m' = Mpu.int32 (Mpu.g2 (Mpu.fields h) + Mpu.int16 (Mpu.int16 (fst (Mpu.gyroY t)) - Mpu.g02 (Mpu.fields h))) /\
    Mpu.g3 m' = Mpu.int32 (Mpu.g3 (Mpu.fields h) + Mpu.int16 (Mpu.int16 (fst (Mpu.gyroZ t)) - Mpu.g03 (Mpu.fields h))) /\
    Mpu.a1 m' = Mpu.int32 (Mpu.a1 (Mpu.fields h) + Mpu.int16 (Mpu.int16 (fst (Mpu.accelX t)) - Mpu.a01 (Mpu.fields h))) /\
    Mpu.a2 m' = Mpu.int32 (Mpu.a2 (Mpu.fields h) + Mpu.int16 (Mpu.int16 (fst (Mpu.accelY t)) - Mpu.a02 (Mpu.fields h))) /\
    Mpu.a3 m' = Mpu.int32 (Mpu.a3 (Mpu.fields h) + Mpu.int16 (Mpu.int16 (fst (Mpu.accelZ t)) - Mpu.a03 (Mpu.fields h))) /\
    Mpu.n m' = Mpu.n (Mpu.fields h) + 1 /\
    Mpu.scaleGyro m' = Mpu.scaleGyro (Mpu.fields h) /\
    Mpu.scaleAccel m' = Mpu.scaleAccel (Mpu.fields h) /\
    Mpu.g01 m' = Mpu.g01 (Mpu.fields h) /\
    Mpu.g02 m' = Mpu.g02 (Mpu.fields h) /\
    Mpu.g03 m' = Mpu.g03 (Mpu.fields h) /\
    Mpu.a01 m' = Mpu.a01 (Mpu.fields h) /\
    Mpu.a02 m' = Mpu.a02 (Mpu.fields h) /\
    Mpu.a03 m' = Mpu.a03 (Mpu.fields h).
Proof.
  intros Hh [Hg Hm]. unfold Mpu.readMPURaw_turn, Mpu.Lock. rewrite Hh.
  cbn [Mpu.bind]. rewrite (readGyroAccel_ok t Hg). cbn [Mpu.bind Mpu.fields].
  destruct USEMAG.
  - destruct (Hm eq_refl) as [Hr Hj].
    rewrite (readMag_ok R O V _ t Hr). rewrite Hj. cbn [Mpu.bind].
    eexists. split; [reflexivity | ]. repeat split; reflexivity.
  - eexists. split; [reflexivity | ]. repeat split; reflexivity.
Qed.

(** [k] clean turns add up the bias-corrected words of each axis, as long
    as the sums stay inside [int32]. *)
Lemma turns_clean (USEMAG : bool) (R O V : Z) (bus : nat -> Mpu.turn)
      (k : nat) :
  forall (i : nat) (h : Mpu.handle) (c : Z),
  Mpu.held h = false ->
  (forall j, (i <= j < i + k)%nat -> clean USEMAG R O V (bus j)) ->
  (forall j, (i <= j < i + k)%nat ->
     isInt16 (sampled bus Mpu.gyroX (Mpu.g01 (Mpu.fields h)) j) /\
     isInt16 (sampled bus Mpu.gyroY (Mpu.g02 (Mpu.fields h)) j) /\
     isInt16 (sampled bus Mpu.gyroZ (Mpu.g03 (Mpu.fields h)) j) /\
     isInt16 (sampled bus Mpu.accelX (Mpu.a01 (Mpu.fields h)) j) /\
     isInt16 (sampled bus Mpu.accelY (Mpu.a02 (Mpu.fields h)) j) /\
     isInt16 (sampled bus Mpu.accelZ (Mpu.a03 (Mpu.fields h)) j)) ->
  (0 <= c)%Z -> (c + 32768 * Z.of_nat k <= 2147483647)%Z ->
  ((- c <= Mpu.g1 (Mpu.fields h) <= c)%Z /\
   (- c <= Mpu.g2 (Mpu.fields h) <= c)%Z /\
   (- c <= Mpu.g3 (Mpu.fields h) <= c)%Z /\
   (- c <= Mpu.a1 (Mpu.fields h) <= c)%Z /\
   (- c <= Mpu.a2 (Mpu.fields h) <= c)%Z /\
   (- c <= Mpu.a3 (Mpu.fields h) <= c)%Z) ->
  exists h' : Mpu.handle,
    Mpu.turns USEMAG R O V h bus i k = Mpu.Returns (Mpu.Continues h') /\
    Mpu.held h' = false /\
    Mpu.g1 (Mpu.fields h') = (Mpu.g1 (Mpu.fields h) + total (fun j => sampled bus Mpu.gyroX (Mpu.g01 (Mpu.fields h)) (i + j)) k)%Z /\
    Mpu.g2 (Mpu.fields h') = (Mpu.g2 (Mpu.fields h) + total (fun j => sampled bus Mpu.gyroY (Mpu.g02 (Mpu.fields h)) (i + j)) k)%Z /\
    Mpu.g3 (Mpu.fields h') = (Mpu.g3 (Mpu.fields h) + total (fun j => sampled bus Mpu.gyroZ (Mpu.g03 (Mpu.fields h)) (i + j)) k)%Z /\
    Mpu.a1 (Mpu.fields h') = (Mpu.a1 (Mpu.fields h) + total (fun j => sampled bus Mpu.accelX (Mpu.a01 (Mpu.fields h)) (i + j)) k)%Z /\
    Mpu.a2 (Mpu.fields h') = (Mpu.a2 (Mpu.fields h) + total (fun j => sampled bus Mpu.accelY (Mpu.a02 (Mpu.fields h)) (i + j)) k)%Z /\
    Mpu.a3 (Mpu.fields h') = (Mpu.a3 (Mpu.fields h) + total (fun j => sampled bus Mpu.accelZ (Mpu.a03 (Mpu.fields h)) (i + j)) k)%Z /\
    Mpu.n (Mpu.fields h') = Mpu.n (Mpu.fields h) + INR k /\
    Mpu.scaleGyro (Mpu.fields h') = Mpu.scaleGyro (Mpu.fields h) /\
    Mpu.scaleAccel (Mpu.fields h') = Mpu.scaleAccel (Mpu.fields h) /\
    Mpu.g01 (Mpu.fields h') = Mpu.g01 (Mpu.fields h) /\
    Mpu.g02 (Mpu.fields h') = Mpu.g02 (Mpu.fields h) /\
    Mpu.g03 (Mpu.fields h') = Mpu.g03 (Mpu.fields h) /\
    Mpu.a01 (Mpu.fields h') = Mpu.a01 (Mpu.fields h) /\
    Mpu.a02 (Mpu.fields h') = Mpu.a02 (Mpu.fields h) /\
    Mpu.a03 (Mpu.fields h') = Mpu.a03 (Mpu.fields h).
Proof.
  induction k as [ | k IH]; intros i h c Hh Hcl Hrg Hc Hb Hs.
  - exists h. cbn [Mpu.turns total]. rewrite !Z.add_0_r. cbn [INR].
    rewrite Rplus_0_r. repeat split; try reflexivity; exact Hh.
  - cbn [Mpu.turns].
    destruct (readMPURaw_turn_clean USEMAG R O V h (bus i) Hh
                (Hcl i ltac:(lia)))
      as (m' & HT & A1 & A2 & A3 & A4 & A5 & A6 & AN & K1 & K2 & K3 & K4 & K5 & K6 & K7 & K8).
    rewrite HT. cbn [Mpu.bind].
    destruct (Hrg i ltac:(lia)) as (R1 & R2 & R3 & R4 & R5 & R6).
    unfold sampled in R1, R2, R3, R4, R5, R6.
    destruct Hs as (S1 & S2 & S3 & S4 & S5 & S6).
    destruct (accumulate_step _ _ _ c S1 Hc ltac:(lia) R1) as [E1 B1].
    rewrite E1 in A1.
    destruct (accumulate_step _ _ _ c S2 Hc ltac:(lia) R2) as [E2 B2].
    rewrite E2 in A2.
    destruct (accumulate_step _ _ _ c S3 Hc ltac:(lia) R3) as [E3 B3].
    rewrite E3 in A3.
    destruct (accumulate_step _ _ _ c S4 Hc ltac:(lia) R4) as [E4 B4].
    rewrite E4 in A4.
    destruct (accumulate_step _ _ _ c S5 Hc ltac:(lia) R5) as [E5 B5].
    rewrite E5 in A5.
    destruct (accumulate_step _ _ _ c S6 Hc ltac:(lia) R6) as [E6 B6].
    rewrite E6 in A6.
    destruct (IH (S i) (Mpu.mkHandle m' false) (c + 32768)%Z eq_refl)
      as (h' & HT' & Hh' & C1 & C2 & C3 & C4 & C5 & C6 & CN & L1 & L2 & L3 & L4 & L5 & L6 & L7 & L8).
    + intros j Hj. apply Hcl. lia.
    + intros j Hj. cbn [Mpu.fields].
      rewrite K6, K7, K8, K3, K4, K5.
      apply Hrg. lia.
    + lia.
    + lia.
    + cbn [Mpu.fields]. rewrite A1, A2, A3, A4, A5, A6.
      repeat split; lia.
    + cbn [Mpu.fields] in *.
      exists h'. split; [exact HT' | split; [exact Hh' | ] ].
      rewrite C1, C2, C3, C4, C5, C6, CN, L1, L2, L3, L4, L5, L6, L7, L8.
      rewrite A1, A2, A3, A4, A5, A6, AN, K1, K2, K3, K4, K5, K6, K7, K8.
      cbn [total].
      assert (Hsh : forall (f : nat -> Z) (n0 : nat),
                 total (fun j => f (S i + j)%nat) n0
                 = total (fun j => f (i + S j)%nat) n0).
      { intros f n0. induction n0 as [ | n0 IHn]; [reflexivity | ].
        cbn [total]. rewrite IHn.
        replace (S i + n0)%nat with (i + S n0)%nat by lia. reflexivity. }
      assert (Hsplit : forall (f : nat -> Z) (n0 : nat),
                 (f (i + 0)%nat + total (fun j => f (i + S j)%nat) n0
                  = total (fun j => f (i + j)%nat) n0 + f (i + n0)%nat)%Z).
      { intros f n0. induction n0 as [ | n0 IHn];
          [cbn [total]; lia | ].
        cbn [total]. rewrite <- Z.add_assoc. rewrite Z.add_assoc.
        rewrite IHn. lia. }
      unfold sampled. unfold sampled in Hsh, Hsplit.
      repeat split; try reflexivity.
      * rewrite (Hsh (fun q => (Mpu.int16 (fst (Mpu.gyroX (bus q))) - Mpu.g01 (Mpu.fields h))%Z) k).
        pose proof (Hsplit (fun q => (Mpu.int16 (fst (Mpu.gyroX (bus q))) - Mpu.g01 (Mpu.fields h))%Z) k) as Q.
        cbv beta in Q. rewrite Nat.add_0_r in Q. lia.
      * rewrite (Hsh (fun q => (Mpu.int16 (fst (Mpu.gyroY (bus q))) - Mpu.g02 (Mpu.fields h))%Z) k).
        pose proof (Hsplit (fun q => (Mpu.int16 (fst (Mpu.gyroY (bus q))) - Mpu.g02 (Mpu.fields h))%Z) k) as Q.
        cbv beta in Q. rewrite Nat.add_0_r in Q. lia.
      * rewrite (Hsh (fun q => (Mpu.int16 (fst (Mpu.gyroZ (bus q))) - Mpu.g03 (Mpu.fields h))%Z) k).
        pose proof (Hsplit (fun q => (Mpu.int16 (fst (Mpu.gyroZ (bus q))) - Mpu.g03 (Mpu.fields h))%Z) k) as Q.
        cbv beta in Q. rewrite Nat.add_0_r in Q. lia.
      * rewrite (Hsh (fun q => (Mpu.int16 (fst (Mpu.accelX (bus q))) - Mpu.a01 (Mpu.fields h))%Z) k).
        pose proof (Hsplit (fun q => (Mpu.int16 (fst (Mpu.accelX (bus q))) - Mpu.a01 (Mpu.fields h))%Z) k) as Q.
        cbv beta in Q. rewrite Nat.add_0_r in Q. lia.
      * rewrite (Hsh (fun q => (Mpu.int16 (fst (Mpu.accelY (bus q))) - Mpu.a02 (Mpu.fields h))%Z) k).
        pose proof (Hsplit (fun q => (Mpu.int16 (fst (Mpu.accelY (bus q))) - Mpu.a02 (Mpu.fields h))%Z) k) as Q.
        cbv beta in Q. rewrite Nat.add_0_r in Q. lia.
      * rewrite (Hsh (fun q => (Mpu.int16 (fst (Mpu.accelZ (bus q))) - Mpu.a03 (Mpu.fields h))%Z) k).
        pose proof (Hsplit (fun q => (Mpu.int16 (fst (Mpu.accelZ (bus q))) - Mpu.a03 (Mpu.fields h))%Z) k) as Q.
        cbv beta in Q. rewrite Nat.add_0_r in Q. lia.
      * rewrite S_INR. ring.
Qed.

(** ** The period of the ticker *)

(** The ticker of a sample rate from 1 to 2000 per second has a period of
    at least one millisecond; any other rate but 0 gives a period that is
    not positive, and [time.NewTicker] panics. *)
Lemma NewTicker_ok (rate : Z) :
  (1 <= rate <= 2000)%Z -> Mpu.NewTicker rate = Mpu.Returns tt.
Proof.
  intros [H1 H2]. unfold Mpu.NewTicker.
  replace (rate =? 0)%Z with false by (symmetry; apply Z.eqb_neq; lia).
  assert (Hr : 1 <= IZR rate <= 2000) by (split; apply IZR_le; lia).
  assert (Hx : 1 <= 1000 / IZR rate + 0.5).
  { assert (1 / 2 <= 1000 / IZR rate); [ | lra].
    assert (/ 2000 <= / IZR rate) by (apply Rinv_le_contravar; lra).
    unfold Rdiv. lra. }
  unfold Mpu.truncate.
  destruct (Rle_dec 0 (1000 / IZR rate + 0.5)) as [_ | N]; [ | lra].
  pose proof (Zfloor_lub 1 _ Hx) as L.
  replace (0 <? Zfloor (1000 / IZR rate + 0.5))%Z with true
    by (symmetry; apply Z.ltb_lt; lia).
  reflexivity.
Qed.

Lemma NewTicker_panics (rate : Z) :
  (rate < 0 \/ 2000 < rate)%Z -> Mpu.NewTicker rate = Mpu.Panics.
Proof.
  intro H. unfold Mpu.NewTicker.
  replace (rate =? 0)%Z with false by (symmetry; apply Z.eqb_neq; lia).
  assert (Hx : 1000 / IZR rate + 0.5 < 1).
  { assert (1000 / IZR rate < 1 / 2); [ | lra].
    destruct H as [H | H].
    - assert (IZR rate < 0) by (apply (IZR_lt rate 0); lia).
      assert (/ IZR rate < 0) by (apply Rinv_lt_0_compat; assumption).
      unfold Rdiv. nra.
    - assert (2000 < IZR rate) by (apply (IZR_lt 2000 rate); lia).
      assert (/ IZR rate < / 2000) by (apply Rinv_lt_contravar; nra).
      unfold Rdiv. lra. }
  assert (Ht : (Mpu.truncate (1000 / IZR rate + 0.5) <= 0)%Z).
  { unfold Mpu.truncate.
    destruct (Rle_dec 0 (1000 / IZR rate + 0.5)) as [P | N].
    - pose proof (Zfloor_bound (1000 / IZR rate + 0.5)) as [B _].
      assert (IZR (Zfloor (1000 / IZR rate + 0.5)) < 1) by lra.
      apply lt_IZR in H0. lia.
    - assert (P : IZR 0 <= - (1000 / IZR rate + 0.5)) by lra.
      pose proof (Zfloor_lub 0 _ P). lia. }
  replace (0 <? Mpu.truncate (1000 / IZR rate + 0.5))%Z with false
    by (symmetry; apply Z.ltb_ge; exact Ht).
  reflexivity.
Qed.

(** What [Read] leaves in the device, and what it returns when samples
    have been counted. *)
Lemma Read_fresh (USEMAG : bool) (now : Z) (m : Mpu.MPU9250) :
  let m' := fst (fst (Mpu.Read USEMAG now m)) in
  (Mpu.g1 m' = 0%Z /\ Mpu.g2 m' = 0%Z /\ Mpu.g3 m' = 0%Z /\
   Mpu.a1 m' = 0%Z /\ Mpu.a2 m' = 0%Z /\ Mpu.a3 m' = 0%Z) /\
  Mpu.n m' = 0 /\
  (Mpu.scaleGyro m' = Mpu.scaleGyro m /\
   Mpu.scaleAccel m' = Mpu.scaleAccel m) /\
  (Mpu.g01 m' = Mpu.g01 m /\ Mpu.g02 m' = Mpu.g02 m /\
   Mpu.g03 m' = Mpu.g03 m /\ Mpu.a01 m' = Mpu.a01 m /\
   Mpu.a02 m' = Mpu.a02 m /\ Mpu.a03 m' = Mpu.a03 m).
Proof.
  unfold Mpu.Read.
  destruct (Mpu.gtb (Mpu.n m) 0); destruct (Mpu.gtb (Mpu.nm m) 0);
    [ | destruct USEMAG | | destruct USEMAG ];
    cbn [fst]; repeat split; reflexivity.
Qed.

Lemma Read_counted (USEMAG : bool) (now : Z) (m : Mpu.MPU9250) :
  0 < Mpu.n m ->
  let r := snd (fst (Mpu.Read USEMAG now m)) in
  Mpu.gaError r = None /\
  Mpu.r_g1 r = IZR (Mpu.g1 m) / Mpu.n m * Mpu.scaleGyro m /\
  Mpu.r_g2 r = IZR (Mpu.g2 m) / Mpu.n m * Mpu.scaleGyro m /\
  Mpu.r_g3 r = IZR (Mpu.g3 m) / Mpu.n m * Mpu.scaleGyro m /\
  Mpu.r_a1 r = IZR (Mpu.a1 m) / Mpu.n m * Mpu.scaleAccel m /\
  Mpu.r_a2 r = IZR (Mpu.a2 m) / Mpu.n m * Mpu.scaleAccel m /\
  Mpu.r_a3 r = IZR (Mpu.a3 m) / Mpu.n m * Mpu.scaleAccel m.
Proof.
  intro Hn. unfold Mpu.Read. rewrite (Mpu_gtb_pos _ Hn).
  destruct (Mpu.gtb (Mpu.nm m) 0); [ | destruct USEMAG];
    cbn [fst snd Mpu.gaError Mpu.r_g1 Mpu.r_g2 Mpu.r_g3
         Mpu.r_a1 Mpu.r_a2 Mpu.r_a3];
    repeat split; reflexivity.
Qed.

Lemma Read_sampleRate (USEMAG : bool) (now : Z) (m : Mpu.MPU9250) :
  Mpu.sampleRate (fst (fst (Mpu.Read USEMAG now m))) = Mpu.sampleRate m.
Proof.
  unfold Mpu.Read.
  destruct (Mpu.gtb (Mpu.n m) 0); destruct (Mpu.gtb (Mpu.nm m) 0);
    [ | destruct USEMAG | | destruct USEMAG ]; reflexivity.
Qed.

(** X15.  [Read] returns the mean of the samples taken since the Read
    before it: after a [Read], [k] clean turns of the sampling loop and a
    second [Read], the six values returned are the sums of the
    bias-corrected words of the [k] turns, divided by [k] and multiplied
    by the scale of the sensor, and no error is reported.  The sample
    rate is one the ticker accepts, the turns must not wrap the [int16]
    differences, and fewer than 65536 of them keep the [int32] sums from
    wrapping. *)
Theorem Read_returns_mean (USEMAG : bool) (R O V now0 now : Z)
        (m0 : Mpu.MPU9250) (bus : nat -> Mpu.turn) (k : nat) :
  (1 <= Mpu.sampleRate m0 <= 2000)%Z ->
  (0 < Z.of_nat k < 65536)%Z ->
  (forall j, (j < k)%nat -> clean USEMAG R O V (bus j)) ->
  (forall j, (j < k)%nat ->
     isInt16 (sampled bus Mpu.gyroX (Mpu.g01 m0) j) /\
     isInt16 (sampled bus Mpu.gyroY (Mpu.g02 m0) j) /\
     isInt16 (sampled bus Mpu.gyroZ (Mpu.g03 m0) j) /\
     isInt16 (sampled bus Mpu.accelX (Mpu.a01 m0) j) /\
     isInt16 (sampled bus Mpu.accelY (Mpu.a02 m0) j) /\
     isInt16 (sampled bus Mpu.accelZ (Mpu.a03 m0) j)) ->
  let fresh := fst (fst (Mpu.Read USEMAG now0 m0)) in
  exists h' : Mpu.handle,
    Mpu.readMPURaw USEMAG R O V (Mpu.mkHandle fresh false) bus k
    = Mpu.Returns (Mpu.Continues h') /\
    Mpu.held h' = false /\
    let r := snd (fst (Mpu.Read USEMAG now (Mpu.fields h'))) in
    Mpu.gaError r = None /\
    Mpu.r_g1 r = IZR (total (sampled bus Mpu.gyroX (Mpu.g01 m0)) k)
                 / INR k * Mpu.scaleGyro m0 /\
    Mpu.r_g2 r = IZR (total (sampled bus Mpu.gyroY (Mpu.g02 m0)) k)
                 / INR k * Mpu.scaleGyro m0 /\
    Mpu.r_g3 r = IZR (total (sampled bus Mpu.gyroZ (Mpu.g03 m0)) k)
                 / INR k * Mpu.scaleGyro m0 /\
    Mpu.r_a1 r = IZR (total (sampled bus Mpu.accelX (Mpu.a01 m0)) k)
                 / INR k * Mpu.scaleAccel m0 /\
    Mpu.r_a2 r = IZR (total (sampled bus Mpu.accelY (Mpu.a02 m0)) k)
                 / INR k * Mpu.scaleAccel m0 /\
    Mpu.r_a3 r = IZR (total (sampled bus Mpu.accelZ (Mpu.a03 m0)) k)
                 / INR k * Mpu.scaleAccel m0.
Proof.
  intros Hrate Hk Hcl Hrg fresh.
  pose proof (Read_fresh USEMAG now0 m0) as F. cbv zeta in F.
  pose proof (Read_sampleRate USEMAG now0 m0) as SR.
  fold fresh in F, SR.
  destruct F as ((Z1 & Z2 & Z3 & Z4 & Z5 & Z6) & ZN & (SG & SA)
                 & (B1 & B2 & B3 & B4 & B5 & B6)).
  clearbody fresh.
  destruct (turns_clean USEMAG R O V bus k 0 (Mpu.mkHandle fresh false) 0%Z
              eq_refl) as (h' & HT & Hh & C1 & C2 & C3 & C4 & C5 & C6 & CN
                           & K1 & K2 & K3 & K4 & K5 & K6 & K7 & K8).
  - intros j Hj. apply Hcl. lia.
  - intros j Hj. cbn [Mpu.fields]. rewrite B1, B2, B3, B4, B5, B6.
    apply Hrg. lia.
  - lia.
  - lia.
  - cbn [Mpu.fields]. rewrite Z1, Z2, Z3, Z4, Z5, Z6. repeat split; lia.
  - cbn [Mpu.fields] in *.
    exists h'. split; [ | split; [exact Hh | ] ].
    { unfold Mpu.readMPURaw. cbn [Mpu.fields].
      rewrite SR, (NewTicker_ok _ Hrate). exact HT. }
    rewrite Z1, B1 in C1. rewrite Z2, B2 in C2. rewrite Z3, B3 in C3.
    rewrite Z4, B4 in C4. rewrite Z5, B5 in C5. rewrite Z6, B6 in C6.
    rewrite ZN, Rplus_0_l in CN.
    assert (Hpos : 0 < Mpu.n (Mpu.fields h')).
    { rewrite CN. apply lt_0_INR. lia. }
    pose proof (Read_counted USEMAG now (Mpu.fields h') Hpos) as Q.
    cbv zeta in Q |- *.
    destruct Q as (Q0 & Q1 & Q2 & Q3 & Q4 & Q5 & Q6).
    rewrite Q1, Q2, Q3, Q4, Q5, Q6, C1, C2, C3, C4, C5, C6, CN, K1, K2, SG, SA.
    repeat split; try reflexivity. exact Q0.
Qed.

Lemma Read_returns_mean_witness :
  let bus := fun j : nat => turnOf (100 + Z.of_nat j) in
  let fresh := fst (fst (Mpu.Read false 0 mpu_idle)) in
  exists h' : Mpu.handle,
    Mpu.readMPURaw false 1 2 8 (Mpu.mkHandle fresh false) bus 2
    = Mpu.Returns (Mpu.Continues h') /\
    Mpu.held h' = false /\
    let r := snd (fst (Mpu.Read false 1 (Mpu.fields h'))) in
    Mpu.gaError r = None /\
    Mpu.r_g1 r = IZR (total (sampled bus Mpu.gyroX (Mpu.g01 mpu_idle)) 2)
                 / INR 2 * Mpu.scaleGyro mpu_idle /\
    Mpu.r_g2 r = IZR (total (sampled bus Mpu.gyroY (Mpu.g02 mpu_idle)) 2)
                 / INR 2 * Mpu.scaleGyro mpu_idle /\
    Mpu.r_g3 r = IZR (total (sampled bus Mpu.gyroZ (Mpu.g03 mpu_idle)) 2)
                 / INR 2 * Mpu.scaleGyro mpu_idle /\
    Mpu.r_a1 r = IZR (total (sampled bus Mpu.accelX (Mpu.a01 mpu_idle)) 2)
                 / INR 2 * Mpu.scaleAccel mpu_idle /\
    Mpu.r_a2 r = IZR (total (sampled bus Mpu.accelY (Mpu.a02 mpu_idle)) 2)
                 / INR 2 * Mpu.scaleAccel mpu_idle /\
    Mpu.r_a3 r = IZR (total (sampled bus Mpu.accelZ (Mpu.a03 mpu_idle)) 2)
                 / INR 2 * Mpu.scaleAccel mpu_idle.
Proof.
  intros bus.
  apply (Read_returns_mean false 1 2 8 0 1 mpu_idle bus 2).
  - cbn. lia.
  - lia.
  - intros j Hj. split; [ | discriminate].
    unfold gyroAccelRead. repeat constructor.
  - intros j Hj.
    assert (H : isInt16 (Mpu.int16 (100 + Z.of_nat j) - 0)).
    { rewrite int16_small by (unfold isInt16; lia). unfold isInt16. lia. }
    split; [exact H | ]. split; [exact H | ]. split; [exact H | ].
    split; [exact H | ]. split; [exact H | exact H].
Defined.

(** ** The ticker and the mutex *)

(** X16.  A sample rate outside 1..2000 stops the driver before it reads
    anything: below 0 or above 2000 the period of the ticker is not
    positive, so both the sampling loop and the gyro calibration panic
    in [time.NewTicker]. *)
Theorem sample_rate_out_of_range_panics (USEMAG : bool) (R O V : Z)
        (h : Mpu.handle) (bus : nat -> Mpu.turn) (k : nat) (dur : Z)
        (gyro : nat -> Mpu.reply * Mpu.reply * Mpu.reply) :
  (Mpu.sampleRate (Mpu.fields h) < 0
   \/ 2000 < Mpu.sampleRate (Mpu.fields h))%Z ->
  Mpu.readMPURaw USEMAG R O V h bus k = Mpu.Panics /\
  Mpu.CalibrateGyro h dur gyro = Mpu.Panics.
Proof.
  intro H. unfold Mpu.readMPURaw, Mpu.CalibrateGyro.
  rewrite (NewTicker_panics _ H). split; reflexivity.
Qed.

Lemma sample_rate_out_of_range_panics_witness :
  Mpu.readMPURaw false 1 2 8 (Mpu.mkHandle mpu_fast false)
    (fun _ => turnOf 0) 3 = Mpu.Panics /\
  Mpu.CalibrateGyro (Mpu.mkHandle mpu_fast false) 1 (atRest 0 0 0)
  = Mpu.Panics.
Proof.
  apply sample_rate_out_of_range_panics. right. cbn. lia.
Defined.

(** The handle a rejected magnetometer turn leaves. *)
Lemma readMPURaw_turn_rejected (R O V : Z) (h : Mpu.handle) (t : Mpu.turn) :
  Mpu.held h = false -> gyroAccelRead t -> magRead t ->
  magRejected R O V t = true ->
  exists m' : Mpu.MPU9250,
    Mpu.readMPURaw_turn true R O V h t
    = Mpu.Returns (Mpu.Ends (Mpu.mkHandle m' true)) /\
    Mpu.n m' = Mpu.n (Mpu.fields h) + 1 /\
    Mpu.nm m' = Mpu.nm (Mpu.fields h) /\
    Mpu.sampleRate m' = Mpu.sampleRate (Mpu.fields h).
Proof.
  intros Hh Hg Hm Hj. unfold Mpu.readMPURaw_turn, Mpu.Lock. rewrite Hh.
  cbn [Mpu.bind]. rewrite (readGyroAccel_ok t Hg). cbn [Mpu.bind Mpu.fields].
  rewrite (readMag_ok R O V _ t Hm). rewrite Hj. cbn [Mpu.bind].
  eexists. split; [reflexivity | ]. repeat split; reflexivity.
Qed.

(** X17.  When the magnetometer data of a turn are rejected (not ready
    and overrun, or overflowed), the sampling loop returns without
    unlocking: the loop ends at that turn with the gyro and
    accelerometer sample counted and the mutex held, and from then on a
    turn of the loop, a [Read] or a gyro calibration waits for the mutex
    for ever. *)
Theorem magnetometer_rejection_keeps_mutex (R O V : Z) (h : Mpu.handle)
        (bus : nat -> Mpu.turn) (i k : nat) :
  Mpu.held h = false ->
  gyroAccelRead (bus i) -> magRead (bus i) ->
  magRejected R O V (bus i) = true ->
  exists h' : Mpu.handle,
    Mpu.turns true R O V h bus i (S k) = Mpu.Returns (Mpu.Ends h') /\
    Mpu.held h' = true /\
    Mpu.n (Mpu.fields h') = Mpu.n (Mpu.fields h) + 1 /\
    Mpu.nm (Mpu.fields h') = Mpu.nm (Mpu.fields h) /\
    (forall t : Mpu.turn,
       Mpu.readMPURaw_turn true R O V h' t = Mpu.Blocks) /\
    (forall now : Z, Mpu.ReadLocked true now h' = Mpu.Blocks) /\
    (forall (dur : Z) (gyro : nat -> Mpu.reply * Mpu.reply * Mpu.reply),
       (1 <= Mpu.sampleRate (Mpu.fields h) <= 2000)%Z ->
       Mpu.CalibrateGyro h' dur gyro = Mpu.Blocks).
Proof.
  intros Hh Hg Hm Hj.
  destruct (readMPURaw_turn_rejected R O V h (bus i) Hh Hg Hm Hj)
    as (m' & HT & Hn & Hnm & Hr).
  exists (Mpu.mkHandle m' true).
  split; [ | split; [reflexivity | split; [exact Hn | split; [exact Hnm | ] ] ] ].
  - cbn [Mpu.turns]. rewrite HT. reflexivity.
  - split; [ | split].
    + intro t. reflexivity.
    + intro now. reflexivity.
    + intros dur gyro Hrate. unfold Mpu.CalibrateGyro. cbn [Mpu.fields].
      rewrite Hr, (NewTicker_ok _ Hrate). reflexivity.
Qed.

Lemma magnetometer_rejection_keeps_mutex_witness :
  exists h' : Mpu.handle,
    Mpu.turns true 1 2 8 (Mpu.mkHandle mpu_idle false)
      (fun _ => turnOf 2) 0 3 = Mpu.Returns (Mpu.Ends h') /\
    Mpu.held h' = true /\
    Mpu.n (Mpu.fields h') = Mpu.n mpu_idle + 1 /\
    Mpu.nm (Mpu.fields h') = Mpu.nm mpu_idle /\
    (forall t : Mpu.turn,
       Mpu.readMPURaw_turn true 1 2 8 h' t = Mpu.Blocks) /\
    (forall now : Z, Mpu.ReadLocked true now h' = Mpu.Blocks) /\
    (forall (dur : Z) (gyro : nat -> Mpu.reply * Mpu.reply * Mpu.reply),
       (1 <= Mpu.sampleRate mpu_idle <= 2000)%Z ->
       Mpu.CalibrateGyro h' dur gyro = Mpu.Blocks).
Proof.
  apply (magnetometer_rejection_keeps_mutex 1 2 8
           (Mpu.mkHandle mpu_idle false) (fun _ => turnOf 2) 0 2).
  - reflexivity.
  - unfold gyroAccelRead. repeat constructor.
  - unfold magRead. repeat constructor.
  - reflexivity.
Defined.

(** ** The gyro calibration *)

(** The sampling loop of the calibration never reports a bus error: a
    failed read panics in [i2cRead2] before the loop can return. *)
Lemma sampleGyro_never_reports (bus : nat -> Mpu.reply * Mpu.reply * Mpu.reply)
      (k : nat) :
  forall (i : nat) (acc : Z * Z * Z * Z * Z * Z),
  Mpu.sampleGyro bus i k acc <> Mpu.Returns None.
Proof.
  induction k as [ | k IH]; intros i acc.
  - cbn [Mpu.sampleGyro]. discriminate.
  - cbn [Mpu.sampleGyro].
    destruct (bus i) as [[r1 r2] r3].
    destruct acc as [[[[[g11 g12] g13] g21] g22] g23].
    unfold Mpu.i2cRead2.
    destruct (snd r1); [cbn [Mpu.bind]; discriminate | ].
    cbn [Mpu.bind snd fst].
    destruct (snd r2); [cbn [Mpu.bind]; discriminate | ].
    cbn [Mpu.bind snd fst].
    destruct (snd r3); [cbn [Mpu.bind]; discriminate | ].
    cbn [Mpu.bind snd fst].
    apply IH.
Qed.

(** The sums of a sensor at rest after [k] more turns. *)
Lemma sampleGyro_rest (w1 w2 w3 : Z) (k : nat) :
  forall (i : nat) (a : Z),
  (0 <= a)%Z -> (a + Z.of_nat k <= 65535)%Z ->
  Mpu.sampleGyro (atRest w1 w2 w3) i k
    (a * Mpu.int16 w1, a * Mpu.int16 w2, a * Mpu.int16 w3,
     a * Mpu.int16 w1 * Mpu.int16 w1,
     a * Mpu.int16 w2 * Mpu.int16 w2,
     a * Mpu.int16 w3 * Mpu.int16 w3)%Z
  = Mpu.Returns
      (Some ((a + Z.of_nat k) * Mpu.int16 w1,
             (a + Z.of_nat k) * Mpu.int16 w2,
             (a + Z.of_nat k) * Mpu.int16 w3,
             (a + Z.of_nat k) * Mpu.int16 w1 * Mpu.int16 w1,
             (a + Z.of_nat k) * Mpu.int16 w2 * Mpu.int16 w2,
             (a + Z.of_nat k) * Mpu.int16 w3 * Mpu.int16 w3))%Z.
Proof.
  pose proof (int16_range w1) as R1. pose proof (int16_range w2) as R2.
  pose proof (int16_range w3) as R3. unfold isInt16 in R1, R2, R3.
  set (v1 := Mpu.int16 w1) in *. set (v2 := Mpu.int16 w2) in *.
  set (v3 := Mpu.int16 w3) in *.
  induction k as [ | k IH]; intros i a Ha Hk.
  - cbn [Mpu.sampleGyro]. rewrite Z.add_0_r. reflexivity.
  - cbn [Mpu.sampleGyro atRest]. unfold Mpu.i2cRead2.
    cbn [Mpu.bind snd fst]. fold v1 v2 v3.
    assert (Q1 : (0 <= v1 * v1 <= 1073741824)%Z) by nia.
    assert (Q2 : (0 <= v2 * v2 <= 1073741824)%Z) by nia.
    assert (Q3 : (0 <= v3 * v3 <= 1073741824)%Z) by nia.
    rewrite (int32_small (a * v1 + v1)) by nia.
    rewrite (int32_small (a * v2 + v2)) by nia.
    rewrite (int32_small (a * v3 + v3)) by nia.
    rewrite (int64_small (v1 * v1)) by lia.
    rewrite (int64_small (v2 * v2)) by lia.
    rewrite (int64_small (v3 * v3)) by lia.
    rewrite (int64_small (a * v1 * v1 + v1 * v1)) by nia.
    rewrite (int64_small (a * v2 * v2 + v2 * v2)) by nia.
    rewrite (int64_small (a * v3 * v3 + v3 * v3)) by nia.
    replace (a * v1 + v1)%Z with ((a + 1) * v1)%Z by ring.
    replace (a * v2 + v2)%Z with ((a + 1) * v2)%Z by ring.
    replace (a * v3 + v3)%Z with ((a + 1) * v3)%Z by ring.
    replace (a * v1 * v1 + v1 * v1)%Z with ((a + 1) * v1 * v1)%Z by ring.
    replace (a * v2 * v2 + v2 * v2)%Z with ((a + 1) * v2 * v2)%Z by ring.
    replace (a * v3 * v3 + v3 * v3)%Z with ((a + 1) * v3 * v3)%Z by ring.
    rewrite (IH (S i) (a + 1)%Z) by lia.
    replace (a + 1 + Z.of_nat k)%Z with (a + Z.of_nat (S k))%Z by lia.
    reflexivity.
Qed.

(** With every reading equal, the quantity compared with the threshold
    is zero. *)
Lemma spread_rest (scale : R) (c v : Z) :
  (0 < c < 65536)%Z -> isInt16 v ->
  Mpu.spread scale c (c * v * v) (c * v) = 0.
Proof.
  unfold isInt16. intros Hc Hv. unfold Mpu.spread.
  assert (Q : (0 <= v * v <= 1073741824)%Z) by nia.
  replace (c * v * (c * v))%Z with (c * v * v * c)%Z by ring.
  rewrite (int64_small (c * v * v * c)) by nia.
  rewrite Z.quot_mul by lia.
  rewrite (int64_small (c * v * v)) by nia.
  rewrite Z.sub_diag.
  replace (Mpu.int64 0) with 0%Z by reflexivity. ring.
Qed.

Lemma Mpu_gtb_false (x y : R) : x <= y -> Mpu.gtb x y = false.
Proof. intro H. unfold Mpu.gtb. destruct (Rlt_dec y x); [lra | reflexivity]. Qed.

Lemma Mpu_gtb_true (x y : R) : y < x -> Mpu.gtb x y = true.
Proof. intro H. unfold Mpu.gtb. destruct (Rlt_dec y x); [reflexivity | lra]. Qed.

(** The number of turns of the calibration, while it does not wrap. *)
Lemma count_small (dur rate : Z) :
  (-2147483648 <= dur <= 2147483647)%Z ->
  (-2147483648 <= rate <= 2147483647)%Z ->
  (-2147483648 <= dur * rate <= 2147483647)%Z ->
  Mpu.int32 (Mpu.int32 dur * Mpu.int32 rate) = (dur * rate)%Z.
Proof.
  intros Hd Hr Hc. rewrite (int32_small dur Hd), (int32_small rate Hr).
  apply int32_small. exact Hc.
Qed.

Lemma CalibrateGyro_negative (h : Mpu.handle) (dur : Z)
      (bus : nat -> Mpu.reply * Mpu.reply * Mpu.reply) :
  Mpu.held h = false ->
  (1 <= Mpu.sampleRate (Mpu.fields h) <= 2000)%Z ->
  (-1000000 <= dur < 0)%Z ->
  Mpu.CalibrateGyro h dur bus
  = Mpu.Returns (Mpu.mkHandle (Mpu.fields h) true, Some Mpu.notInertial).
Proof.
  intros Hh Hrate Hd. unfold Mpu.CalibrateGyro.
  rewrite (NewTicker_ok _ Hrate). unfold Mpu.Lock. rewrite Hh.
  cbn [Mpu.bind Mpu.fields].
  rewrite count_small by nia.
  set (c := (dur * Mpu.sampleRate (Mpu.fields h))%Z) in *.
  assert (Hc0 : (c < 0)%Z) by (unfold c; nia).
  replace (Z.to_nat c) with 0%nat by lia.
  cbn [Mpu.sampleGyro Mpu.bind].
  replace (c =? 0)%Z with false by (symmetry; apply Z.eqb_neq; lia).
  assert (E : Mpu.spread (Mpu.scaleGyro (Mpu.fields h)) c 0 0 = 0).
  { unfold Mpu.spread. cbn [Z.mul].
    replace (Mpu.int64 0) with 0%Z by reflexivity.
    rewrite Z.quot_0_l by lia.
    replace (Mpu.int64 0) with 0%Z by reflexivity.
    cbn [Z.sub Z.opp Z.add].
    replace (Mpu.int64 0) with 0%Z by reflexivity. ring. }
  rewrite E.
  assert (P : IZR c * 10 < 0).
  { assert (IZR c < 0) by (apply (IZR_lt c 0); lia). lra. }
  rewrite (Mpu_gtb_true _ _ P). reflexivity.
Qed.

(** X18.  Calibrating the gyro of a sensor at rest: when every turn
    reads the same three words without a bus error, the mutex is free,
    the sample rate is between 1 and 2000 and the duration is positive
    with fewer than 65536 turns in all, [CalibrateGyro] returns nil,
    stores the three words (as [int16]) as the biases, changes nothing
    else and releases the mutex. *)
Theorem CalibrateGyro_at_rest (h : Mpu.handle) (dur w1 w2 w3 : Z) :
  Mpu.held h = false ->
  (1 <= Mpu.sampleRate (Mpu.fields h) <= 2000)%Z ->
  (0 < dur)%Z -> (dur * Mpu.sampleRate (Mpu.fields h) < 65536)%Z ->
  Mpu.CalibrateGyro h dur (atRest w1 w2 w3)
  = Mpu.Returns
      (Mpu.mkHandle (Mpu.withGyroBias (Mpu.fields h) (Mpu.int16 w1)
                       (Mpu.int16 w2) (Mpu.int16 w3)) false,
       None).
Proof.
  intros Hh Hrate Hd Hc. unfold Mpu.CalibrateGyro.
  rewrite (NewTicker_ok _ Hrate). unfold Mpu.Lock. rewrite Hh.
  cbn [Mpu.bind Mpu.fields].
  rewrite count_small by nia.
  set (c := (dur * Mpu.sampleRate (Mpu.fields h))%Z) in *.
  assert (Hc0 : (0 < c)%Z) by (unfold c; nia).
  pose proof (sampleGyro_rest w1 w2 w3 (Z.to_nat c) 0 0%Z
                ltac:(lia) ltac:(lia)) as S.
  cbn [Z.mul Z.add] in S. rewrite Z2Nat.id in S by lia.
  rewrite S. cbn [Mpu.bind].
  replace (c =? 0)%Z with false by (symmetry; apply Z.eqb_neq; lia).
  rewrite !spread_rest by (try apply int16_range; lia).
  assert (P : 0 <= IZR c * 10).
  { assert (0 < IZR c) by (apply (IZR_lt 0 c); lia). lra. }
  rewrite (Mpu_gtb_false _ _ P). cbn [orb].
  rewrite !(Z.mul_comm c), !Z.quot_mul by lia.
  pose proof (int16_range w1) as R1. pose proof (int16_range w2) as R2.
  pose proof (int16_range w3) as R3.
  rewrite (int32_small (Mpu.int16 w1)) by (unfold isInt16 in R1; lia).
  rewrite (int32_small (Mpu.int16 w2)) by (unfold isInt16 in R2; lia).
  rewrite (int32_small (Mpu.int16 w3)) by (unfold isInt16 in R3; lia).
  rewrite (int16_small _ R1), (int16_small _ R2), (int16_small _ R3).
  reflexivity.
Qed.

Lemma CalibrateGyro_at_rest_witness :
  Mpu.CalibrateGyro (Mpu.mkHandle mpu_idle false) 2 (atRest 12 (-7) 65535)
  = Mpu.Returns
      (Mpu.mkHandle (Mpu.withGyroBias mpu_idle (Mpu.int16 12)
                       (Mpu.int16 (-7)) (Mpu.int16 65535)) false,
       None).
Proof.
  apply (CalibrateGyro_at_rest (Mpu.mkHandle mpu_idle false) 2 12 (-7) 65535).
  - reflexivity.
  - cbn. lia.
  - lia.
  - cbn. lia.
Defined.

(** X19.  The only error [CalibrateGyro] ever returns is the one of a
    sensor that was not inertial, never the one of a sensor error (a bus
    error panics instead); and whenever it returns an error it has
    changed no field and has not released the mutex. *)
Theorem CalibrateGyro_error_keeps_mutex (h h' : Mpu.handle) (dur : Z)
        (bus : nat -> Mpu.reply * Mpu.reply * Mpu.reply) (e : string) :
  Mpu.CalibrateGyro h dur bus = Mpu.Returns (h', Some e) ->
  e = Mpu.notInertial /\ Mpu.held h' = true /\
  Mpu.fields h' = Mpu.fields h.
Proof.
  unfold Mpu.CalibrateGyro.
  destruct (Mpu.NewTicker (Mpu.sampleRate (Mpu.fields h)));
    cbn [Mpu.bind]; try discriminate.
  unfold Mpu.Lock. destruct (Mpu.held h); cbn [Mpu.bind]; try discriminate.
  cbn [Mpu.fields].
  set (c := Mpu.int32 (Mpu.int32 dur * Mpu.int32 (Mpu.sampleRate (Mpu.fields h)))).
  clearbody c.
  destruct (Mpu.sampleGyro bus 0 (Z.to_nat c) (0, 0, 0, 0, 0, 0)%Z)
    as [[acc | ] | | | ] eqn:ES; cbn [Mpu.bind]; try discriminate.
  - destruct acc as [[[[[g11 g12] g13] g21] g22] g23].
    destruct (c =? 0)%Z; [discriminate | ].
    destruct (orb _ _); intro H; inversion H; subst.
    repeat split; reflexivity.
  - exfalso. exact (sampleGyro_never_reports bus _ _ _ ES).
Qed.

Lemma CalibrateGyro_error_keeps_mutex_witness :
  Mpu.notInertial = Mpu.notInertial /\
  Mpu.held (Mpu.mkHandle mpu_idle true) = true /\
  Mpu.fields (Mpu.mkHandle mpu_idle true)
  = Mpu.fields (Mpu.mkHandle mpu_idle false).
Proof.
  apply (CalibrateGyro_error_keeps_mutex (Mpu.mkHandle mpu_idle false)
           (Mpu.mkHandle mpu_idle true) (-1) (atRest 0 0 0)
           Mpu.notInertial).
  apply (CalibrateGyro_negative (Mpu.mkHandle mpu_idle false) (-1)
           (atRest 0 0 0)).
  - reflexivity.
  - cbn. lia.
  - lia.
Defined.



(** ** The magnetometer calibration *)

Lemma uint8_range (z : Z) : (0 <= Mpu.uint8 z <= 255)%Z.
Proof.
  unfold Mpu.uint8. pose proof (Z.mod_pos_bound z 256 ltac:(lia)). lia.
Qed.

(** X21.  [ReadMagCalibration] returns nil exactly when the bus reports
    no error on its calls other than the seventh: the error of that
    write (number 6 counting from 0, the first fuse ROM access) is
    dropped, and any other error is returned. *)
Theorem ReadMagCalibration_succeeds_iff (m : Mpu.MPU9250)
        (bus : nat -> Mpu.reply) :
  snd (Mpu.ReadMagCalibration m bus) = None <->
  (forall i : nat, (i < 14)%nat -> i <> 6%nat -> Mpu.failed (bus i) = false).
Proof.
  unfold Mpu.ReadMagCalibration, Mpu.i2cRead, Mpu.i2cWrite.
  cbv beta iota zeta.
  repeat match goal with
         | |- context [if Mpu.failed (bus ?k) then _ else _] =>
             let E := fresh "E" in
             destruct (Mpu.failed (bus k)) eqn:E;
             [ cbn [snd]; split;
               [ discriminate
               | intro H; rewrite H in E by lia; discriminate E ]
             | ]
         end.
  cbn [snd]. split; [ | reflexivity].
  intros _ i Hi H6.
  do 14 (destruct i as [ | i]; [first [assumption | contradiction] | ]).
  lia.
Qed.

(** X22.  What [ReadMagCalibration] stores.  When the bus reports no
    error up to the reads of the three sensitivity bytes, the three
    adjustments are set to the byte plus 128 modulo 256 (the sum is a
    [uint8] and wraps), nothing else changes, and this holds whether or
    not the calls that follow fail.  When one of those earlier calls
    fails, no field changes. *)
Theorem ReadMagCalibration_stores (m : Mpu.MPU9250)
        (bus : nat -> Mpu.reply) :
  ((forall i : nat, (i < 10)%nat -> i <> 6%nat ->
      Mpu.failed (bus i) = false) ->
   fst (Mpu.ReadMagCalibration m bus)
   = Mpu.withMagCalibration m ((fst (bus 7%nat) + 128) mod 256)
       ((fst (bus 8%nat) + 128) mod 256)
       ((fst (bus 9%nat) + 128) mod 256)) /\
  ((exists i : nat, (i < 10)%nat /\ i <> 6%nat /\
      Mpu.failed (bus i) = true) ->
   fst (Mpu.ReadMagCalibration m bus) = m).
Proof.
  split.
  - intro H.
    unfold Mpu.ReadMagCalibration, Mpu.i2cRead, Mpu.i2cWrite.
    cbv beta iota zeta.
    rewrite (H 0%nat), (H 1%nat), (H 2%nat), (H 3%nat), (H 4%nat),
      (H 5%nat), (H 7%nat), (H 8%nat), (H 9%nat) by lia.
    rewrite !(int32_small (Mpu.uint8 _))
      by (match goal with
          | |- context [Mpu.uint8 ?z] => pose proof (uint8_range z); lia
          end).
    unfold Mpu.uint8.
    repeat match goal with
           | |- context [if ?c then _ else _] => destruct c
           end; reflexivity.
  - intros (i & Hi & H6 & Hf).
    unfold Mpu.ReadMagCalibration, Mpu.i2cRead, Mpu.i2cWrite.
    cbv beta iota zeta.
    destruct (Mpu.failed (bus 0%nat)) eqn:E0; [reflexivity | ].
    destruct (Mpu.failed (bus 1%nat)) eqn:E1; [reflexivity | ].
    destruct (Mpu.failed (bus 2%nat)) eqn:E2; [reflexivity | ].
    destruct (Mpu.failed (bus 3%nat)) eqn:E3; [reflexivity | ].
    destruct (Mpu.failed (bus 4%nat)) eqn:E4; [reflexivity | ].
    destruct (Mpu.failed (bus 5%nat)) eqn:E5; [reflexivity | ].
    destruct (Mpu.failed (bus 7%nat)) eqn:E7; [reflexivity | ].
    destruct (Mpu.failed (bus 8%nat)) eqn:E8; [reflexivity | ].
    destruct (Mpu.failed (bus 9%nat)) eqn:E9; [reflexivity | ].
    exfalso.
    do 10 (destruct i as [ | i]; [congruence | ]).
    lia.
Qed.

Lemma ReadMagCalibration_stores_witness :
  fst (Mpu.ReadMagCalibration mpu_idle
         (fun i : nat => if Nat.eqb i 7 then (200%Z, None)
                         else if Nat.eqb i 12
                              then (0%Z, Some "i/o timeout"%string)
                              else (0%Z, None)))
  = Mpu.withMagCalibration mpu_idle ((200 + 128) mod 256)
      ((0 + 128) mod 256) ((0 + 128) mod 256) /\
  fst (Mpu.ReadMagCalibration mpu_idle
         (fun i : nat => if Nat.eqb i 8
                         then (200%Z, Some "i/o timeout"%string)
                         else (0%Z, None)))
  = mpu_idle.
Proof.
  split.
  - apply (proj1 (ReadMagCalibration_stores mpu_idle
                    (fun i : nat => if Nat.eqb i 7 then (200%Z, None)
                                    else if Nat.eqb i 12
                                         then (0%Z, Some "i/o timeout"%string)
                                         else (0%Z, None)))).
    intros i Hi H6.
    do 10 (destruct i as [ | i]; [reflexivity | ]). lia.
  - apply (proj2 (ReadMagCalibration_stores mpu_idle
                    (fun i : nat => if Nat.eqb i 8
                                    then (200%Z, Some "i/o timeout"%string)
                                    else (0%Z, None)))).
    exists 8%nat. split; [lia | split; [lia | reflexivity] ].
Defined.
